(** * Eco: a counter ledger over the browser's localStorage

    A shallow embedding of [src/index.js].  The object [eco] reads and writes
    JSON text in [localStorage]; every method is wrapped in [try]/[catch] and
    reports failures on [console.error].

    The file is organised as follows.
    - [Float64]: IEEE 754 binary64 numbers (the JavaScript Number type) on
      top of the Standard Library's [SpecFloat].
    - [Text]: decimal digits, [Number::toString] and the numeric literals.
    - [Js]: the values of the language, its coercions and operators, and the
      [JSON] object.
    - [Host]: the world a method runs in ([localStorage], [Math.random], the
      console) and the monad of completions.
    - [Eco]: the methods of [src/index.js], one definition per method.
    - The vocabulary of the properties, then the properties: completions
      and frames, binary64 arithmetic, numbers and strings as JSON text, the
      runs of the methods, the statements C1 to C10 of the specification,
      and further properties of the methods, X1 onwards. *)

From Stdlib Require Import ZArith Lia Bool List String Ascii SpecFloat.
From stdpp Require Import gmap strings.

Local Open Scope Z_scope.
Set Warnings "-register-all".

(** ** Binary64 numbers *)

Module Float64.

Definition prec : Z := 53.
Definition emax : Z := 1024.

Abbreviation number := spec_float.

Definition NaN : number := S754_nan.
Definition Infinity : number := S754_infinity false.
Definition neg_Infinity : number := S754_infinity true.
Definition pos_zero : number := S754_zero false.
Definition neg_zero : number := S754_zero true.

(** A genuine binary64 value: the mantissa is canonical and the exponent is
    in range. *)
Definition valid (x : number) : bool := valid_binary prec emax x.

Definition is_finite (x : number) : bool :=
  match x with
  | S754_zero _ | S754_finite _ _ _ => true
  | S754_infinity _ | S754_nan => false
  end.

Definition is_nan (x : number) : bool :=
  match x with S754_nan => true | _ => false end.

(** The operators [+ - * /] on two Numbers. *)
Definition fadd : number -> number -> number := SFadd prec emax.
Definition fsub : number -> number -> number := SFsub prec emax.
Definition fmul : number -> number -> number := SFmul prec emax.
Definition fdiv : number -> number -> number := SFdiv prec emax.

(** [x < y], [x == y] on Numbers (false as soon as one side is NaN). *)
Definition flt : number -> number -> bool := SFltb.
Definition feq : number -> number -> bool := SFeqb.
Definition fle : number -> number -> bool := SFleb.

(** The Number nearest to the integer [z] (exact up to [2^53]). *)
Definition of_Z (z : Z) : number := binary_normalize prec emax z 0 false.

(** The Number nearest to the rational [num / den], ties to even: the
    quotient is computed with enough bits for the format, the remainder
    gives the position between two neighbours, and the result is rounded. *)
Definition round_ratio (neg : bool) (num den : positive) : number :=
  let '(q, e, l) := SFdiv_core_binary prec emax (Zpos num) 0 (Zpos den) 0 in
  binary_round_aux prec emax neg q e l.

(** The Number nearest to [m * 10^e]. *)
Definition of_decimal (neg : bool) (m : N) (e : Z) : number :=
  match m with
  | N0 => S754_zero neg
  | Npos p =>
      if 0 <=? e
      then round_ratio neg (p * Z.to_pos (10 ^ e)) 1
      else round_ratio neg p (Z.to_pos (10 ^ (- e)))
  end.

(** [Math.floor] *)
Definition floor (x : number) : number :=
  match x with
  | S754_finite s m e =>
      if 0 <=? e then x
      else
        of_Z (cond_Zopp s (Zpos m) / 2 ^ (- e))
  | _ => x
  end.

(** [Math.max]: the arguments are scanned from left to right starting from
    [-Infinity]; a NaN argument makes the result NaN and [+0] is larger than
    [-0]. *)
Definition max_step (highest : option number) (x : number) : option number :=
  match highest with
  | None => None
  | Some h =>
      if is_nan x then None
      else
        match x, h with
        | S754_zero false, S754_zero true => Some x
        | _, _ => if flt h x then Some x else Some h
        end
  end.

(** Structural equality of two Numbers (the bit patterns agree). *)
Definition same (x y : number) : bool :=
  match x, y with
  | S754_zero s, S754_zero t => Bool.eqb s t
  | S754_infinity s, S754_infinity t => Bool.eqb s t
  | S754_nan, S754_nan => true
  | S754_finite s m e, S754_finite t n f =>
      Bool.eqb s t && Pos.eqb m n && Z.eqb e f
  | _, _ => false
  end.

Definition max (args : list number) : number :=
  match fold_left max_step args (Some neg_Infinity) with
  | Some h => h
  | None => NaN
  end.

End Float64.

(** ** Decimal text *)

Module Text.
Import Float64.

Definition digit_char (d : N) : ascii := ascii_of_N (48 + d).

Definition is_digit (c : ascii) : bool :=
  let n := N_of_ascii c in (48 <=? n)%N && (n <=? 57)%N.

Definition digit_val (c : ascii) : N := (N_of_ascii c - 48)%N.

(** The decimal digits of [n], most significant first, in front of [acc]. *)
Fixpoint digits_from (fuel : nat) (n : N) (acc : string) : string :=
  match fuel with
  | O => acc
  | S fuel' =>
      let acc' := String (digit_char (n mod 10)) acc in
      if (n / 10 =? 0)%N then acc' else digits_from fuel' (n / 10)%N acc'
  end.

Definition digits (n : N) : string :=
  digits_from (S (N.to_nat (N.log2 n))) n EmptyString.

(** The value of a run of digits, continuing from [acc]. *)
Fixpoint digits_value (s : string) (acc : N) : N :=
  match s with
  | EmptyString => acc
  | String c s' => digits_value s' (10 * acc + digit_val c)%N
  end.

Fixpoint all_digits (s : string) : bool :=
  match s with
  | EmptyString => true
  | String c s' => is_digit c && all_digits s'
  end.

Fixpoint zeros (n : nat) : string :=
  match n with O => EmptyString | S n' => String "0" (zeros n') end.

Fixpoint take (n : nat) (s : string) : string :=
  match n, s with
  | S n', String c s' => String c (take n' s')
  | _, _ => EmptyString
  end.

Fixpoint drop (n : nat) (s : string) : string :=
  match n, s with
  | S n', String _ s' => drop n' s'
  | _, _ => s
  end.

(** *** Number::toString

    For a positive finite Number [x = m * 2^e] the digits are those of the
    shortest decimal [s * 10^j] that reads back as [x]; among two of the
    same length the one closer to [x] is taken, then the even one. *)

(** [x] written out in full: [x = D * 10^q]. *)
Definition exact_decimal (m : positive) (e : Z) : N * Z :=
  if 0 <=? e then ((Npos m * 2 ^ Z.to_N e)%N, 0)
  else ((Npos m * 5 ^ Z.to_N (- e))%N, e).

Definition reads_back (m : positive) (e : Z) (c : N * Z) : bool :=
  same (of_decimal false (fst c) (snd c)) (S754_finite false m e).

(** [10 * 10^j] is written [1 * 10^(j+1)]. *)
Definition strip_ten (c : N * Z) : N * Z :=
  if (fst c mod 10 =? 0)%N then ((fst c / 10)%N, snd c + 1) else c.

(** Drops the last [more] digits of [D], then [more - 1] of them, and so
    on: the candidates have 1, 2, ... significant digits.  With none left
    to drop the full expansion is returned. *)
Fixpoint shortest (more : nat) (m : positive) (e : Z) (D : N) (q : Z)
    : N * Z :=
  match more with
  | O => (D, q)
  | S more' =>
      let p := (10 ^ N.of_nat more)%N in
      let r := (D mod p)%N in
      let lo := ((D / p)%N, q + Z.of_nat more) in
      let hi := strip_ten ((D / p + 1)%N, q + Z.of_nat more) in
      match reads_back m e lo, reads_back m e hi with
      | true, true =>
          if (2 * r <? p)%N then lo
          else if (p <? 2 * r)%N then hi
          else if N.even (fst lo) then lo else hi
      | true, false => lo
      | false, true => hi
      | false, false => shortest more' m e D q
      end
  end.

Definition shortest_decimal (m : positive) (e : Z) : N * Z :=
  let '(D, q) := exact_decimal m e in
  shortest (Nat.pred (String.length (digits D))) m e D q.

(** The layout of the digits [ds] of [s] for the value [0.ds * 10^n]. *)
Definition layout (ds : string) (n : Z) : string :=
  let k := Z.of_nat (String.length ds) in
  if (-6 <? n) && (n <=? 21) then
    if k <=? n then ds +:+ zeros (Z.to_nat (n - k))
    else if 0 <? n then take (Z.to_nat n) ds +:+ "." +:+ drop (Z.to_nat n) ds
    else "0." +:+ zeros (Z.to_nat (- n)) +:+ ds
  else
    let sign := if 0 <=? n - 1 then "+" else "-" in
    let ex := digits (Z.to_N (Z.abs (n - 1))) in
    if k =? 1 then ds +:+ "e" +:+ sign +:+ ex
    else take 1 ds +:+ "." +:+ drop 1 ds +:+ "e" +:+ sign +:+ ex.

Definition Number_toString (x : number) : string :=
  match x with
  | S754_nan => "NaN"
  | S754_zero _ => "0"
  | S754_infinity s => if s then "-Infinity" else "Infinity"
  | S754_finite s m e =>
      let '(d, j) := shortest_decimal m e in
      let ds := digits d in
      (if s then "-" else "") +:+ layout ds (j + Z.of_nat (String.length ds))
  end.

End Text.

(** ** JavaScript values *)

Module Js.
Import Float64 Text.

(** The values a caller can pass and [JSON.parse] can return.  A string is
    a sequence of code units below 256; an object is its own data
    properties in creation order; functions, symbols and accessors are not
    part of the model, nor are the objects that have methods of their own
    (a [Set], a [Map], a typed array). *)
Inductive value : Type :=
  | VUndefined
  | VNull
  | VBool (b : bool)
  | VNum (x : number)
  | VStr (s : string)
  | VArr (items : list value)
  | VObj (props : list (string * value)).

Inductive error : Type :=
  | TypeError
  | SyntaxError
  | DOMException.

(** The completion of an evaluation: a value, or an exception in flight. *)
Inductive outcome (A : Type) : Type :=
  | Ret (a : A)
  | Throw (e : error).
Arguments Ret {A} a.
Arguments Throw {A} e.

Definition obind {A B} (o : outcome A) (k : A -> outcome B) : outcome B :=
  match o with Ret a => k a | Throw e => Throw e end.

(** [typeof v === "object"] *)
Definition typeof_object (v : value) : bool :=
  match v with VNull | VArr _ | VObj _ => true | _ => false end.

Definition is_undefined (v : value) : bool :=
  match v with VUndefined => true | _ => false end.

Definition is_null (v : value) : bool :=
  match v with VNull => true | _ => false end.

Fixpoint lookup_prop (name : string) (props : list (string * value))
    : option value :=
  match props with
  | [] => None
  | (k, v) :: rest => if String.eqb k name then Some v else lookup_prop name rest
  end.

(** Defining an own property: an existing one keeps its place. *)
Fixpoint define_prop (name : string) (v : value)
    (props : list (string * value)) : list (string * value) :=
  match props with
  | [] => [(name, v)]
  | (k, w) :: rest =>
      if String.eqb k name then (k, v) :: rest
      else (k, w) :: define_prop name v rest
  end.

(** [v.name] for a name that no prototype defines ([min], [max], [key],
    [value]): reading a property of [undefined] or [null] throws. *)
Definition get_prop (v : value) (name : string) : outcome value :=
  match v with
  | VUndefined | VNull => Throw TypeError
  | VObj props =>
      match lookup_prop name props with
      | Some w => Ret w
      | None => Ret VUndefined
      end
  | _ => Ret VUndefined
  end.

(** *** Coercions *)

Fixpoint join (sep : string) (parts : list string) : string :=
  match parts with
  | [] => EmptyString
  | [p] => p
  | p :: rest => p +:+ sep +:+ join sep rest
  end.

Fixpoint sequence {A} (l : list (outcome A)) : outcome (list A) :=
  match l with
  | [] => Ret []
  | o :: rest =>
      obind o (fun a => obind (sequence rest) (fun r => Ret (a :: r)))
  end.

(** [ToString].  An array is joined with commas ([undefined] and [null]
    elements give the empty string); an object answers ["[object Object]"]
    unless an own property hides [toString], in which case no primitive can
    be obtained. *)
Fixpoint ToString (v : value) : outcome string :=
  match v with
  | VUndefined => Ret "undefined"
  | VNull => Ret "null"
  | VBool b => Ret (if b then "true" else "false")
  | VNum x => Ret (Number_toString x)
  | VStr s => Ret s
  | VArr items =>
      obind
        (sequence
           (map (fun w =>
                   match w with
                   | VUndefined | VNull => Ret EmptyString
                   | _ => ToString w
                   end) items))
        (fun parts => Ret (join "," parts))
  | VObj props =>
      match lookup_prop "toString" props with
      | Some _ => Throw TypeError
      | None => Ret "[object Object]"
      end
  end.

Definition ToPrimitive (v : value) : outcome value :=
  match v with
  | VArr _ | VObj _ => obind (ToString v) (fun s => Ret (VStr s))
  | _ => Ret v
  end.

Definition is_space (c : ascii) : bool :=
  let n := N_of_ascii c in
  ((9 <=? n) && (n <=? 13) || (n =? 32) || (n =? 160))%N.

Fixpoint span_digits (s : string) : string * string :=
  match s with
  | EmptyString => (EmptyString, EmptyString)
  | String c s' =>
      if is_digit c
      then let '(d, r) := span_digits s' in (String c d, r)
      else (EmptyString, s)
  end.

Fixpoint trim_left (s : string) : string :=
  match s with
  | String c s' => if is_space c then trim_left s' else s
  | EmptyString => EmptyString
  end.

Definition rev_string (s : string) : string :=
  string_of_list_ascii (rev (list_ascii_of_string s)).

Definition trim (s : string) : string :=
  rev_string (trim_left (rev_string (trim_left s))).

Definition radix_digit (radix : N) (c : ascii) : option N :=
  (let n := N_of_ascii c in
   let d :=
     if (48 <=? n) && (n <=? 57) then Some (n - 48)
     else if (97 <=? n) && (n <=? 102) then Some (n - 87)
     else if (65 <=? n) && (n <=? 70) then Some (n - 55)
     else None in
   match d with
   | Some k => if k <? radix then Some k else None
   | None => None
   end)%N.

Fixpoint radix_value (radix : N) (s : string) (acc : N) : option N :=
  match s with
  | EmptyString => Some acc
  | String c s' =>
      match radix_digit radix c with
      | Some d => radix_value radix s' (radix * acc + d)%N
      | None => None
      end
  end.

Definition exponent_part (s : string) : option (Z * string) :=
  match s with
  | String c r =>
      if Ascii.eqb c "e" || Ascii.eqb c "E" then
        let '(neg, r1) :=
          match r with
          | String "-" r1 => (true, r1)
          | String "+" r1 => (false, r1)
          | _ => (false, r)
          end in
        match span_digits r1 with
        | (EmptyString, _) => None
        | (d, r2) => Some (cond_Zopp neg (Z.of_N (digits_value d 0)), r2)
        end
      else Some (0, s)
  | EmptyString => Some (0, s)
  end.

(** The unsigned decimal literals of [StringToNumber]:
    [digits . digits? exp?], [. digits exp?] and [digits exp?]. *)
Definition unsigned_decimal (neg : bool) (s : string) : number :=
  let '(i, s1) := span_digits s in
  let '(f, s2) :=
    match s1 with
    | String "." r => span_digits r
    | _ => (EmptyString, s1)
    end in
  match i, f with
  | EmptyString, EmptyString => NaN
  | _, _ =>
      match exponent_part s2 with
      | Some (x, EmptyString) =>
          of_decimal neg (digits_value (i +:+ f) 0)
            (x - Z.of_nat (String.length f))
      | _ => NaN
      end
  end.

Definition radix_literal (radix : N) (s : string) : number :=
  match s with
  | EmptyString => NaN
  | _ =>
      match radix_value radix s 0 with
      | Some n => of_Z (Z.of_N n)
      | None => NaN
      end
  end.

(** [StringToNumber] *)
Definition StringToNumber (s : string) : number :=
  match trim s with
  | EmptyString => pos_zero
  | "Infinity" | "+Infinity" => Infinity
  | "-Infinity" => neg_Infinity
  | String "0" (String "x" r) | String "0" (String "X" r) => radix_literal 16 r
  | String "0" (String "o" r) | String "0" (String "O" r) => radix_literal 8 r
  | String "0" (String "b" r) | String "0" (String "B" r) => radix_literal 2 r
  | String "-" r => unsigned_decimal true r
  | String "+" r => unsigned_decimal false r
  | t => unsigned_decimal false t
  end%string.

(** [ToNumber] of a primitive. *)
Definition prim_to_number (v : value) : number :=
  match v with
  | VUndefined => NaN
  | VNull => pos_zero
  | VBool b => if b then of_Z 1 else pos_zero
  | VNum x => x
  | VStr s => StringToNumber s
  | VArr _ | VObj _ => NaN
  end.

Definition ToNumber (v : value) : outcome number :=
  obind (ToPrimitive v) (fun p => Ret (prim_to_number p)).

(** *** Operators *)

Definition js_add (a b : value) : outcome value :=
  obind (ToPrimitive a) (fun pa =>
  obind (ToPrimitive b) (fun pb =>
    match pa, pb with
    | VStr _, _ | _, VStr _ =>
        obind (ToString pa) (fun sa =>
        obind (ToString pb) (fun sb => Ret (VStr (sa +:+ sb))))
    | _, _ => Ret (VNum (fadd (prim_to_number pa) (prim_to_number pb)))
    end)).

Definition arith (op : number -> number -> number) (a b : value)
    : outcome value :=
  obind (ToNumber a) (fun x =>
  obind (ToNumber b) (fun y => Ret (VNum (op x y)))).

Definition js_sub : value -> value -> outcome value := arith fsub.
Definition js_mul : value -> value -> outcome value := arith fmul.
Definition js_div : value -> value -> outcome value := arith fdiv.

Definition Math_floor (v : value) : outcome value :=
  obind (ToNumber v) (fun x => Ret (VNum (floor x))).

Definition Math_max (args : list value) : outcome value :=
  obind (sequence (map ToNumber args)) (fun xs => Ret (VNum (max xs))).

(** *** JSON *)

Definition quote_mark : ascii := "034"%char.
Definition backslash : ascii := "092"%char.

Definition hex_char (d : N) : ascii :=
  (if d <? 10 then ascii_of_N (48 + d) else ascii_of_N (87 + d))%N.

(** The escape of one code unit in [QuoteJSONString]. *)
Definition quote_char (c : ascii) : string :=
  let n := N_of_ascii c in
  (if n =? 8 then String backslash "b"
   else if n =? 9 then String backslash "t"
   else if n =? 10 then String backslash "n"
   else if n =? 12 then String backslash "f"
   else if n =? 13 then String backslash "r"
   else if n =? 34 then String backslash (String quote_mark "")
   else if n =? 92 then String backslash (String backslash "")
   else if n <? 32 then
     String backslash
       (String "u" (String "0" (String "0"
          (String (hex_char (n / 16)) (String (hex_char (n mod 16)) "")))))
   else String c "")%N.

Fixpoint quote_chars (s : string) : string :=
  match s with
  | EmptyString => EmptyString
  | String c s' => quote_char c +:+ quote_chars s'
  end.

Definition QuoteJSONString (s : string) : string :=
  String quote_mark (quote_chars s +:+ String quote_mark "").

(** An array index among property names: ["0"], ["1"], ... below [2^32 - 1]. *)
Definition array_index (k : string) : option N :=
  match k with
  | EmptyString => None
  | String c r =>
      if forallb is_digit (list_ascii_of_string k)
         && (negb (Ascii.eqb c "0") || String.eqb r "")
         && (digits_value k 0 <? 4294967295)%N
      then Some (digits_value k 0)
      else None
  end.

Fixpoint insert_index {A} (i : N) (kv : string * A)
    (l : list (N * (string * A))) : list (N * (string * A)) :=
  match l with
  | [] => [(i, kv)]
  | (j, kw) :: rest =>
      if (i <? j)%N then (i, kv) :: l else (j, kw) :: insert_index i kv rest
  end.

(** The order in which own properties are enumerated: array indices in
    ascending order, then the other names in creation order. *)
Definition enumerate {A} (props : list (string * A)) : list (string * A) :=
  let indexed :=
    fold_left
      (fun acc kv =>
         match array_index (fst kv) with
         | Some i => insert_index i kv acc
         | None => acc
         end) props [] in
  map snd indexed
    ++ List.filter (fun kv => match array_index (fst kv) with
                         | Some _ => false
                         | None => true
                         end) props.

(** [SerializeJSONProperty]: [None] stands for [undefined]. *)
Fixpoint serialize (v : value) : option string :=
  match v with
  | VUndefined => None
  | VNull => Some "null"
  | VBool b => Some (if b then "true" else "false")
  | VNum x => Some (if is_finite x then Number_toString x else "null")
  | VStr s => Some (QuoteJSONString s)
  | VArr items =>
      Some ("[" +:+
            join ","
              (map (fun w => match serialize w with
                             | Some t => t
                             | None => "null"
                             end) items) +:+ "]")
  | VObj props =>
      let members := map (fun kw => (fst kw, serialize (snd kw))) props in
      Some ("{" +:+
            join ","
              (flat_map (fun kt => match snd kt with
                                   | Some t => [QuoteJSONString (fst kt) +:+ ":" +:+ t]
                                   | None => []
                                   end) (enumerate members)) +:+ "}")
  end%string.

(** [JSON.stringify(value)] *)
Definition JSON_stringify (v : value) : value :=
  match serialize v with
  | Some t => VStr t
  | None => VUndefined
  end.

Definition is_json_space (c : ascii) : bool :=
  let n := N_of_ascii c in ((n =? 9) || (n =? 10) || (n =? 13) || (n =? 32))%N.

Fixpoint skip_ws (s : string) : string :=
  match s with
  | String c s' => if is_json_space c then skip_ws s' else s
  | EmptyString => EmptyString
  end.

Definition hex4 (a b c d : ascii) : option N :=
  match radix_digit 16 a, radix_digit 16 b, radix_digit 16 c, radix_digit 16 d with
  | Some w, Some x, Some y, Some z => Some (((w * 16 + x) * 16 + y) * 16 + z)%N
  | _, _, _, _ => None
  end.

(** The characters of a string literal after its opening quote, up to the
    closing one.  An escape that names a code unit above 255 has no
    counterpart among the strings of this model and is refused, where
    [JSON.parse] returns the string; no text that [JSON_stringify] writes
    holds such an escape. *)
Fixpoint parse_chars (s : string) : option (string * string) :=
  match s with
  | EmptyString => None
  | String c r =>
      if Ascii.eqb c quote_mark then Some (EmptyString, r)
      else if Ascii.eqb c backslash then
        match r with
        | String e r1 =>
            let simple (d : ascii) :=
              match parse_chars r1 with
              | Some (t, r2) => Some (String d t, r2)
              | None => None
              end in
            if Ascii.eqb e quote_mark then simple quote_mark
            else if Ascii.eqb e backslash then simple backslash
            else if Ascii.eqb e "/" then simple "/"%char
            else if Ascii.eqb e "b" then simple "008"%char
            else if Ascii.eqb e "f" then simple "012"%char
            else if Ascii.eqb e "n" then simple "010"%char
            else if Ascii.eqb e "r" then simple "013"%char
            else if Ascii.eqb e "t" then simple "009"%char
            else if Ascii.eqb e "u" then
              match r1 with
              | String h1 (String h2 (String h3 (String h4 r2))) =>
                  match hex4 h1 h2 h3 h4 with
                  | Some n =>
                      if (n <? 256)%N then
                        match parse_chars r2 with
                        | Some (t, r3) => Some (String (ascii_of_N n) t, r3)
                        | None => None
                        end
                      else None
                  | None => None
                  end
              | _ => None
              end
            else None
        | EmptyString => None
        end
      else if (N_of_ascii c <? 32)%N then None
      else
        match parse_chars r with
        | Some (t, r1) => Some (String c t, r1)
        | None => None
        end
  end.

(** A JSON number: an optional minus sign, an integer part that is [0] or
    starts with a digit other than [0], an optional fraction and an optional
    exponent. *)
Definition parse_int (s : string) : option (string * string) :=
  match s with
  | String c r =>
      if Ascii.eqb c "0" then Some ("0"%string, r)
      else if is_digit c then Some (span_digits s)
      else None
  | EmptyString => None
  end.

Definition parse_frac (s : string) : option (string * string) :=
  match s with
  | String "." r =>
      match span_digits r with
      | (EmptyString, _) => None
      | (d, r1) => Some (d, r1)
      end
  | _ => Some (EmptyString, s)
  end.

Definition parse_unsigned (neg : bool) (s : string) : option (number * string) :=
  match parse_int s with
  | None => None
  | Some (i, s2) =>
      match parse_frac s2 with
      | None => None
      | Some (f, s3) =>
          match exponent_part s3 with
          | None => None
          | Some (x, s4) =>
              Some (of_decimal neg (digits_value (i +:+ f) 0)
                      (x - Z.of_nat (String.length f)), s4)
          end
      end
  end.

Definition parse_number (s : string) : option (number * string) :=
  match s with
  | String c r =>
      if Ascii.eqb c "-" then parse_unsigned true r else parse_unsigned false s
  | EmptyString => None
  end.

Definition parse_word (word : string) (v : value) (s : string)
    : option (value * string) :=
  if String.prefix word s
  then Some (v, drop (String.length word) s)
  else None.

Fixpoint parse_value (fuel : nat) (s : string) : option (value * string) :=
  match fuel with
  | O => None
  | S fuel' =>
      match skip_ws s with
      | EmptyString => None
      | String c r =>
          if Ascii.eqb c "{" then
            match skip_ws r with
            | String "}" r1 => Some (VObj [], r1)
            | r1 => parse_members fuel' r1 []
            end
          else if Ascii.eqb c "[" then
            match skip_ws r with
            | String "]" r1 => Some (VArr [], r1)
            | r1 => parse_elements fuel' r1 []
            end
          else if Ascii.eqb c quote_mark then
            match parse_chars r with
            | Some (t, r1) => Some (VStr t, r1)
            | None => None
            end
          else if Ascii.eqb c "t" then parse_word "true" (VBool true) (String c r)
          else if Ascii.eqb c "f" then parse_word "false" (VBool false) (String c r)
          else if Ascii.eqb c "n" then parse_word "null" VNull (String c r)
          else
            match parse_number (String c r) with
            | Some (x, r1) => Some (VNum x, r1)
            | None => None
            end
      end
  end

with parse_elements (fuel : nat) (s : string) (acc : list value)
    : option (value * string) :=
  match fuel with
  | O => None
  | S fuel' =>
      match parse_value fuel' s with
      | None => None
      | Some (v, r) =>
          match skip_ws r with
          | String "," r1 => parse_elements fuel' r1 (v :: acc)
          | String "]" r1 => Some (VArr (rev (v :: acc)), r1)
          | _ => None
          end
      end
  end

with parse_members (fuel : nat) (s : string) (acc : list (string * value))
    : option (value * string) :=
  match fuel with
  | O => None
  | S fuel' =>
      match skip_ws s with
      | String c r =>
          if Ascii.eqb c quote_mark then
            match parse_chars r with
            | None => None
            | Some (k, r1) =>
                match skip_ws r1 with
                | String ":" r2 =>
                    match parse_value fuel' r2 with
                    | None => None
                    | Some (v, r3) =>
                        let acc' := define_prop k v acc in
                        match skip_ws r3 with
                        | String "," r4 => parse_members fuel' r4 acc'
                        | String "}" r4 => Some (VObj acc', r4)
                        | _ => None
                        end
                    end
                | _ => None
                end
            end
          else None
      | EmptyString => None
      end
  end.

(** [JSON.parse(text)]: the argument is converted to a string first. *)
Definition JSON_parse (arg : value) : outcome value :=
  obind (ToString arg) (fun text =>
    match parse_value (S (String.length text)) text with
    | Some (v, rest) =>
        match skip_ws rest with
        | EmptyString => Ret v
        | _ => Throw SyntaxError
        end
    | None => Throw SyntaxError
    end).

End Js.

(** ** The host: localStorage, Math.random and the console *)

Module Host.
Import Float64 Text Js.

(** The world a method runs in.  [storage] is the content of
    [localStorage].  Each call of a storage method consumes one flag of
    [faults]: on [true] the call throws (quota exceeded, access denied), and
    when the flags are used up every call succeeds.  [Math.random()] returns
    [entropy draws] and advances [draws].  [console] holds what was passed to
    [console.error], most recent first. *)
Record world : Type := World {
  storage : gmap string string;
  faults : list bool;
  entropy : nat -> number;
  draws : nat;
  console : list (string * error)
}.

(** A computation: a completion and the world it leaves. *)
Definition M (A : Type) : Type := world -> outcome A * world.

Definition ret {A} (a : A) : M A := fun w => (Ret a, w).

Definition throw {A} (e : error) : M A := fun w => (Throw e, w).

Definition bind {A B} (m : M A) (k : A -> M B) : M B :=
  fun w =>
    match m w with
    | (Ret a, w') => k a w'
    | (Throw e, w') => (Throw e, w')
    end.

Definition lift {A} (o : outcome A) : M A := fun w => (o, w).

(** [try { body } catch (error) { handler }] *)
Definition try_catch {A} (body : M A) (handler : error -> M A) : M A :=
  fun w =>
    match body w with
    | (Ret a, w') => (Ret a, w')
    | (Throw e, w') => handler e w'
    end.

Declare Scope js_scope.
Delimit Scope js_scope with js.
Notation "x <- m ;; k" := (bind m (fun x => k))
  (at level 100, m at next level, right associativity) : js_scope.
Notation "m ;; k" := (bind m (fun _ => k))
  (at level 100, right associativity) : js_scope.
Local Open Scope js_scope.

Definition with_storage (s : gmap string string) (w : world) : world :=
  World s (faults w) (entropy w) (draws w) (console w).

(** One call of a method of [localStorage]. *)
Definition storage_call : M unit :=
  fun w =>
    match faults w with
    | [] => (Ret tt, w)
    | flag :: rest =>
        let w' := World (storage w) rest (entropy w) (draws w) (console w) in
        if flag then (Throw DOMException, w') else (Ret tt, w')
    end.

(** [localStorage.getItem(key)]: the stored text, or [null]. *)
Definition localStorage_getItem (key : value) : M value :=
  k <- lift (ToString key) ;;
  storage_call ;;
  fun w =>
    (Ret (match storage w !! k with
          | Some text => VStr text
          | None => VNull
          end), w).

(** [localStorage.setItem(key, value)] *)
Definition localStorage_setItem (key v : value) : M unit :=
  k <- lift (ToString key) ;;
  text <- lift (ToString v) ;;
  storage_call ;;
  fun w => (Ret tt, with_storage (<[k := text]> (storage w)) w).

(** [localStorage.removeItem(key)] *)
Definition localStorage_removeItem (key : value) : M unit :=
  k <- lift (ToString key) ;;
  storage_call ;;
  fun w => (Ret tt, with_storage (delete k (storage w)) w).

(** [localStorage.clear()] *)
Definition localStorage_clear : M unit :=
  storage_call ;;
  fun w => (Ret tt, with_storage ∅ w).

(** [Math.random()] *)
Definition Math_random : M value :=
  fun w =>
    (Ret (VNum (entropy w (draws w))),
     World (storage w) (faults w) (entropy w) (S (draws w)) (console w)).

(** [console.error(message, error)] *)
Definition console_error (message : string) (e : error) : M unit :=
  fun w =>
    (Ret tt,
     World (storage w) (faults w) (entropy w) (draws w)
       ((message, e) :: console w)).

(** A template literal with one substitution: [`before${v}after`]. *)
Definition template (before : string) (v : value) (after : string) : M string :=
  s <- lift (ToString v) ;;
  ret (before +:+ s +:+ after).

Fixpoint for_each {A} (callback : A -> M unit) (l : list A) : M unit :=
  match l with
  | [] => ret tt
  | x :: rest => callback x ;; for_each callback rest
  end.

(** [items.forEach(callback)]: among the values of the model only an array
    has the method. *)
Definition forEach (items : value) (callback : value -> M unit) : M unit :=
  match items with
  | VArr l => for_each callback l
  | _ => throw TypeError
  end.

Fixpoint fold_each {A B} (callback : B -> A -> M B) (l : list A) (acc : B)
    : M B :=
  match l with
  | [] => ret acc
  | x :: rest => acc' <- callback acc x ;; fold_each callback rest acc'
  end.

(** [keys.reduce(callback, initial)]: among the values of the model only an
    array has the method. *)
Definition reduce {B} (keys : value) (callback : B -> value -> M B)
    (initial : B) : M B :=
  match keys with
  | VArr l => fold_each callback l initial
  | _ => throw TypeError
  end.

(** [result[key] = v] on a plain object: assigning to [__proto__] creates no
    own property.  The prototype that an object or [null] then becomes in
    the code is not part of the model, which keeps the own properties. *)
Definition assign_prop (result : list (string * value)) (key v : value)
    : M (list (string * value)) :=
  k <- lift (ToString key) ;;
  ret (if String.eqb k "__proto__" then result else define_prop k v result).

End Host.

(** ** The methods of [eco] *)

Module Eco.
Import Float64 Text Js Host.
Local Open Scope js_scope.

(** [randomize(min, max)]:
    [Math.floor(Math.random() * (max - min + 1)) + min] *)
Definition randomize (min max : value) : M value :=
  r <- Math_random ;;
  span <- lift (js_sub max min) ;;
  count <- lift (js_add span (VNum (of_Z 1))) ;;
  scaled <- lift (js_mul r count) ;;
  whole <- lift (Math_floor scaled) ;;
  lift (js_add whole min).

(** The statement every method starts with:
    [if (typeof v === "object" && v.min !== undefined && v.max !== undefined)
       v = this.randomize(v.min, v.max);] *)
Definition range_operand (v : value) : M value :=
  if typeof_object v then
    lo <- lift (get_prop v "min") ;;
    if negb (is_undefined lo) then
      hi <- lift (get_prop v "max") ;;
      if negb (is_undefined hi) then
        a <- lift (get_prop v "min") ;;
        b <- lift (get_prop v "max") ;;
        randomize a b
      else ret v
    else ret v
  else ret v.

Definition zero : value := VNum pos_zero.

Definition get (key : value) : M value :=
  try_catch
    (text <- localStorage_getItem key ;;
     data <- lift (JSON_parse text) ;;
     if is_null data then ret zero else ret data)
    (fun error =>
       msg <- template "Error getting key '" key "':" ;;
       console_error msg error ;;
       ret zero).

Definition set (key v : value) : M unit :=
  try_catch
    (v' <- range_operand v ;;
     localStorage_setItem key (JSON_stringify v'))
    (fun error =>
       msg <- template "Error setting key '" key "':" ;;
       console_error msg error).

Definition add (key amount : value) : M unit :=
  try_catch
    (amount' <- range_operand amount ;;
     current <- get key ;;
     total <- lift (js_add current amount') ;;
     set key total)
    (fun error =>
       msg <- template "Error adding to key '" key "':" ;;
       console_error msg error).

Definition sub (key amount : value) : M unit :=
  try_catch
    (amount' <- range_operand amount ;;
     current <- get key ;;
     rest <- lift (js_sub current amount') ;;
     clamped <- lift (Math_max [zero; rest]) ;;
     set key clamped)
    (fun error =>
       msg <- template "Error subtracting from key '" key "':" ;;
       console_error msg error).

Definition del (key : value) : M unit :=
  try_catch
    (localStorage_removeItem key)
    (fun error =>
       msg <- template "Error deleting key '" key "':" ;;
       console_error msg error).

Definition res : M unit :=
  try_catch
    localStorage_clear
    (fun error => console_error "Error resetting localStorage:" error).

Definition mul (key amount : value) : M unit :=
  try_catch
    (amount' <- range_operand amount ;;
     current <- get key ;;
     product <- lift (js_mul current amount') ;;
     set key product)
    (fun error =>
       msg <- template "Error multiplying key '" key "':" ;;
       console_error msg error).

Definition div (key amount : value) : M unit :=
  try_catch
    (amount' <- range_operand amount ;;
     current <- get key ;;
     quotient <- lift (js_div current amount') ;;
     clamped <- lift (Math_max [zero; quotient]) ;;
     set key clamped)
    (fun error =>
       msg <- template "Error dividing key '" key "':" ;;
       console_error msg error).

(** The callback of the batch methods: [({ key, value }) => { ...; op(key,
    value) }].  Destructuring [undefined] or [null] throws. *)
Definition batch_item (op : value -> value -> M unit) (item : value) : M unit :=
  key <- lift (get_prop item "key") ;;
  v <- lift (get_prop item "value") ;;
  v' <- range_operand v ;;
  op key v'.

Definition batchSet (items : value) : M unit :=
  try_catch
    (forEach items (batch_item set))
    (fun error => console_error "Error batch setting:" error).

Definition batchAdd (items : value) : M unit :=
  try_catch
    (forEach items (batch_item add))
    (fun error => console_error "Error batch adding:" error).

Definition batchSub (items : value) : M unit :=
  try_catch
    (forEach items (batch_item sub))
    (fun error => console_error "Error batch subtracting:" error).

Definition batchMul (items : value) : M unit :=
  try_catch
    (forEach items (batch_item mul))
    (fun error => console_error "Error batch multiplying:" error).

Definition batchDiv (items : value) : M unit :=
  try_catch
    (forEach items (batch_item div))
    (fun error => console_error "Error batch dividing:" error).

Definition batchDel (keys : value) : M unit :=
  try_catch
    (forEach keys del)
    (fun error => console_error "Error batch deleting:" error).

Definition batchGet (keys : value) : M value :=
  try_catch
    (result <- reduce keys
                 (fun result key =>
                    v <- get key ;;
                    assign_prop result key v)
                 [] ;;
     ret (VObj result))
    (fun error =>
       console_error "Error batch getting:" error ;;
       ret (VObj [])).

End Eco.

(** * Vocabulary of the properties *)

Import Float64 Text Js Host Eco.
Local Open Scope js_scope.

(** ** Completions and frames *)

(** [m] returns normally from every world. *)
Definition returns {A} (m : M A) : Prop :=
  forall w, exists a w', m w = (Ret a, w').

(** [m] leaves the component [f] of the world as it found it. *)
Definition keeps {A X} (f : world -> X) (m : M A) : Prop :=
  forall w, f (snd (m w)) = f w.

(** [m] leaves the content of the store as it found it. *)
Abbreviation stable := (keeps storage).

(** [m] leaves every entry other than [k] as it found it. *)
Definition touches {A} (k : string) (m : M A) : Prop :=
  forall w k', k' <> k -> storage (snd (m w)) !! k' = storage w !! k'.

(** ** Batch items *)

(** The operands a batch item carries: a number, or a range of numbers. *)
Inductive amount : Type :=
  | Fixed (x : number)
  | Range (lo hi : number).

Definition operand (a : amount) : value :=
  match a with
  | Fixed x => VNum x
  | Range lo hi => VObj [("min"%string, VNum lo); ("max"%string, VNum hi)]
  end.

(** The item [{ key: k, value: a }]. *)
Definition item (ka : string * amount) : value :=
  VObj [("key"%string, VStr (fst ka)); ("value"%string, operand (snd ka))].

(** ** Numbers as text *)

(** The text [set] writes for a number. *)
Definition number_text (x : number) : string :=
  if is_finite x then Number_toString x else "null".

(** What a finite Number reads back as: itself, [-0] as [+0]. *)
Definition read_back (x : number) : number :=
  match x with
  | S754_zero _ => pos_zero
  | _ => x
  end.

(** A run of digits is read up to the first character that is not one. *)
Definition stops (rest : string) : Prop :=
  match rest with
  | EmptyString => True
  | String c _ => is_digit c = false
  end.

(** The digits of [n]: they read back as [n], start with no [0] unless
    [n] is [0], and are as many as the size of [n] asks for. *)
Record decimal_of (n : N) (ds : string) : Prop := {
  decimal_digits : all_digits ds = true;
  decimal_value : digits_value ds 0 = n;
  decimal_head :
    match ds with
    | EmptyString => False
    | String c _ => c = "0"%char -> n = 0%N
    end;
  decimal_size : (0 < n -> 10 ^ N.of_nat (Nat.pred (String.length ds)) <= n)%N
}.

(** Two readings of one decimal differ at most in how the exponent is
    written. *)
Ltac same_exponent :=
  match goal with
  | |- Some (of_decimal _ _ ?a, _) = Some (of_decimal _ _ ?b, _) =>
      replace a with b by lia; reflexivity
  end.

(** ** Worlds and scenarios *)

(** A store with two entries that accepts every call. *)
Definition two_entries : world :=
  World (<["gold" := "10"]> (<["theme" := "dark"]> ∅)) []
    (fun _ => pos_zero) 0 [].

Definition gold : value := VStr "gold".

(** [[{ key: "gold", value: 5 }, { key: "gold", value: 5 }]] *)
Definition five_twice : list (string * amount) :=
  [("gold"%string, Fixed (of_Z 5)); ("gold"%string, Fixed (of_Z 5))].

(** The same store when it refuses the next call. *)
Definition refusing : world :=
  World (storage two_entries) [true] (fun _ => pos_zero) 0 [].

(** An empty store, and a random source that always draws [0.5]. *)
Definition half_world : world :=
  World ∅ [] (fun _ => of_decimal false 5 (-1)) 0 [].

(** ** Further worlds, items and counts *)

(** A store whose one entry holds the string [10], not the number. *)
Definition quoted_ten : world :=
  World (<["gold" := QuoteJSONString "10"]> ∅) [] (fun _ => pos_zero) 0 [].

(** The largest finite Number. *)
Definition max_value : number := S754_finite false 9007199254740991 971.

(** A batch item whose value is a number. *)
Definition fixed_item (kx : string * number) : string * amount :=
  (fst kx, Fixed (snd kx)).

(** What [set] of a number does to the content of the store. *)
Definition write_number (s : gmap string string) (kx : string * number)
    : gmap string string :=
  <[fst kx := number_text (snd kx)]> s.

(** A key that is an object with a property [toString] of its own that
    cannot be called. *)
Definition mute_key : value := VObj [("toString"%string, VNum pos_zero)].

(** The draws an operand asks for. *)
Definition draws_of (a : amount) : nat :=
  match a with
  | Fixed _ => 0
  | Range _ _ => 1
  end.

(** The ranges among the items of a batch. *)
Fixpoint ranges (items : list (string * amount)) : nat :=
  match items with
  | [] => 0
  | ka :: rest => draws_of (snd ka) + ranges rest
  end.

(** The store accepts every call, and the entry of [k] is the text of the
    whole number [z]. *)
Definition holds (k : string) (z : Z) (w : world) : Prop :=
  faults w = [] /\ storage w !! k = Some (number_text (of_Z z)).

(** The world after one draw. *)
Definition after_draw (w : world) : world :=
  World (storage w) (faults w) (entropy w) (S (draws w)) (console w).

(** ** JSON values, resolved operands and reports *)

(** What may follow a value inside a JSON text. *)
Definition closes (rest : string) : Prop :=
  match rest with
  | EmptyString => True
  | String c _ => c = ","%char \/ c = "]"%char \/ c = "}"%char
  end.

(** The text [JSON.stringify] writes for a value inside an array. *)
Definition json_text (v : value) : string :=
  match serialize v with
  | Some t => t
  | None => "null"
  end.

(** What a value reads back as: itself, with [-0] as [+0] throughout. *)
Fixpoint settle (v : value) : value :=
  match v with
  | VNum x => VNum (read_back x)
  | VArr items => VArr (map settle items)
  | VObj props => VObj (map (fun kv => (fst kv, settle (snd kv))) props)
  | _ => v
  end.

(** The values JSON carries: [null], booleans, finite numbers, strings, and
    arrays and objects of such values.  The properties of an object have
    distinct names and are listed in the order of their enumeration. *)
Inductive carried : value -> Prop :=
  | carried_null : carried VNull
  | carried_bool b : carried (VBool b)
  | carried_num x : valid x = true -> is_finite x = true -> carried (VNum x)
  | carried_str s : carried (VStr s)
  | carried_arr items : Forall carried items -> carried (VArr items)
  | carried_obj props :
      NoDup (map fst props) -> enumerate props = props ->
      Forall (fun kv => carried (snd kv)) props -> carried (VObj props).

(** [v.name !== undefined] *)
Definition defined_prop (v : value) (name : string) : bool :=
  match get_prop v name with
  | Ret w => negb (is_undefined w)
  | Throw _ => false
  end.

(** The test of [set] for a range:
    [typeof v === "object" && v.min !== undefined && v.max !== undefined],
    for a value other than [null]. *)
Definition has_bounds (v : value) : bool :=
  typeof_object v && defined_prop v "min" && defined_prop v "max".

(** A text starts with a character that opens a value. *)
Definition opens (t : string) : Prop :=
  match t with
  | EmptyString => False
  | String c _ =>
      is_json_space c = false /\ Ascii.eqb c "]" = false /\
      Ascii.eqb c "}" = false
  end.

(** The text of one property. *)
Definition member_text (kv : string * value) : string :=
  QuoteJSONString (fst kv) +:+ ":" +:+ json_text (snd kv).

(** A value whose text reads back, whatever closes it. *)
Definition reads_closed (v : value) : Prop :=
  forall fuel rest,
    (String.length (json_text v) <= fuel)%nat -> closes rest ->
    parse_value fuel (json_text v +:+ rest) = Some (settle v, rest).

(** The number an operand stands for in the world [w]: itself, or for a
    range [floor(r * (max - min + 1)) + min], [r] being the next draw of the
    random source. *)
Definition resolved (a : amount) (w : world) : number :=
  match a with
  | Fixed x => x
  | Range lo hi =>
      fadd (floor (fmul (entropy w (draws w)) (fadd (fsub hi lo) (of_Z 1)))) lo
  end.

(** The world once the operand is resolved: a range has cost one draw. *)
Definition drawn (a : amount) (w : world) : world :=
  match a with
  | Fixed _ => w
  | Range _ _ => after_draw w
  end.

(** One scalar call whose operand is resolved when the call is made. *)
Definition resolving (op : value -> value -> M unit) (ka : string * amount)
    : M unit :=
  fun w => op (VStr (fst ka)) (VNum (resolved (snd ka) w)) (drawn (snd ka) w).

(** A random source that draws [0] first and [0.5] from then on. *)
Definition two_draws : world :=
  World ∅ []
    (fun n => match n with O => pos_zero | S _ => of_decimal false 5 (-1) end)
    0 [].

(** [[{ key: "gold", value: { min: 1, max: 6 } },
      { key: "gold", value: { min: 1, max: 6 } }]] *)
Definition six_twice : list (string * amount) :=
  [("gold"%string, Range (of_Z 1) (of_Z 6));
   ("gold"%string, Range (of_Z 1) (of_Z 6))].

(** [[{ key: "a", value: 3 }, { key: "b", value: { min: 1, max: 1 } }]] *)
Definition three_and_one : list (string * amount) :=
  [("a"%string, Fixed (of_Z 3)); ("b"%string, Range (of_Z 1) (of_Z 1))].

(** The world after a failure was reported: the store call is used up, and
    the console has one more entry. *)
Definition reported (message : string) (e : error) (w : world) : world :=
  World (storage w) (tl (faults w)) (entropy w) (draws w)
    ((message, e) :: console w).

(** A value that is no array: [undefined], [null], a boolean, a number, a
    string or an object of data properties.  None of them has a method
    [forEach] or [reduce], its own or inherited. *)
Definition no_array (v : value) : Prop :=
  match v with
  | VArr _ => False
  | _ => True
  end.

(** The store of [two_entries] when it accepts the next call and refuses
    the one after. *)
Definition accepts_read_only : world :=
  World (storage two_entries) [false; true] (fun _ => pos_zero) 0 [].

(** The store refuses its next [n] calls. *)
Definition refuses (n : nat) (w : world) : Prop :=
  firstn n (faults w) = repeat true n.

(** What a batch leaves of a world when every call it makes to the store
    is refused: the store as it was, and [n] more entries on the console. *)
Definition refused_batch (n : nat) (m : M unit) (w : world) : Prop :=
  fst (m w) = Ret tt /\ storage (snd (m w)) = storage w /\
  length (console (snd (m w))) = (n + length (console w))%nat.

(** * Completions and frames *)

Create HintDb eco.

Lemma returns_ret {A} (a : A) : returns (ret a).
Proof. intros w. exists a, w. reflexivity. Qed.

Lemma returns_bind {A B} (m : M A) (k : A -> M B) :
  returns m -> (forall a, returns (k a)) -> returns (bind m k).
Proof.
  intros Hm Hk w. destruct (Hm w) as (a & w1 & E).
  unfold bind. rewrite E. apply Hk.
Qed.

Lemma returns_try_catch {A} (body : M A) (handler : error -> M A) :
  (forall e, returns (handler e)) -> returns (try_catch body handler).
Proof.
  intros Hh w. unfold try_catch.
  destruct (body w) as [[a | e] w1]; [exists a, w1; reflexivity | apply Hh].
Qed.

Lemma returns_console_error msg e : returns (console_error msg e).
Proof. intros w. eexists _, _. reflexivity. Qed.

Lemma returns_template before (k : string) after :
  returns (template before (VStr k) after).
Proof. intros w. eexists _, _. reflexivity. Qed.

#[local] Hint Resolve returns_ret returns_bind returns_try_catch
  returns_console_error returns_template : eco.

Section Keeps.
Context {X : Type} (f : world -> X).

Lemma keeps_ret {A} (a : A) : keeps f (ret a).
Proof. intros w. reflexivity. Qed.

Lemma keeps_throw {A} e : keeps f (@throw A e).
Proof. intros w. reflexivity. Qed.

Lemma keeps_lift {A} (o : outcome A) : keeps f (lift o).
Proof. intros w. reflexivity. Qed.

Lemma keeps_bind {A B} (m : M A) (k : A -> M B) :
  keeps f m -> (forall a, keeps f (k a)) -> keeps f (bind m k).
Proof.
  intros Hm Hk w. specialize (Hm w). unfold bind.
  destruct (m w) as [[a | e] w1]; simpl in *; [rewrite Hk |]; exact Hm.
Qed.

Lemma keeps_try_catch {A} (body : M A) (handler : error -> M A) :
  keeps f body -> (forall e, keeps f (handler e)) ->
  keeps f (try_catch body handler).
Proof.
  intros Hb Hh w. specialize (Hb w). unfold try_catch.
  destruct (body w) as [[a | e] w1]; simpl in *; [| rewrite Hh]; exact Hb.
Qed.
End Keeps.

Lemma stable_storage_call : stable storage_call.
Proof.
  intros w. unfold storage_call.
  destruct (faults w) as [| [] rest]; reflexivity.
Qed.

Lemma stable_Math_random : stable Math_random.
Proof. intros w. reflexivity. Qed.

Lemma stable_console_error msg e : stable (console_error msg e).
Proof. intros w. reflexivity. Qed.

Lemma calm_Math_random : keeps faults Math_random.
Proof. intros w. reflexivity. Qed.

Lemma calm_console_error msg e : keeps faults (console_error msg e).
Proof. intros w. reflexivity. Qed.

#[local] Hint Resolve keeps_ret keeps_throw keeps_lift keeps_bind
  keeps_try_catch stable_storage_call stable_Math_random
  stable_console_error calm_Math_random calm_console_error : eco.

Lemma keeps_template {X} (f : world -> X) before v after :
  keeps f (template before v after).
Proof. unfold template. auto with eco. Qed.

Lemma stable_getItem key : stable (localStorage_getItem key).
Proof.
  unfold localStorage_getItem. repeat (apply keeps_bind; [auto with eco | intros]).
  intros w. reflexivity.
Qed.

#[local] Hint Resolve keeps_template stable_getItem : eco.

(** [randomize] and the range test change nothing but the number of draws. *)
Lemma keeps_randomize {X} (f : world -> X) lo hi :
  keeps f Math_random -> keeps f (randomize lo hi).
Proof. intros H. unfold randomize. auto 10 with eco. Qed.

Lemma keeps_range_operand {X} (f : world -> X) v :
  keeps f Math_random -> keeps f (range_operand v).
Proof.
  intros H. unfold range_operand. destruct (typeof_object v); [| auto with eco].
  apply keeps_bind; [auto with eco | intros lo].
  destruct (negb (is_undefined lo)); [| auto with eco].
  apply keeps_bind; [auto with eco | intros hi].
  destruct (negb (is_undefined hi)); [| auto with eco].
  apply keeps_bind; [auto with eco | intros a].
  apply keeps_bind; [auto with eco | intros b].
  now apply keeps_randomize.
Qed.

Lemma stable_randomize lo hi : stable (randomize lo hi).
Proof. apply keeps_randomize. auto with eco. Qed.

Lemma stable_range_operand v : stable (range_operand v).
Proof. apply keeps_range_operand. auto with eco. Qed.

Lemma stable_get key : stable (get key).
Proof.
  unfold get. apply keeps_try_catch; [| auto 10 with eco].
  apply keeps_bind; [auto with eco | intros text].
  apply keeps_bind; [auto with eco | intros data].
  destruct (is_null data); auto with eco.
Qed.

#[local] Hint Resolve stable_randomize stable_range_operand stable_get : eco.

Lemma touches_stable {A} k (m : M A) : stable m -> touches k m.
Proof. intros H w k' _. rewrite H. reflexivity. Qed.

Lemma touches_bind {A B} k (m : M A) (f : A -> M B) :
  touches k m -> (forall a, touches k (f a)) -> touches k (bind m f).
Proof.
  intros Hm Hf w k' Hk. specialize (Hm w k' Hk). unfold bind.
  destruct (m w) as [[a | e] w1]; simpl in *; [rewrite Hf by exact Hk |];
    exact Hm.
Qed.

Lemma touches_try_catch {A} k (body : M A) (handler : error -> M A) :
  touches k body -> (forall e, touches k (handler e)) ->
  touches k (try_catch body handler).
Proof.
  intros Hb Hh w k' Hk. specialize (Hb w k' Hk). unfold try_catch.
  destruct (body w) as [[a | e] w1]; simpl in *; [| rewrite Hh by exact Hk];
    exact Hb.
Qed.

Lemma touches_setItem (k : string) v : touches k (localStorage_setItem (VStr k) v).
Proof.
  intros w k' Hk. unfold localStorage_setItem, lift, bind; simpl.
  destruct (ToString v) as [text | e]; simpl; [| reflexivity].
  pose proof (stable_storage_call w) as Hs.
  destruct (storage_call w) as [[[] | e] w1]; simpl in *; [| now rewrite Hs].
  rewrite lookup_insert_ne by congruence. now rewrite Hs.
Qed.

Lemma touches_removeItem (k : string) : touches k (localStorage_removeItem (VStr k)).
Proof.
  intros w k' Hk. unfold localStorage_removeItem, lift, bind; simpl.
  pose proof (stable_storage_call w) as Hs.
  destruct (storage_call w) as [[[] | e] w1]; simpl in *; [| now rewrite Hs].
  rewrite lookup_delete_ne by congruence. now rewrite Hs.
Qed.

#[local] Hint Resolve touches_stable touches_bind touches_try_catch
  touches_setItem touches_removeItem : eco.

Lemma touches_set (k : string) v : touches k (set (VStr k) v).
Proof. unfold set. auto 10 with eco. Qed.

#[local] Hint Resolve touches_set : eco.

Lemma touches_add (k : string) v : touches k (add (VStr k) v).
Proof. unfold add. auto 12 with eco. Qed.

Lemma touches_sub (k : string) v : touches k (sub (VStr k) v).
Proof. unfold sub. auto 12 with eco. Qed.

Lemma touches_mul (k : string) v : touches k (mul (VStr k) v).
Proof. unfold mul. auto 12 with eco. Qed.

Lemma touches_div (k : string) v : touches k (div (VStr k) v).
Proof. unfold div. auto 12 with eco. Qed.

Lemma touches_del (k : string) : touches k (del (VStr k)).
Proof. unfold del. auto 10 with eco. Qed.

Lemma stable_fold_each {A B} (f : B -> A -> M B) l acc :
  (forall b a, stable (f b a)) -> stable (fold_each f l acc).
Proof.
  intros Hf. revert acc. induction l as [| x l IH]; intros acc; simpl;
    auto with eco.
Qed.

Lemma stable_batchGet keys : stable (batchGet keys).
Proof.
  unfold batchGet. apply keeps_try_catch; [| auto with eco].
  apply keeps_bind; [| auto with eco].
  unfold reduce. destruct keys; auto with eco.
  apply stable_fold_each. intros b a. unfold assign_prop. auto 10 with eco.
Qed.

(** Every method returns normally when its key is a string; the batch
    methods return normally on any argument. *)
Lemma returns_handler (k : string) before after :
  forall e, returns (msg <- template before (VStr k) after ;; console_error msg e).
Proof. intros e. auto with eco. Qed.

#[local] Hint Resolve returns_handler : eco.

Lemma returns_get (k : string) : returns (get (VStr k)).
Proof. unfold get. auto 10 with eco. Qed.

Lemma returns_set (k : string) v : returns (set (VStr k) v).
Proof. unfold set. auto with eco. Qed.

Lemma returns_add (k : string) v : returns (add (VStr k) v).
Proof. unfold add. auto with eco. Qed.

Lemma returns_sub (k : string) v : returns (sub (VStr k) v).
Proof. unfold sub. auto with eco. Qed.

Lemma returns_mul (k : string) v : returns (mul (VStr k) v).
Proof. unfold mul. auto with eco. Qed.

Lemma returns_div (k : string) v : returns (div (VStr k) v).
Proof. unfold div. auto with eco. Qed.

Lemma returns_del (k : string) : returns (del (VStr k)).
Proof. unfold del. auto with eco. Qed.

Lemma returns_res : returns res.
Proof. unfold res. auto with eco. Qed.

Lemma returns_batch (body : M unit) msg :
  returns (try_catch body (fun error => console_error msg error)).
Proof. auto with eco. Qed.

Lemma returns_batchGet keys : returns (batchGet keys).
Proof. unfold batchGet. auto with eco. Qed.

(** * Binary64 arithmetic *)

(** ** Inequalities between products *)

Lemma ratio_digits (x n m den A B X Y : Z) :
  0 < A -> 0 < B -> x <= n -> 0 < m < X -> 0 < den < Y ->
  n * A = m * B * den -> x * A < X * B * Y.
Proof.
  intros HA HB Hx Hm Hd Heq.
  apply Z.le_lt_trans with (n * A); [apply Z.mul_le_mono_nonneg_r; lia |].
  rewrite Heq.
  replace (m * B * den) with (B * (m * den)) by ring.
  replace (X * B * Y) with (B * (X * Y)) by ring.
  apply Z.mul_lt_mono_pos_l; [lia |]. apply Z.mul_lt_mono_nonneg; lia.
Qed.

Lemma ulp_bound (u h M mr mn : Z) :
  0 < h -> u * h <= M -> M = mr * mn -> 0 < mn -> mr < 2 * h -> u < 2 * mn.
Proof.
  intros Hh Hu -> Hmn Hmr.
  assert (H : mr * mn < 2 * h * mn) by (apply Z.mul_lt_mono_pos_r; lia).
  apply Z.mul_lt_mono_pos_r with h; lia.
Qed.

Lemma below_bound (mX M U mr mn P T : Z) :
  2 * mX <= 2 * M + U -> U < 2 * mn -> M = mr * mn -> 0 < mn ->
  0 <= mr < P -> 1 <= T -> mX < mn * (P * T).
Proof.
  intros Hb HU -> Hmn Hmr HT.
  assert (H1 : (mr + 1) * mn <= P * mn) by (apply Z.mul_le_mono_nonneg_r; lia).
  assert (H2 : (P * mn) * 1 <= (P * mn) * T).
  { apply Z.mul_le_mono_nonneg_l; [| lia]. apply Z.mul_nonneg_nonneg; lia. }
  lia.
Qed.

Lemma floor_below (k m N a c : Z) :
  0 < a -> 0 < c -> a * k <= m -> m * c < N * (a * c) -> k < N.
Proof.
  intros Ha Hc Hk Hm.
  assert (H : (a * k) * c <= m * c) by (apply Z.mul_le_mono_nonneg_r; lia).
  apply Z.mul_lt_mono_pos_l with (a * c); [apply Z.mul_pos_pos; lia |]. lia.
Qed.

(** ** Exact rounding *)

Lemma digits2_pos_bounds (p : positive) :
  2 ^ (Z.pos (digits2_pos p) - 1) <= Z.pos p < 2 ^ Z.pos (digits2_pos p).
Proof.
  induction p as [p IH | p IH |]; cbn [digits2_pos].
  - rewrite Pos2Z.inj_succ, Z.pow_succ_r by lia.
    replace (Z.succ (Z.pos (digits2_pos p)) - 1) with
      (Z.succ (Z.pos (digits2_pos p) - 1)) by lia.
    rewrite Z.pow_succ_r by lia. lia.
  - rewrite Pos2Z.inj_succ, Z.pow_succ_r by lia.
    replace (Z.succ (Z.pos (digits2_pos p)) - 1) with
      (Z.succ (Z.pos (digits2_pos p) - 1)) by lia.
    rewrite Z.pow_succ_r by lia. lia.
  - cbn. lia.
Qed.

(** The number of binary digits is the only [d] with [2^(d-1) <= x < 2^d]. *)
Lemma digits2_unique (p : positive) (d : Z) :
  2 ^ (d - 1) <= Z.pos p < 2 ^ d -> Z.pos (digits2_pos p) = d.
Proof.
  intros [Hlo Hhi]. pose proof (digits2_pos_bounds p) as [Blo Bhi].
  assert (Hd : 0 < d).
  { destruct (Z.lt_ge_cases 0 d) as [| Hle]; [assumption |].
    destruct (Z.eq_dec d 0) as [-> | Hne]; [cbn in Hhi; lia |].
    rewrite Z.pow_neg_r in Hhi by lia. lia. }
  destruct (Z.lt_trichotomy (Z.pos (digits2_pos p)) d) as [H | [H | H]];
    [| exact H |].
  - pose proof (Z.pow_le_mono_r 2 (Z.pos (digits2_pos p)) (d - 1)
                  ltac:(lia) ltac:(lia)). lia.
  - pose proof (Z.pow_le_mono_r 2 d (Z.pos (digits2_pos p) - 1)
                  ltac:(lia) ltac:(lia)). lia.
Qed.

Lemma digits2_shift (p q : positive) (j : Z) :
  0 <= j -> Z.pos q = Z.pos p * 2 ^ j ->
  Z.pos (digits2_pos q) = Z.pos (digits2_pos p) + j.
Proof.
  intros Hj E. apply digits2_unique. rewrite E.
  pose proof (digits2_pos_bounds p) as [Blo Bhi].
  replace (Z.pos (digits2_pos p) + j - 1) with
    (Z.pos (digits2_pos p) - 1 + j) by lia.
  rewrite !Z.pow_add_r by lia.
  assert (0 < 2 ^ j) by (apply Z.pow_pos_nonneg; lia). nia.
Qed.

Lemma fexp_monotone a b : a <= b -> fexp prec emax a <= fexp prec emax b.
Proof. unfold fexp. lia. Qed.

Lemma bounded_canonical m e :
  bounded prec emax m e = true ->
  fexp prec emax (Z.pos (digits2_pos m) + e) = e /\ e <= emax - prec.
Proof.
  unfold bounded, canonical_mantissa. intros H.
  apply andb_true_iff in H as [H1 H2].
  apply Z.eqb_eq in H1. apply Z.leb_le in H2. now split.
Qed.

(** *** Shifting to the right *)

Lemma iter_pos_nat {A} (f : A -> A) (p : positive) (x : A) :
  SpecFloat.iter_pos f p x = Nat.iter (Pos.to_nat p) f x.
Proof.
  revert x. induction p as [p IH | p IH |]; intros x; cbn [SpecFloat.iter_pos].
  - rewrite !IH, Pos2Nat.inj_xI.
    replace (S (2 * Pos.to_nat p)) with (Pos.to_nat p + (Pos.to_nat p + 1))%nat
      by lia.
    rewrite !Nat.iter_add. reflexivity.
  - rewrite !IH, Pos2Nat.inj_xO.
    replace (2 * Pos.to_nat p)%nat with (Pos.to_nat p + Pos.to_nat p)%nat by lia.
    rewrite Nat.iter_add. reflexivity.
  - reflexivity.
Qed.

Lemma shr_1_spec m r s :
  0 <= m ->
  shr_1 (Build_shr_record m r s) = Build_shr_record (m / 2) (Z.odd m) (r || s).
Proof.
  intros Hm. destruct m as [| p | p]; [reflexivity | | lia].
  destruct p as [p | p |]; cbn [shr_1 Z.odd]; f_equal.
  - apply (Z.div_unique _ 2 _ 1); lia.
  - apply (Z.div_unique _ 2 _ 0); lia.
Qed.

(** After [j + 1] shifts: the quotient, the last bit shifted out, and
    whether anything was shifted out before it. *)
Lemma iter_shr_1 m j :
  0 <= m ->
  Nat.iter (S j) shr_1 (Build_shr_record m false false)
  = Build_shr_record (m / 2 ^ Z.of_nat (S j)) (Z.odd (m / 2 ^ Z.of_nat j))
      (negb (m mod 2 ^ Z.of_nat j =? 0)).
Proof.
  intros Hm. induction j as [| j IH].
  - cbn [Nat.iter]. rewrite shr_1_spec by exact Hm.
    change (2 ^ Z.of_nat 1) with 2. change (2 ^ Z.of_nat 0) with 1.
    rewrite Z.div_1_r, Z.mod_1_r. reflexivity.
  - change (Nat.iter (S (S j)) shr_1 ?x) with (shr_1 (Nat.iter (S j) shr_1 x)).
    rewrite IH.
    assert (Hp : 0 < 2 ^ Z.of_nat j) by (apply Z.pow_pos_nonneg; lia).
    rewrite shr_1_spec by (apply Z.div_pos; lia).
    rewrite Z.div_div by lia.
    rewrite (Nat2Z.inj_succ (S j)), (Z.pow_succ_r 2 (Z.of_nat (S j))) by lia.
    rewrite (Z.mul_comm 2). f_equal.
    rewrite (Nat2Z.inj_succ j), Z.pow_succ_r by lia.
    rewrite (Z.mul_comm 2), Z.rem_mul_r by lia.
    rewrite Zodd_mod.
    pose proof (Z.mod_pos_bound m (2 ^ Z.of_nat j) Hp).
    pose proof (Z.mod_pos_bound (m / 2 ^ Z.of_nat j) 2 ltac:(lia)).
    destruct (Z.eqb_spec ((m / 2 ^ Z.of_nat j) mod 2) 1) as [E1 | E1];
      destruct (Z.eqb_spec (m mod 2 ^ Z.of_nat j) 0) as [E2 | E2];
      cbn [negb orb]; symmetry;
      [apply negb_true_iff, Z.eqb_neq; nia
      | apply negb_true_iff, Z.eqb_neq; nia
      | apply negb_false_iff, Z.eqb_eq; nia
      | apply negb_true_iff, Z.eqb_neq; nia].
Qed.

(** Shifting out zeros only loses nothing. *)
Lemma shr_exact (m : positive) (e j : Z) :
  0 <= j ->
  shr (Build_shr_record (Z.pos m * 2 ^ j) false false) e j
  = (Build_shr_record (Z.pos m) false false, e + j).
Proof.
  intros Hj. destruct j as [| p | p]; [| | lia].
  - cbn [shr]. rewrite Z.mul_1_r, Z.add_0_r. reflexivity.
  - cbn [shr]. rewrite iter_pos_nat.
    destruct (Pos.to_nat p) as [| n] eqn:En; [lia |].
    assert (Ep : Z.pos p = Z.of_nat (S n)) by lia.
    rewrite iter_shr_1 by lia. rewrite Ep.
    assert (Hp : 0 < 2 ^ Z.of_nat n) by (apply Z.pow_pos_nonneg; lia).
    assert (E2 : 2 ^ Z.of_nat (S n) = 2 * 2 ^ Z.of_nat n).
    { rewrite Nat2Z.inj_succ, Z.pow_succ_r by lia. reflexivity. }
    assert (H1 : Z.pos m * 2 ^ Z.of_nat (S n) / 2 ^ Z.of_nat (S n) = Z.pos m).
    { apply Z.div_mul. lia. }
    assert (H2 : Z.pos m * 2 ^ Z.of_nat (S n) / 2 ^ Z.of_nat n = 2 * Z.pos m).
    { rewrite E2. replace (Z.pos m * (2 * 2 ^ Z.of_nat n)) with
        (2 * Z.pos m * 2 ^ Z.of_nat n) by lia.
      apply Z.div_mul. lia. }
    assert (H3 : (Z.pos m * 2 ^ Z.of_nat (S n)) mod 2 ^ Z.of_nat n = 0).
    { rewrite E2. replace (Z.pos m * (2 * 2 ^ Z.of_nat n)) with
        (2 * Z.pos m * 2 ^ Z.of_nat n) by lia.
      apply Z.mod_mul. lia. }
    rewrite H1, H2, H3, Z.odd_even. reflexivity.
Qed.

(** A value that fits is its own rounding. *)
Lemma binary_round_aux_exact s (m : positive) (e j : Z) :
  0 <= j -> bounded prec emax m e = true ->
  binary_round_aux prec emax s (Z.pos m * 2 ^ j) (e - j) loc_Exact
  = S754_finite s m e.
Proof.
  intros Hj Hb. destruct (bounded_canonical m e Hb) as [Hc He].
  assert (Hpos : 0 < 2 ^ j) by (apply Z.pow_pos_nonneg; lia).
  destruct (Z.pos m * 2 ^ j) as [| q | q] eqn:Eq; [lia | | lia].
  pose proof (digits2_shift m q j Hj (eq_sym Eq)) as Hd.
  unfold binary_round_aux, shr_fexp. cbn [Zdigits2 shr_record_of_loc].
  rewrite Hd.
  replace (Z.pos (digits2_pos m) + j + (e - j)) with
    (Z.pos (digits2_pos m) + e) by lia.
  rewrite Hc. replace (e - (e - j)) with j by lia.
  rewrite <- Eq, shr_exact by exact Hj.
  cbn [shr_m loc_of_shr_record round_nearest_even Zdigits2 shr_record_of_loc].
  replace (e - j + j) with e by lia.
  rewrite Hc, Z.sub_diag. cbn [shr shr_m].
  apply Z.leb_le in He. rewrite He. reflexivity.
Qed.

Lemma new_location_zero den : new_location den 0 = loc_Exact.
Proof.
  unfold new_location, new_location_even, new_location_odd.
  destruct (Z.even den); reflexivity.
Qed.

(** A quotient that is a Number is its own rounding. *)
Lemma round_ratio_exact neg (num den m : positive) (e : Z) :
  bounded prec emax m e = true ->
  Z.pos num * 2 ^ Z.max 0 (- e) = Z.pos m * 2 ^ Z.max 0 e * Z.pos den ->
  round_ratio neg num den = S754_finite neg m e.
Proof.
  intros Hb Heq. destruct (bounded_canonical m e Hb) as [Hc He].
  pose proof (digits2_pos_bounds num) as [N1 N2].
  pose proof (digits2_pos_bounds den) as [D1 D2].
  pose proof (digits2_pos_bounds m) as [M1 M2].
  set (d1 := Z.pos (digits2_pos num)) in *.
  set (d2 := Z.pos (digits2_pos den)) in *.
  set (dm := Z.pos (digits2_pos m)) in *.
  set (a := Z.max 0 (- e)) in *. set (b := Z.max 0 e) in *.
  assert (Ha : 0 < 2 ^ a) by (apply Z.pow_pos_nonneg; lia).
  assert (Hb2 : 0 < 2 ^ b) by (apply Z.pow_pos_nonneg; lia).
  assert (Hdig : d1 - d2 <= dm + e).
  { assert (Hlt : 2 ^ (d1 - 1 + a) < 2 ^ (dm + b + d2)).
    { rewrite !Z.pow_add_r by lia.
      apply (ratio_digits _ (Z.pos num) (Z.pos m) (Z.pos den)); lia. }
    apply Z.pow_lt_mono_r_iff in Hlt; lia. }
  set (e' := Z.min (fexp prec emax (d1 - d2)) 0).
  assert (He' : e' <= e /\ e' <= 0).
  { pose proof (fexp_monotone _ _ Hdig). unfold e'. lia. }
  set (Q := Z.pos m * 2 ^ (e - e')).
  assert (Hm' : Z.pos num * 2 ^ (- e') = Q * Z.pos den).
  { unfold Q. replace (- e') with (a + (e - e' - b)) by lia.
    replace (e - e') with (b + (e - e' - b)) at 2 by lia.
    rewrite !Z.pow_add_r by lia. rewrite Z.mul_assoc, Heq. ring. }
  unfold round_ratio, SFdiv_core_binary. cbn [Zdigits2].
  rewrite !Z.add_0_r. fold d1 d2. change (0 - 0) with 0.
  fold e'. change (0 - e') with (- e').
  assert (Em : match - e' with
               | Z.pos _ => Z.shiftl (Z.pos num) (- e')
               | 0 => Z.pos num
               | Z.neg _ => 0
               end = Q * Z.pos den).
  { rewrite <- Hm'. destruct (- e') as [| p | p] eqn:E; [| | lia].
    - cbn. lia.
    - apply Z.shiftl_mul_pow2. lia. }
  rewrite Em.
  pose proof (Z.div_mul Q (Z.pos den) ltac:(lia)) as Hq.
  pose proof (Z.mod_mul Q (Z.pos den) ltac:(lia)) as Hr.
  unfold Z.div, Z.modulo in Hq, Hr.
  destruct (Z.div_eucl (Q * Z.pos den) (Z.pos den)) as [q r].
  subst q r. rewrite new_location_zero.
  pose proof (binary_round_aux_exact neg m e (e - e') ltac:(lia) Hb) as H.
  replace (e - (e - e')) with e' in H by lia. exact H.
Qed.

Lemma same_refl x : same x x = true.
Proof.
  destruct x as [s | s | | s m e]; cbn; try reflexivity;
    rewrite ?eqb_reflx, ?Pos.eqb_refl, ?Z.eqb_refl; reflexivity.
Qed.

(** The full decimal expansion of a Number reads back as that Number. *)
Lemma exact_decimal_reads_back m e :
  bounded prec emax m e = true -> reads_back m e (exact_decimal m e) = true.
Proof.
  intros Hb. unfold reads_back.
  assert (E : of_decimal false (fst (exact_decimal m e))
                (snd (exact_decimal m e)) = S754_finite false m e);
    [| rewrite E; apply same_refl].
  unfold exact_decimal. destruct (Z.leb_spec 0 e) as [He | He]; cbn [fst snd].
  - destruct (N.pos m * 2 ^ Z.to_N e)%N as [| p] eqn:Ep.
    { pose proof (N.pow_nonzero 2 (Z.to_N e)). lia. }
    unfold of_decimal. cbn [Z.leb Z.compare].
    apply round_ratio_exact; [exact Hb |].
    rewrite Z.max_l, Z.max_r by lia.
    rewrite Pos2Z.inj_mul. change (Z.pos (Z.to_pos (10 ^ 0))) with 1.
    change (Z.pos p) with (Z.of_N (N.pos p)). rewrite <- Ep.
    rewrite N2Z.inj_mul, N2Z.inj_pow, Z2N.id by lia. cbn. lia.
  - destruct (N.pos m * 5 ^ Z.to_N (- e))%N as [| p] eqn:Ep.
    { pose proof (N.pow_nonzero 5 (Z.to_N (- e))). lia. }
    unfold of_decimal. destruct (Z.leb_spec 0 e) as [| _]; [lia |].
    apply round_ratio_exact; [exact Hb |].
    rewrite Z.max_r, Z.max_l by lia.
    rewrite Z2Pos.id by (apply Z.pow_pos_nonneg; lia).
    change (Z.pos p) with (Z.of_N (N.pos p)). rewrite <- Ep.
    rewrite N2Z.inj_mul, N2Z.inj_pow, Z2N.id by lia.
    change 10 with (5 * 2). rewrite Z.pow_mul_l. cbn. lia.
Qed.

(** ** Rounding in general *)

Lemma digits2_small (p : positive) (d : Z) :
  Z.pos p < 2 ^ d -> Z.pos (digits2_pos p) <= d.
Proof.
  intros H. pose proof (digits2_pos_bounds p) as [Blo _].
  destruct (Z.le_gt_cases (Z.pos (digits2_pos p)) d) as [| Hgt]; [assumption |].
  pose proof (Z.pow_le_mono_r 2 d (Z.pos (digits2_pos p) - 1)
                ltac:(lia) ltac:(lia)). lia.
Qed.

Lemma digits2_large (p : positive) (d : Z) :
  2 ^ (d - 1) <= Z.pos p -> d <= Z.pos (digits2_pos p).
Proof.
  intros H. pose proof (digits2_pos_bounds p) as [_ Bhi].
  destruct (Z.le_gt_cases d (Z.pos (digits2_pos p))) as [| Hgt]; [assumption |].
  pose proof (Z.pow_le_mono_r 2 (Z.pos (digits2_pos p)) (d - 1)
                ltac:(lia) ltac:(lia)). lia.
Qed.

(** Rounding to nearest moves the quotient up by at most half a unit. *)
Lemma round_after_shift (M : Z) (j : nat) :
  0 <= M ->
  let mrs := Nat.iter (S j) shr_1 (Build_shr_record M false false) in
  let M' := round_nearest_even (shr_m mrs) (loc_of_shr_record mrs) in
  (M' = M / 2 ^ Z.of_nat (S j) \/ M' = M / 2 ^ Z.of_nat (S j) + 1) /\
  M' * 2 ^ Z.of_nat (S j) <= M + 2 ^ Z.of_nat j.
Proof.
  intros HM mrs M'. unfold M', mrs. rewrite iter_shr_1 by exact HM.
  cbn [shr_m].
  assert (Hp : 0 < 2 ^ Z.of_nat j) by (apply Z.pow_pos_nonneg; lia).
  assert (E2 : 2 ^ Z.of_nat (S j) = 2 ^ Z.of_nat j * 2).
  { rewrite Nat2Z.inj_succ, Z.pow_succ_r by lia. lia. }
  pose proof (Z.div_mod M (2 ^ Z.of_nat j) ltac:(lia)) as Hdm.
  pose proof (Z.mod_pos_bound M (2 ^ Z.of_nat j) Hp) as Hmb.
  set (hi := M / 2 ^ Z.of_nat j) in *.
  assert (Hq : M / 2 ^ Z.of_nat (S j) = hi / 2).
  { rewrite E2, <- Z.div_div by lia. reflexivity. }
  rewrite Hq, E2.
  pose proof (Z.div_mod hi 2 ltac:(lia)) as Hh.
  pose proof (Z.mod_pos_bound hi 2 ltac:(lia)) as Hhb.
  rewrite Zodd_mod.
  destruct (Z.eqb_spec (hi mod 2) 1) as [E1 | E1];
    destruct (negb (M mod 2 ^ Z.of_nat j =? 0));
    cbn [loc_of_shr_record round_nearest_even];
    try destruct (Z.even (hi / 2)); split; try (left; reflexivity);
    try (right; reflexivity); nia.
Qed.

(** The outcome of rounding [M * 2^E] when [M] has at least the digits the
    format keeps and the result is in range: zero, or a valid Number at most
    half a unit of the last place above. *)
Lemma binary_round_aux_spec s (M : positive) (E : Z) :
  let e1 := fexp prec emax (Z.pos (digits2_pos M) + E) in
  E <= e1 -> e1 + 1 <= emax - prec ->
  binary_round_aux prec emax s (Z.pos M) E loc_Exact = S754_zero s \/
  exists m e,
    binary_round_aux prec emax s (Z.pos M) E loc_Exact = S754_finite s m e /\
    bounded prec emax m e = true /\ e1 <= e <= e1 + 1 /\
    2 * (Z.pos m * 2 ^ (e - E)) <= 2 * Z.pos M + 2 ^ (e1 - E).
Proof.
  intros e1 HE Hmax.
  pose proof (digits2_pos_bounds M) as [Mlo Mhi].
  set (dM := Z.pos (digits2_pos M)) in *.
  assert (He1 : e1 = Z.max (dM + E - prec) (emin prec emax)) by reflexivity.
  assert (Hemin : emin prec emax = -1074) by reflexivity.
  assert (Hprec : prec = 53) by reflexivity.
  assert (Hemax : emax = 1024) by reflexivity.
  unfold binary_round_aux, shr_fexp. cbn [Zdigits2 shr_record_of_loc].
  fold dM. fold e1.
  destruct (e1 - E) as [| j1 | j1] eqn:Ej; [| | lia].
  - (* nothing to shift *)
    cbn [shr shr_m loc_of_shr_record round_nearest_even Zdigits2
           shr_record_of_loc].
    fold dM. fold e1. rewrite Ej. cbn [shr shr_m].
    right. exists M, E.
    assert (E = e1) as HEe by lia.
    rewrite (proj2 (Z.leb_le E (emax - prec))) by lia.
    split; [reflexivity |]. split.
    + unfold bounded, canonical_mantissa. fold dM. fold e1.
      rewrite <- HEe, Z.eqb_refl. cbn [andb]. apply Z.leb_le. lia.
    + split; [lia |]. rewrite Z.sub_diag. cbn. lia.
  - (* [j1] bits are shifted out, then the rest is rounded *)
    cbn [shr]. rewrite iter_pos_nat.
    destruct (Pos.to_nat j1) as [| j] eqn:Enat; [lia |].
    assert (Hj : Z.pos j1 = Z.of_nat (S j)) by lia.
    pose proof (round_after_shift (Z.pos M) j ltac:(lia)) as [Hcase Hup].
    cbv zeta in Hcase, Hup.
    set (mrs := Nat.iter (S j) shr_1 (Build_shr_record (Z.pos M) false false))
      in *.
    set (M' := round_nearest_even (shr_m mrs) (loc_of_shr_record mrs)) in *.
    assert (Hp : 0 < 2 ^ Z.of_nat (S j)) by (apply Z.pow_pos_nonneg; lia).
    assert (Hquot : 0 <= Z.pos M / 2 ^ Z.of_nat (S j)) by (apply Z.div_pos; lia).
    assert (Hqhi : Z.pos M / 2 ^ Z.of_nat (S j) < 2 ^ prec).
    { apply Z.div_lt_upper_bound; [lia |].
      rewrite <- Z.pow_add_r by lia.
      pose proof (Z.pow_le_mono_r 2 dM (Z.of_nat (S j) + prec)
                    ltac:(lia) ltac:(lia)). lia. }
    assert (HM' : 0 <= M' <= 2 ^ prec) by lia.
    replace (E + Z.pos j1) with e1 by lia.
    assert (Hshift : e1 - E = Z.of_nat (S j)) by lia.
    destruct M' as [| q | q] eqn:EM'; [| | lia].
    + (* rounded to zero *)
      left. cbn [Zdigits2 shr_record_of_loc].
      destruct (fexp prec emax (0 + e1) - e1) as [| t | t] eqn:Et;
        [reflexivity | | reflexivity].
      unfold fexp in Et. lia.
    + right. cbn [Zdigits2 shr_record_of_loc].
      set (dq := Z.pos (digits2_pos q)).
      pose proof (digits2_pos_bounds q) as [Qlo Qhi]. fold dq in Qlo, Qhi.
      assert (Hbound : 2 * (Z.pos q * 2 ^ Z.of_nat (S j))
                       <= 2 * Z.pos M + 2 ^ Z.of_nat (S j)).
      { rewrite (Nat2Z.inj_succ j), Z.pow_succ_r in * by lia. nia. }
      destruct (Z.eq_dec (Z.pos q) (2 ^ prec)) as [Etop | Etop].
      * (* the mantissa overflowed into one more digit *)
        assert (Hdq : dq = prec + 1).
        { unfold dq. apply digits2_unique. rewrite Etop.
          replace (prec + 1 - 1) with prec by lia.
          split; [lia |]. apply Z.pow_lt_mono_r; lia. }
        assert (Hnormal : dM + E - prec >= emin prec emax).
        { destruct (Z.max_spec (dM + E - prec) (emin prec emax))
            as [[Hlt Hmaxeq] | [Hge Hmaxeq]]; [| lia].
          exfalso.
          assert (Hq1 : Z.pos M / 2 ^ Z.of_nat (S j) < 2 ^ (prec - 1)).
          { apply Z.div_lt_upper_bound; [lia |].
            rewrite <- Z.pow_add_r by lia.
            pose proof (Z.pow_le_mono_r 2 dM (Z.of_nat (S j) + (prec - 1))
                          ltac:(lia) ltac:(lia)). lia. }
          assert (2 ^ prec = 2 * 2 ^ (prec - 1)) by reflexivity.
          assert (0 < 2 ^ (prec - 1)) by (apply Z.pow_pos_nonneg; lia).
          lia. }
        assert (Hf : fexp prec emax (dq + e1) - e1 = 1).
        { unfold fexp. lia. }
        rewrite Hf.
        assert (Eq2 : Z.pos q = Z.pos (Z.to_pos (2 ^ (prec - 1))) * 2 ^ 1).
        { rewrite Z2Pos.id by (apply Z.pow_pos_nonneg; lia).
          rewrite Etop, <- Z.pow_add_r by lia. reflexivity. }
        rewrite Eq2, shr_exact by lia. cbn [shr_m].
        exists (Z.to_pos (2 ^ (prec - 1))), (e1 + 1).
        rewrite (proj2 (Z.leb_le (e1 + 1) (emax - prec))) by lia.
        split; [reflexivity |]. split.
        { unfold bounded, canonical_mantissa.
          assert (Hd52 : Z.pos (digits2_pos (Z.to_pos (2 ^ (prec - 1)))) = prec).
          { reflexivity. }
          rewrite Hd52.
          replace (fexp prec emax (prec + (e1 + 1))) with (e1 + 1)
            by (unfold fexp; lia).
          rewrite Z.eqb_refl. cbn [andb]. apply Z.leb_le. lia. }
        split; [lia |].
        rewrite Z2Pos.id by (apply Z.pow_pos_nonneg; lia).
        replace (e1 + 1 - E) with (1 + Z.of_nat (S j)) by lia.
        rewrite Z.pow_add_r by lia. rewrite Hj.
        assert (2 ^ (prec - 1) * 2 ^ 1 = Z.pos q).
        { rewrite Etop, <- Z.pow_add_r by lia. reflexivity. }
        nia.
      * (* the mantissa has the digits of the format, or fewer at the
           bottom of the range *)
        assert (Hdq : dq <= prec).
        { unfold dq. apply digits2_small. lia. }
        assert (Hf : fexp prec emax (dq + e1) - e1 = 0).
        { destruct (Z.max_spec (dM + E - prec) (emin prec emax))
            as [[Hlt Hmaxeq] | [Hge Hmaxeq]].
          - unfold fexp. lia.
          - assert (Hq1 : 2 ^ (prec - 1) <= Z.pos M / 2 ^ Z.of_nat (S j)).
            { apply Z.div_le_lower_bound; [lia |].
              rewrite <- Z.pow_add_r by lia.
              replace (Z.of_nat (S j) + (prec - 1)) with (dM - 1) by lia.
              exact Mlo. }
            assert (Hdq2 : prec <= dq).
            { unfold dq. apply digits2_large. lia. }
            unfold fexp. lia. }
        rewrite Hf. cbn [shr shr_m].
        exists q, e1.
        rewrite (proj2 (Z.leb_le e1 (emax - prec))) by lia.
        split; [reflexivity |]. split.
        { unfold bounded, canonical_mantissa. fold dq.
          replace (fexp prec emax (dq + e1)) with e1 by lia.
          rewrite Z.eqb_refl. cbn [andb]. apply Z.leb_le. lia. }
        split; [lia |]. rewrite Hj, Hshift. exact Hbound.
Qed.

(** ** Integers as Numbers *)

Lemma shl_align_fst (mx : positive) (ex ez : Z) :
  ez <= ex -> Z.pos (fst (shl_align mx ex ez)) = Z.pos mx * 2 ^ (ex - ez).
Proof.
  intros H. unfold shl_align. destruct (ez - ex) as [| d | d] eqn:E; cbn [fst].
  - replace (ex - ez) with 0 by lia. lia.
  - lia.
  - change (Pos.iter xO mx d) with (shift_pos d mx).
    rewrite shift_pos_correct. replace (ex - ez) with (Z.pos d) by lia.
    change (Z.pow_pos 2 d) with (2 ^ Z.pos d). lia.
Qed.

(** Any way of writing a valid Number rounds to that Number. *)
Lemma binary_round_exact s (M m : positive) (E e : Z) :
  bounded prec emax m e = true ->
  Z.pos M * 2 ^ Z.max 0 (E - e) = Z.pos m * 2 ^ Z.max 0 (e - E) ->
  binary_round prec emax s M E = S754_finite s m e.
Proof.
  intros Hb Heq. destruct (bounded_canonical m e Hb) as [Hc He].
  assert (Hd : Z.pos (digits2_pos M) + E = Z.pos (digits2_pos m) + e).
  { destruct (Z.le_gt_cases e E) as [H | H].
    - rewrite Z.max_r, Z.max_l, Z.mul_1_r in Heq by lia.
      rewrite (digits2_shift M m (E - e)); [lia | lia | now symmetry].
    - rewrite Z.max_l, Z.max_r, Z.mul_1_r in Heq by lia.
      rewrite (digits2_shift m M (e - E)); [lia | lia | exact Heq]. }
  unfold binary_round. rewrite Hd, Hc.
  destruct (Z.le_gt_cases E e) as [H | H].
  - assert (Es : shl_align M E e = (M, E)).
    { unfold shl_align. destruct (e - E) as [| d | d] eqn:Ed; try reflexivity.
      lia. }
    rewrite Es. rewrite Z.max_l, Z.max_r, Z.mul_1_r in Heq by lia.
    rewrite Heq.
    pose proof (binary_round_aux_exact s m e (e - E) ltac:(lia) Hb) as Hr.
    replace (e - (e - E)) with E in Hr by lia. exact Hr.
  - pose proof (shl_align_fst M E e ltac:(lia)) as Hf.
    assert (Esnd : snd (shl_align M E e) = e).
    { unfold shl_align. destruct (e - E) as [| d | d] eqn:Ed; try lia.
      reflexivity. }
    destruct (shl_align M E e) as [mz ez]. cbn [fst snd] in *. subst ez.
    rewrite Z.max_r, Z.max_l, Z.mul_1_r in Heq by lia.
    assert (mz = m) as -> by lia.
    pose proof (binary_round_aux_exact s m e 0 ltac:(lia) Hb) as Hr.
    rewrite Z.mul_1_r, Z.sub_0_r in Hr. exact Hr.
Qed.

(** The Number of a small integer other than zero: sign, mantissa and an
    exponent that is not positive. *)
Lemma of_Z_finite (z : Z) :
  z <> 0 -> Z.abs z < 2 ^ prec ->
  exists m e,
    of_Z z = S754_finite (z <? 0) m e /\ bounded prec emax m e = true /\
    e <= 0 /\ Z.pos m = Z.abs z * 2 ^ (- e) /\
    Z.pos (digits2_pos m) = prec.
Proof.
  intros Hz Hsmall.
  assert (Hp : exists p, Z.abs z = Z.pos p).
  { destruct z as [| p | p]; [lia | now exists p | now exists p]. }
  destruct Hp as (p & Ep).
  pose proof (digits2_pos_bounds p) as [Plo Phi].
  pose proof (digits2_small p prec ltac:(lia)) as Hdp.
  set (d := Z.pos (digits2_pos p)) in *.
  set (e := d - prec).
  assert (Hprec : prec = 53) by reflexivity.
  assert (Hpow : 0 < 2 ^ (- e)) by (apply Z.pow_pos_nonneg; lia).
  destruct (Z.pos p * 2 ^ (- e)) as [| m | m] eqn:Em; [lia | | lia].
  assert (Hdm : Z.pos (digits2_pos m) = prec).
  { rewrite (digits2_shift p m (- e)); [unfold e; lia | lia | now symmetry]. }
  assert (Hb : bounded prec emax m e = true).
  { unfold bounded, canonical_mantissa. rewrite Hdm.
    assert (Hf : fexp prec emax (prec + e) = e).
    { unfold fexp. change (emin prec emax) with (-1074). lia. }
    rewrite Hf, Z.eqb_refl. cbn [andb]. apply Z.leb_le.
    change emax with 1024. lia. }
  exists m, e.
  split; [| split; [exact Hb | split; [unfold e; lia | split; [| exact Hdm]]]].
  - assert (Hr : binary_round prec emax (z <? 0) p 0 = S754_finite (z <? 0) m e).
    { apply binary_round_exact; [exact Hb |].
      rewrite Z.max_r, Z.max_l by lia. rewrite Z.sub_0_l, Z.mul_1_r. lia. }
    unfold of_Z, binary_normalize.
    destruct z as [| q | q]; [lia | |]; cbn in Ep; injection Ep as ->;
      exact Hr.
  - rewrite Ep. lia.
Qed.

Lemma cond_Zopp_abs (z : Z) (v : Z) :
  v = Z.abs z -> cond_Zopp (z <? 0) v = z.
Proof.
  intros ->. destruct (Z.ltb_spec z 0); cbn [cond_Zopp]; lia.
Qed.

(** Adding or subtracting the aligned mantissas of two small integers and
    rounding gives the Number of their sum or difference. *)
Lemma normalize_of_Z (S ez c : Z) :
  ez <= 0 -> S = c * 2 ^ (- ez) -> Z.abs c < 2 ^ prec ->
  binary_normalize prec emax S ez false = of_Z c.
Proof.
  intros Hez HS Hc.
  assert (Hpow : 0 < 2 ^ (- ez)) by (apply Z.pow_pos_nonneg; lia).
  destruct (Z.eq_dec c 0) as [-> | Hne]; [subst S; reflexivity |].
  destruct (of_Z_finite c Hne Hc) as (m & e & Eof & Hb & He & Hm & _).
  rewrite Eof.
  assert (Hpe : 0 < 2 ^ (- e)) by (apply Z.pow_pos_nonneg; lia).
  assert (Hrel : forall P : positive,
             Z.pos P = Z.abs c * 2 ^ (- ez) ->
             Z.pos P * 2 ^ Z.max 0 (ez - e) = Z.pos m * 2 ^ Z.max 0 (e - ez)).
  { intros P EP. rewrite EP, Hm.
    destruct (Z.le_gt_cases e ez) as [H | H].
    - rewrite Z.max_r, Z.max_l, Z.mul_1_r by lia.
      rewrite <- Z.mul_assoc, <- Z.pow_add_r by lia. do 2 f_equal. lia.
    - rewrite Z.max_l, Z.max_r, Z.mul_1_r by lia.
      rewrite <- Z.mul_assoc, <- Z.pow_add_r by lia. do 2 f_equal. lia. }
  unfold binary_normalize.
  destruct S as [| P | P].
  - nia.
  - assert (0 < c) by nia.
    replace (c <? 0) with false by (symmetry; apply Z.ltb_ge; lia).
    apply binary_round_exact; [exact Hb |]. apply Hrel.
    rewrite Z.abs_eq by lia. exact HS.
  - assert (c < 0) by nia.
    replace (c <? 0) with true by (symmetry; apply Z.ltb_lt; lia).
    apply binary_round_exact; [exact Hb |]. apply Hrel.
    rewrite Z.abs_neq by lia. lia.
Qed.

Lemma aligned_mantissa (z : Z) (m : positive) (e ez : Z) :
  ez <= e -> e <= 0 -> Z.pos m = Z.abs z * 2 ^ (- e) ->
  cond_Zopp (z <? 0) (Z.pos (fst (shl_align m e ez))) = z * 2 ^ (- ez).
Proof.
  intros H1 H2 Hm. rewrite shl_align_fst by exact H1. rewrite Hm.
  rewrite <- Z.mul_assoc, <- Z.pow_add_r by lia.
  replace (- e + (e - ez)) with (- ez) by lia.
  assert (Hpow : 0 < 2 ^ (- ez)) by (apply Z.pow_pos_nonneg; lia).
  destruct (Z.ltb_spec z 0); cbn [cond_Zopp]; nia.
Qed.

Lemma fadd_of_Z (a b : Z) :
  Z.abs a < 2 ^ prec -> Z.abs b < 2 ^ prec -> Z.abs (a + b) < 2 ^ prec ->
  fadd (of_Z a) (of_Z b) = of_Z (a + b).
Proof.
  intros Ha Hb Hab.
  destruct (Z.eq_dec a 0) as [-> | Hna].
  { destruct (Z.eq_dec b 0) as [-> | Hnb]; [reflexivity |].
    destruct (of_Z_finite b Hnb Hb) as (m & e & Eb & _). rewrite Z.add_0_l, Eb.
    reflexivity. }
  destruct (of_Z_finite a Hna Ha) as (ma & ea & Ea & _ & Hea & Hma & _).
  destruct (Z.eq_dec b 0) as [-> | Hnb].
  { rewrite Z.add_0_r, Ea. reflexivity. }
  destruct (of_Z_finite b Hnb Hb) as (mb & eb & Eb & _ & Heb & Hmb & _).
  rewrite Ea, Eb. unfold fadd, SFadd.
  apply normalize_of_Z; [lia | | exact Hab].
  rewrite (aligned_mantissa a ma ea), (aligned_mantissa b mb eb) by (lia || assumption).
  lia.
Qed.

Lemma fsub_of_Z (a b : Z) :
  Z.abs a < 2 ^ prec -> Z.abs b < 2 ^ prec -> Z.abs (a - b) < 2 ^ prec ->
  fsub (of_Z a) (of_Z b) = of_Z (a - b).
Proof.
  intros Ha Hb Hab.
  destruct (Z.eq_dec b 0) as [-> | Hnb].
  { rewrite Z.sub_0_r. destruct (Z.eq_dec a 0) as [-> | Hna]; [reflexivity |].
    destruct (of_Z_finite a Hna Ha) as (m & e & Ea & _). rewrite Ea.
    reflexivity. }
  destruct (of_Z_finite b Hnb Hb) as (mb & eb & Eb & Hbb & Heb & Hmb & _).
  destruct (Z.eq_dec a 0) as [-> | Hna].
  { rewrite Z.sub_0_l, Eb. cbn.
    destruct (of_Z_finite (- b) ltac:(lia) ltac:(now rewrite Z.abs_opp))
      as (m' & e' & E' & Hb' & He' & Hm' & _).
    rewrite E'. rewrite Z.abs_opp in Hm'.
    assert (Hsign : negb (b <? 0) = (- b <? 0)).
    { destruct (Z.ltb_spec b 0), (Z.ltb_spec (- b) 0); cbn; lia || reflexivity. }
    rewrite Hsign.
    pose proof (binary_round_exact (- b <? 0) mb m' eb e' Hb') as Hu.
    pose proof (binary_round_exact (- b <? 0) mb mb eb eb Hbb eq_refl) as Hv.
    rewrite <- Hv. apply Hu.
    rewrite Hmb, Hm'.
    assert (0 < 2 ^ (- eb)) by (apply Z.pow_pos_nonneg; lia).
    assert (0 < 2 ^ (- e')) by (apply Z.pow_pos_nonneg; lia).
    destruct (Z.le_gt_cases e' eb) as [H1 | H1].
    - rewrite Z.max_r, Z.max_l, Z.mul_1_r by lia.
      rewrite <- Z.mul_assoc, <- Z.pow_add_r by lia. do 2 f_equal. lia.
    - rewrite Z.max_l, Z.max_r, Z.mul_1_r by lia.
      rewrite <- Z.mul_assoc, <- Z.pow_add_r by lia. do 2 f_equal. lia. }
  destruct (of_Z_finite a Hna Ha) as (ma & ea & Ea & _ & Hea & Hma & _).
  rewrite Ea, Eb. unfold fsub, SFsub.
  apply normalize_of_Z; [lia | | exact Hab].
  rewrite (aligned_mantissa a ma ea), (aligned_mantissa b mb eb) by (lia || assumption).
  lia.
Qed.

Lemma fadd_zero_of_Z (s : bool) (z : Z) :
  Z.abs z < 2 ^ prec -> fadd (S754_zero s) (of_Z z) = of_Z z.
Proof.
  intros Hz. destruct (Z.eq_dec z 0) as [-> | Hne]; [now destruct s |].
  destruct (of_Z_finite z Hne Hz) as (m & e & E & _). rewrite E. reflexivity.
Qed.

(** ** A draw from the unit interval, scaled and floored *)

(** What [0 <= r < 1] says of a valid Number. *)
Lemma unit_interval_cases (r : number) :
  valid r = true -> flt r pos_zero = false -> flt r (of_Z 1) = true ->
  (exists s, r = S754_zero s) \/
  exists m e,
    r = S754_finite false m e /\ bounded prec emax m e = true /\
    -1074 <= e <= -53 /\ Z.pos m < 2 ^ prec.
Proof.
  intros Hv H0 H1. destruct r as [s | [] | | [] m e]; try discriminate.
  - left. now exists s.
  - right. exists m, e. split; [reflexivity |]. split; [exact Hv |].
    destruct (bounded_canonical m e Hv) as [Hc He].
    pose proof (digits2_pos_bounds m) as [Dlo Dhi].
    assert (Hd : Z.pos (digits2_pos m) <= prec /\ -1074 <= e).
    { unfold fexp in Hc. change (emin prec emax) with (-1074) in Hc.
      change prec with 53 in *. lia. }
    assert (Hm : Z.pos m < 2 ^ prec).
    { pose proof (Z.pow_le_mono_r 2 (Z.pos (digits2_pos m)) prec
                    ltac:(lia) ltac:(lia)). lia. }
    split; [| exact Hm]. split; [lia |].
    assert (E1 : of_Z 1 = S754_finite false 4503599627370496 (-52))
      by reflexivity.
    revert H1. rewrite E1. unfold flt, SFltb, SFcompare.
    destruct (Z.compare_spec e (-52)) as [E | E | E]; intros H1;
      [| lia | discriminate].
    exfalso. subst e.
    assert (Hd53 : Z.pos (digits2_pos m) = 53).
    { unfold fexp in Hc. change (emin prec emax) with (-1074) in Hc.
      change prec with 53 in *. lia. }
    rewrite Hd53 in Dlo. change (2 ^ (53 - 1)) with 4503599627370496 in Dlo.
    remember (Pos.compare_cont Eq m 4503599627370496) as c eqn:Ec in H1.
    destruct c; try discriminate H1. apply eq_sym in Ec.
    assert (Hlt : (m < 4503599627370496)%positive) by exact Ec.
    apply Pos2Z.pos_lt_pos in Hlt. clear - Hlt Dlo. lia.
Qed.

Lemma floor_scaled (r : number) (N : Z) :
  valid r = true -> flt r pos_zero = false -> flt r (of_Z 1) = true ->
  0 < N < 2 ^ prec ->
  exists k,
    0 <= k < N /\
    (floor (fmul r (of_Z N)) = of_Z k \/
     floor (fmul r (of_Z N)) = neg_zero /\ k = 0).
Proof.
  intros Hv H0 H1 HN.
  destruct (of_Z_finite N ltac:(lia) ltac:(lia))
    as (mn & en & EN & Hbn & Hen & Hmn & Hdn).
  replace (N <? 0) with false in EN by (symmetry; apply Z.ltb_ge; lia).
  rewrite Z.abs_eq in Hmn by lia. rewrite EN.
  destruct (unit_interval_cases r Hv H0 H1)
    as [(s & ->) | (mr & er & -> & Hbr & Her & Hmr)].
  { exists 0. split; [lia |]. destruct s; [right | left]; now split. }
  assert (Hprec : prec = 53) by reflexivity.
  assert (Hemax : emax = 1024) by reflexivity.
  pose proof (digits2_pos_bounds mn) as [Nlo Nhi]. rewrite Hdn in Nlo, Nhi.
  unfold fmul, SFmul. cbn [xorb].
  set (M := (mr * mn)%positive). set (E := er + en).
  pose proof (digits2_pos_bounds M) as [Mlo Mhi].
  set (dM := Z.pos (digits2_pos M)) in *.
  assert (HMval : Z.pos M = Z.pos mr * Z.pos mn) by (unfold M; lia).
  assert (P52 : 2 ^ (prec - 1) = 4503599627370496) by reflexivity.
  assert (P53 : 2 ^ prec = 9007199254740992) by reflexivity.
  assert (HdM : prec <= dM <= 2 * prec).
  { split.
    - unfold dM. apply digits2_large. rewrite HMval.
      apply Z.le_trans with (1 * Z.pos mn); [lia |].
      apply Z.mul_le_mono_nonneg_r; lia.
    - unfold dM. apply digits2_small.
      replace (2 * prec) with (prec + prec) by lia.
      rewrite Z.pow_add_r by lia. rewrite HMval.
      apply Z.mul_lt_mono_nonneg; lia. }
  assert (Hen52 : - en <= prec - 1).
  { assert (Hlt : 2 ^ (- en) < 2 ^ prec).
    { apply Z.le_lt_trans with (Z.pos mn); [| exact Nhi]. rewrite Hmn.
      apply Z.le_trans with (1 * 2 ^ (- en)); [lia |].
      apply Z.mul_le_mono_nonneg_r; [apply Z.pow_nonneg |]; lia. }
    apply Z.pow_lt_mono_r_iff in Hlt; lia. }
  pose proof (binary_round_aux_spec false M E) as Hspec.
  cbv zeta in Hspec. fold dM in Hspec.
  set (e1 := fexp prec emax (dM + E)) in *.
  assert (He1 : e1 = Z.max (dM + E - prec) (-1074)) by reflexivity.
  destruct Hspec as [Ez | (m & e & Ef & Hb & He & Hbound)]; [lia | lia | |].
  { exists 0. split; [lia |]. left. rewrite Ez. reflexivity. }
  rewrite Ef.
  (* the rounded product is below [N] *)
  set (T := 2 ^ (- er - prec)).
  assert (HT : 1 <= T).
  { unfold T. pose proof (Z.pow_pos_nonneg 2 (- er - prec) ltac:(lia)
                            ltac:(lia)). lia. }
  assert (Her2 : 2 ^ (- er) = 2 ^ prec * T).
  { unfold T. rewrite <- Z.pow_add_r by lia. f_equal. lia. }
  assert (Hulp : 2 ^ (e1 - E) < 2 * Z.pos mn).
  { destruct (Z.max_spec (dM + E - prec) (-1074)) as [[Hlt Hmx] | [Hge Hmx]].
    - assert (Hle : 2 ^ (e1 - E) <= 2 ^ (prec - 1)).
      { apply Z.pow_le_mono_r; unfold E; lia. }
      lia.
    - replace (e1 - E) with (dM - prec) by lia.
      assert (Hs : 2 ^ (dM - 1) = 2 ^ (dM - prec) * 2 ^ (prec - 1)).
      { rewrite <- Z.pow_add_r by lia. f_equal. lia. }
      apply (ulp_bound _ (2 ^ (prec - 1)) (Z.pos M) (Z.pos mr) (Z.pos mn));
        lia. }
  assert (Hbelow : Z.pos m * 2 ^ (e - E) < Z.pos mn * 2 ^ (- er)).
  { rewrite Her2.
    apply (below_bound _ (Z.pos M) (2 ^ (e1 - E)) (Z.pos mr)); lia. }
  assert (HNE : Z.pos mn * 2 ^ (- er) = N * 2 ^ (- E)).
  { unfold E. replace (- (er + en)) with (- en + - er) by lia.
    rewrite Z.pow_add_r by lia. rewrite Hmn. lia. }
  rewrite HNE in Hbelow.
  assert (HpE : 0 < 2 ^ (- E)) by (apply Z.pow_pos_nonneg; unfold E; lia).
  unfold floor.
  destruct (Z.leb_spec 0 e) as [Hpos | Hneg].
  - (* the product is a whole number already *)
    assert (Hk : exists K : positive, Z.pos K = Z.pos m * 2 ^ e).
    { pose proof (Z.pow_pos_nonneg 2 e ltac:(lia) Hpos).
      destruct (Z.pos m * 2 ^ e) as [| K | K] eqn:EK; try lia. now exists K. }
    destruct Hk as (K & EK).
    assert (HKN : Z.pos K < N).
    { replace (e - E) with (e + - E) in Hbelow by lia.
      rewrite Z.pow_add_r in Hbelow by (unfold E; lia).
      rewrite Z.mul_assoc, <- EK in Hbelow.
      apply Z.mul_lt_mono_pos_r in Hbelow; lia. }
    exists (Z.pos K). split; [lia |]. left.
    unfold of_Z, binary_normalize. symmetry.
    apply binary_round_exact; [exact Hb |].
    rewrite Z.max_l, Z.max_r by lia. rewrite Z.sub_0_r. lia.
  - (* the fraction is dropped *)
    cbn [cond_Zopp].
    assert (Hpe : 0 < 2 ^ (- e)) by (apply Z.pow_pos_nonneg; lia).
    pose proof (Z.div_pos (Z.pos m) (2 ^ (- e)) ltac:(lia) Hpe) as Hq0.
    pose proof (Z.mul_div_le (Z.pos m) (2 ^ (- e)) Hpe) as Hq1.
    set (k := Z.pos m / 2 ^ (- e)) in *.
    assert (HkN : k < N).
    { assert (Hs : 2 ^ (- E) = 2 ^ (- e) * 2 ^ (e - E)).
      { rewrite <- Z.pow_add_r by lia. f_equal. lia. }
      assert (0 < 2 ^ (e - E)) by (apply Z.pow_pos_nonneg; lia).
      rewrite Hs in Hbelow.
      apply (floor_below k (Z.pos m) N (2 ^ (- e)) (2 ^ (e - E))); lia. }
    exists k. split; [lia | left; reflexivity].
Qed.

(** ** The largest of zero and a Number *)

(** The largest of [0] and [r]. *)
Lemma max_zero_cases r :
  Float64.max [pos_zero; r] = NaN \/
  Float64.max [pos_zero; r] = pos_zero \/
  Float64.max [pos_zero; r] = Infinity \/
  exists m e, Float64.max [pos_zero; r] = S754_finite false m e.
Proof.
  destruct r as [[] | [] | | [] m e]; cbn; eauto 6.
Qed.

(** * Numbers and strings as JSON text *)

(** ** Decimal digits *)

#[local] Arguments String.append !s1 s2 : simpl nomatch.

Lemma app_nil_r (s : string) : s +:+ "" = s.
Proof. induction s as [| c s IH]; [reflexivity |]. cbn. now rewrite IH. Qed.

Lemma app_assoc (s t u : string) : (s +:+ t) +:+ u = s +:+ t +:+ u.
Proof. induction s as [| c s IH]; [reflexivity |]. cbn. now rewrite IH. Qed.

Lemma length_app (s t : string) :
  String.length (s +:+ t) = (String.length s + String.length t)%nat.
Proof. induction s as [| c s IH]; [reflexivity |]. cbn. now rewrite IH. Qed.

Lemma digits_value_app s t acc :
  digits_value (s +:+ t) acc = digits_value t (digits_value s acc).
Proof.
  revert acc. induction s as [| c s IH]; intros acc; [reflexivity |].
  cbn. apply IH.
Qed.

Lemma digits_value_shift s acc :
  digits_value s acc
  = (acc * 10 ^ N.of_nat (String.length s) + digits_value s 0)%N.
Proof.
  revert acc. induction s as [| c s IH]; intros acc.
  - cbn. lia.
  - cbn [digits_value String.length]. rewrite IH, (IH (10 * 0 + _)%N).
    rewrite Nat2N.inj_succ, N.pow_succ_r'. lia.
Qed.

Lemma digits_value_zeros n acc :
  digits_value (zeros n) acc = (acc * 10 ^ N.of_nat n)%N.
Proof.
  revert acc. induction n as [| n IH]; intros acc.
  - cbn. lia.
  - cbn [zeros digits_value]. rewrite IH, Nat2N.inj_succ, N.pow_succ_r'.
    change (digit_val "0") with 0%N. lia.
Qed.

Lemma length_zeros n : String.length (zeros n) = n.
Proof. induction n as [| n IH]; [reflexivity |]. cbn. now rewrite IH. Qed.

Lemma all_digits_zeros n : all_digits (zeros n) = true.
Proof. induction n as [| n IH]; [reflexivity | exact IH]. Qed.

Lemma all_digits_app s t :
  all_digits (s +:+ t) = all_digits s && all_digits t.
Proof.
  induction s as [| c s IH]; [reflexivity |]. cbn. rewrite IH.
  now rewrite andb_assoc.
Qed.

Lemma take_drop n s : take n s +:+ drop n s = s.
Proof.
  revert s. induction n as [| n IH]; intros [| c s]; try reflexivity.
  cbn. now rewrite IH.
Qed.

Lemma length_take n s :
  (n <= String.length s)%nat -> String.length (take n s) = n.
Proof.
  revert s. induction n as [| n IH]; intros [| c s] H; cbn in *;
    try reflexivity; try lia.
  rewrite IH; lia.
Qed.

Lemma length_drop n s : String.length (drop n s) = (String.length s - n)%nat.
Proof.
  revert s. induction n as [| n IH]; intros [| c s]; cbn; try reflexivity.
  apply IH.
Qed.

Lemma all_digits_take_drop n s :
  all_digits s = true ->
  all_digits (take n s) = true /\ all_digits (drop n s) = true.
Proof.
  intros H. rewrite <- (take_drop n s), all_digits_app in H.
  now apply andb_true_iff in H.
Qed.

Lemma span_digits_app ds rest :
  all_digits ds = true -> stops rest -> span_digits (ds +:+ rest) = (ds, rest).
Proof.
  intros Hd Hr. induction ds as [| c ds IH].
  - destruct rest as [| c r]; [reflexivity |]. cbn in *. now rewrite Hr.
  - cbn in *. apply andb_true_iff in Hd as [Hc Hd]. rewrite Hc, IH by exact Hd.
    reflexivity.
Qed.

Lemma digit_char_spec d :
  (d < 10)%N ->
  is_digit (digit_char d) = true /\ digit_val (digit_char d) = d /\
  (digit_char d = "0"%char -> d = 0%N).
Proof.
  intros H.
  assert (Hc : (d = 0 \/ d = 1 \/ d = 2 \/ d = 3 \/ d = 4 \/ d = 5 \/ d = 6
                \/ d = 7 \/ d = 8 \/ d = 9)%N) by lia.
  repeat destruct Hc as [-> | Hc]; try subst d;
    (split; [reflexivity | split; [reflexivity |]]; intros E;
     (reflexivity || discriminate E)).
Qed.

Lemma digits_from_step fuel n acc :
  digits_from (S fuel) n acc
  = if (n / 10 =? 0)%N then String (digit_char (n mod 10)) acc
    else digits_from fuel (n / 10) (String (digit_char (n mod 10)) acc).
Proof. reflexivity. Qed.

Lemma digits_from_spec fuel n acc :
  (n < 2 ^ N.of_nat (S fuel))%N ->
  exists ds, digits_from (S fuel) n acc = ds +:+ acc /\ decimal_of n ds.
Proof.
  revert n acc. induction fuel as [| fuel IH]; intros n acc Hn.
  - assert (Hs : (n < 2)%N) by exact Hn.
    rewrite digits_from_step, (N.div_small n 10) by lia. cbn [N.eqb].
    rewrite N.mod_small by lia.
    destruct (digit_char_spec n) as (H1 & H2 & H3); [lia |].
    exists (String (digit_char n) ""). split; [reflexivity |].
    split; cbn; [now rewrite H1 | now rewrite H2 | exact H3 | lia].
  - rewrite digits_from_step. destruct (N.eqb_spec (n / 10) 0) as [E | E].
    + assert (Hs : (n < 10)%N).
      { destruct (N.lt_ge_cases n 10) as [|Hge]; [assumption |].
        pose proof (N.Div0.div_le_mono 10 n 10 Hge) as Hd.
        rewrite N.div_same in Hd by lia. lia. }
      rewrite N.mod_small by lia.
      destruct (digit_char_spec n) as (H1 & H2 & H3); [lia |].
      exists (String (digit_char n) ""). split; [reflexivity |].
      split; cbn; [now rewrite H1 | now rewrite H2 | exact H3 | lia].
    + assert (Hq : (n / 10 < 2 ^ N.of_nat (S fuel))%N).
      { rewrite (Nat2N.inj_succ (S fuel)), N.pow_succ_r' in Hn.
        apply N.Div0.div_lt_upper_bound. lia. }
      destruct (IH (n / 10)%N (String (digit_char (n mod 10)) acc) Hq)
        as (ds & Eds & [D1 D2 D3 D4]).
      destruct (digit_char_spec (n mod 10)) as (H1 & H2 & _).
      { apply N.mod_lt. lia. }
      exists (ds +:+ String (digit_char (n mod 10)) "").
      split; [rewrite Eds, app_assoc; reflexivity |].
      split.
      * rewrite all_digits_app, D1. cbn. now rewrite H1.
      * rewrite digits_value_app, D2. cbn. rewrite H2.
        pose proof (N.div_mod' n 10). lia.
      * destruct ds as [| c ds]; [contradiction |]. cbn.
        intros Ec. specialize (D3 Ec). contradiction.
      * intros _. rewrite length_app. cbn [String.length].
        replace (Nat.pred (String.length ds + 1)) with
          (S (Nat.pred (String.length ds))).
        2:{ destruct ds; [contradiction | cbn; lia]. }
        rewrite Nat2N.inj_succ, N.pow_succ_r'.
        assert (H0 : (0 < n / 10)%N) by lia. specialize (D4 H0).
        pose proof (N.div_mod' n 10). lia.
Qed.

Lemma digits_spec n : decimal_of n (digits n).
Proof.
  destruct (digits_from_spec (N.to_nat (N.log2 n)) n "") as (ds & E & H).
  - rewrite Nat2N.inj_succ, N2Nat.id. destruct n as [| p]; [reflexivity |].
    apply N.log2_spec. lia.
  - unfold digits. rewrite E, app_nil_r. exact H.
Qed.

(** ** Reading a number back from its text *)

Lemma digit_is_plain c :
  is_digit c = true ->
  is_json_space c = false /\ Ascii.eqb c "{" = false /\
  Ascii.eqb c "[" = false /\ Ascii.eqb c quote_mark = false /\
  Ascii.eqb c "t" = false /\ Ascii.eqb c "f" = false /\
  Ascii.eqb c "n" = false /\ Ascii.eqb c "-" = false.
Proof.
  destruct c as [[] [] [] [] [] [] [] []]; intros H; cbv in H;
    try discriminate H; repeat split; reflexivity.
Qed.

(** A text that starts with a digit or a minus sign is read as a number. *)
Lemma parse_value_number fuel c r x rest :
  is_digit c = true \/ c = "-"%char ->
  parse_number (String c r) = Some (x, rest) ->
  parse_value (S fuel) (String c r) = Some (VNum x, rest).
Proof.
  intros Hc Hp.
  assert (H : is_json_space c = false /\ Ascii.eqb c "{" = false /\
              Ascii.eqb c "[" = false /\ Ascii.eqb c quote_mark = false /\
              Ascii.eqb c "t" = false /\ Ascii.eqb c "f" = false /\
              Ascii.eqb c "n" = false).
  { destruct Hc as [Hc | ->]; [| repeat split; reflexivity].
    destruct (digit_is_plain c Hc) as (? & ? & ? & ? & ? & ? & ? & _).
    repeat split; assumption. }
  destruct H as (H1 & H2 & H3 & H4 & H5 & H6 & H7).
  cbn -[parse_number Ascii.eqb is_json_space].
  rewrite H1, H2, H3, H4, H5, H6, H7, Hp. reflexivity.
Qed.

Lemma JSON_parse_number c r x :
  is_digit c = true \/ c = "-"%char ->
  parse_number (String c r) = Some (x, EmptyString) ->
  JSON_parse (VStr (String c r)) = Ret (VNum x).
Proof.
  intros Hc Hp. unfold JSON_parse. cbn [ToString obind].
  rewrite (parse_value_number _ c r x "" Hc Hp). reflexivity.
Qed.

Lemma parse_int_digits c ds rest :
  is_digit c = true -> c <> "0"%char -> all_digits ds = true -> stops rest ->
  parse_int (String c ds +:+ rest) = Some (String c ds, rest).
Proof.
  intros Hc H0 Hd Hr. unfold parse_int. cbn [String.append].
  destruct (Ascii.eqb_spec c "0") as [E | _]; [contradiction |].
  rewrite Hc. change (String c (ds +:+ rest)) with (String c ds +:+ rest).
  rewrite span_digits_app; [reflexivity | cbn; now rewrite Hc | exact Hr].
Qed.

Lemma parse_frac_some f rest :
  all_digits f = true -> f <> EmptyString -> stops rest ->
  parse_frac ("." +:+ f +:+ rest) = Some (f, rest).
Proof.
  intros Hd Hf Hr. cbn [String.append parse_frac].
  rewrite span_digits_app by assumption.
  destruct f; [contradiction | reflexivity].
Qed.

Lemma exponent_part_signed (n : Z) :
  exponent_part
    ("e" +:+ (if 0 <=? n then "+" else "-") +:+ digits (Z.to_N (Z.abs n)))
  = Some (n, EmptyString).
Proof.
  destruct (digits_spec (Z.to_N (Z.abs n))) as [D1 D2 D3 _].
  assert (Hs : span_digits (digits (Z.to_N (Z.abs n)))
               = (digits (Z.to_N (Z.abs n)), EmptyString)).
  { rewrite <- (app_nil_r (digits _)) at 1.
    now apply span_digits_app. }
  destruct (Z.leb_spec 0 n) as [Hn | Hn];
    cbn [String.append exponent_part Ascii.eqb Bool.eqb orb]; rewrite Hs;
    destruct (digits (Z.to_N (Z.abs n))) as [| c ds]; try contradiction;
    rewrite D2; cbn [cond_Zopp]; f_equal; f_equal; lia.
Qed.

Lemma of_decimal_scale neg (d : N) (j : nat) :
  (0 < d)%N ->
  of_decimal neg (d * 10 ^ N.of_nat j) 0 = of_decimal neg d (Z.of_nat j).
Proof.
  intros Hd. destruct d as [| p]; [lia |].
  assert (Hpow : (0 < 10 ^ N.of_nat j)%N) by (apply N.neq_0_lt_0, N.pow_nonzero; lia).
  destruct (N.pos p * 10 ^ N.of_nat j)%N as [| p'] eqn:E; [lia |].
  unfold of_decimal. destruct (Z.leb_spec 0 (Z.of_nat j)) as [_ | H]; [| lia].
  cbn [Z.leb Z.compare]. f_equal. apply Pos2Z.inj.
  rewrite !Pos2Z.inj_mul. change (Z.pos (Z.to_pos (10 ^ 0))) with 1.
  rewrite Z2Pos.id by (apply Z.pow_pos_nonneg; lia).
  change (Z.pos p') with (Z.of_N (N.pos p')). rewrite <- E.
  rewrite N2Z.inj_mul, N2Z.inj_pow, nat_N_Z. cbn. lia.
Qed.

(** The text laid out for the digits of [d] and the exponent [n] reads back
    as [d * 10^(n - k)], [k] being the number of digits. *)
Lemma parse_layout neg (d : N) (n : Z) :
  (0 < d)%N ->
  parse_unsigned neg (layout (digits d) n)
  = Some (of_decimal neg d (n - Z.of_nat (String.length (digits d))),
          EmptyString).
Proof.
  intros Hd. destruct (digits_spec d) as [D1 D2 D3 _].
  destruct (digits d) as [| c ds] eqn:Eds; [contradiction |].
  assert (Hc0 : c <> "0"%char) by (intros E; specialize (D3 E); lia).
  cbn [all_digits] in D1. apply andb_true_iff in D1 as [Hc Hds].
  set (k := Z.of_nat (String.length (String c ds))).
  assert (Hk : k = Z.of_nat (String.length ds) + 1).
  { unfold k. cbn [String.length]. lia. }
  unfold layout. fold k.
  destruct ((-6 <? n) && (n <=? 21)) eqn:Hrange.
  - destruct (Z.leb_spec k n) as [Hkn | Hkn].
    + (* digits followed by zeros *)
      unfold parse_unsigned.
      rewrite <- (app_nil_r (String c ds +:+ zeros _)).
      change (String c ds +:+ zeros (Z.to_nat (n - k)))
        with (String c (ds +:+ zeros (Z.to_nat (n - k)))).
      rewrite parse_int_digits;
        [| assumption.. | now rewrite all_digits_app, Hds, all_digits_zeros
         | exact I].
      cbn [parse_frac exponent_part String.length].
      rewrite app_nil_r.
      change (String c (ds +:+ zeros (Z.to_nat (n - k))))
        with (String c ds +:+ zeros (Z.to_nat (n - k))).
      rewrite digits_value_app, D2, digits_value_zeros.
      rewrite of_decimal_scale by exact Hd. same_exponent.
    + destruct (Z.ltb_spec 0 n) as [Hn | Hn].
      * (* a point inside the digits *)
        unfold parse_unsigned.
        destruct (all_digits_take_drop (Z.to_nat n) (String c ds))
          as [Ht Hdr]; [cbn; now rewrite Hc |].
        assert (Hlen : String.length (drop (Z.to_nat n) (String c ds))
                       = Z.to_nat (k - n)).
        { rewrite length_drop. unfold k. lia. }
        destruct (Z.to_nat n) as [| n'] eqn:En; [lia |].
        cbn [take] in *.
        rewrite parse_int_digits;
          [| assumption.. | now apply andb_true_iff in Ht | reflexivity].
        rewrite <- (app_nil_r (drop (S n') (String c ds))).
        rewrite parse_frac_some; [| assumption | | exact I].
        2:{ intros E. rewrite E in Hlen. cbn in Hlen. lia. }
        cbn [exponent_part].
        change (String c (take n' ds)) with (take (S n') (String c ds)).
        rewrite take_drop, D2, Hlen. same_exponent.
      * (* zero, a point, zeros and the digits *)
        unfold parse_unsigned.
        change ("0." +:+ zeros (Z.to_nat (- n)) +:+ String c ds)%string
          with (String "0" ("." +:+ (zeros (Z.to_nat (- n)) +:+ String c ds))).
        cbn [parse_int Ascii.eqb Bool.eqb].
        rewrite <- (app_nil_r (zeros _ +:+ String c ds)).
        rewrite parse_frac_some;
          [| now rewrite all_digits_app, all_digits_zeros; cbn; rewrite Hc
           | destruct (Z.to_nat (- n)); discriminate | exact I].
        cbn [exponent_part].
        change ("0" +:+ zeros (Z.to_nat (- n)) +:+ String c ds)%string
          with (zeros (S (Z.to_nat (- n))) +:+ String c ds).
        rewrite digits_value_app, digits_value_zeros.
        rewrite N.mul_0_l, D2, length_app, length_zeros.
        unfold k. cbn [String.length]. same_exponent.
  - destruct (Z.eqb_spec k 1) as [Hk1 | Hk1].
    + (* one digit and an exponent *)
      assert (ds = EmptyString) as ->.
      { destruct ds; [reflexivity | cbn [String.length] in Hk; lia]. }
      unfold parse_unsigned. rewrite parse_int_digits; try assumption;
        [| reflexivity].
      change (parse_frac ("e" +:+ ?s)) with (Some (EmptyString, "e" +:+ s)).
      cbv iota beta. rewrite exponent_part_signed.
      rewrite app_nil_r, D2. unfold k. cbn [String.length]. same_exponent.
    + (* one digit, a point, the other digits and an exponent *)
      assert (Hne : ds <> EmptyString).
      { intros ->. cbn [String.length] in Hk. lia. }
      unfold parse_unsigned. cbn [take drop].
      change (String c "" +:+ "." +:+ ?s)
        with (String c "" +:+ ("." +:+ s)).
      rewrite parse_int_digits; try assumption; [| reflexivity..].
      rewrite parse_frac_some; [| assumption.. | reflexivity].
      cbv iota beta. rewrite exponent_part_signed.
      change (String c "" +:+ ds) with (String c ds).
      rewrite D2. unfold k. cbn [String.length]. same_exponent.
Qed.

(** ** The shortest decimal *)

Lemma strip_ten_positive (c : N * Z) : (0 < fst c)%N -> (0 < fst (strip_ten c))%N.
Proof.
  intros H. unfold strip_ten. destruct (N.eqb_spec (fst c mod 10) 0) as [E | _];
    [| exact H].
  cbn [fst]. pose proof (N.div_mod' (fst c) 10). lia.
Qed.

Lemma shortest_positive more m e D q :
  (10 ^ N.of_nat more <= D)%N -> (0 < D)%N ->
  (0 < fst (shortest more m e D q))%N.
Proof.
  induction more as [| more IH]; intros Hsize HD; [exact HD |].
  assert (Hp : (0 < 10 ^ N.of_nat (S more))%N).
  { apply N.neq_0_lt_0, N.pow_nonzero. lia. }
  assert (Hlo : (0 < D / 10 ^ N.of_nat (S more))%N).
  { apply N.div_str_pos. lia. }
  pose proof (strip_ten_positive
                ((D / 10 ^ N.of_nat (S more) + 1)%N, q + Z.of_nat (S more))
                ltac:(cbn [fst]; lia)) as Hhi.
  cbn [shortest].
  repeat match goal with
         | |- context [if ?b then _ else _] => destruct b
         | |- context [match ?b with true => _ | false => _ end] => destruct b
         end; try assumption.
  apply IH; [| exact HD].
  rewrite Nat2N.inj_succ, N.pow_succ_r' in Hsize. lia.
Qed.

Lemma shortest_reads_back more m e D q :
  reads_back m e (D, q) = true ->
  reads_back m e (shortest more m e D q) = true.
Proof.
  intros HD. induction more as [| more IH]; [exact HD |].
  cbn [shortest].
  destruct (reads_back m e ((D / 10 ^ N.of_nat (S more))%N,
                            q + Z.of_nat (S more))) eqn:Elo;
    destruct (reads_back m e (strip_ten _)) eqn:Ehi;
    repeat match goal with
           | |- context [if ?b then _ else _] => destruct b
           end; assumption.
Qed.

Lemma exact_decimal_positive m e : (0 < fst (exact_decimal m e))%N.
Proof.
  unfold exact_decimal. destruct (0 <=? e); cbn [fst];
    apply N.mul_pos_pos; try lia; apply N.neq_0_lt_0, N.pow_nonzero; lia.
Qed.

Lemma shortest_decimal_positive m e : (0 < fst (shortest_decimal m e))%N.
Proof.
  unfold shortest_decimal. pose proof (exact_decimal_positive m e) as HD.
  destruct (exact_decimal m e) as [D q]. cbn [fst] in HD.
  apply shortest_positive; [| exact HD].
  apply (decimal_size _ _ (digits_spec D)). exact HD.
Qed.

Lemma shortest_decimal_reads_back m e :
  reads_back m e (exact_decimal m e) = true ->
  reads_back m e (shortest_decimal m e) = true.
Proof.
  unfold shortest_decimal. destruct (exact_decimal m e) as [D q].
  apply shortest_reads_back.
Qed.

Lemma parse_unsigned_head neg t x :
  parse_unsigned neg t = Some x ->
  exists c r, t = String c r /\ is_digit c = true.
Proof.
  unfold parse_unsigned, parse_int. destruct t as [| c r]; [discriminate |].
  destruct (Ascii.eqb_spec c "0") as [-> | _]; [intros _; now exists "0"%char, r |].
  destruct (is_digit c) eqn:Hc; [| discriminate]. intros _. now exists c, r.
Qed.

(** The text of a finite Number other than zero decodes to the Number its
    shortest decimal denotes. *)
Lemma JSON_parse_Number_toString s m e :
  JSON_parse (VStr (Number_toString (S754_finite s m e)))
  = Ret (VNum (of_decimal s (fst (shortest_decimal m e))
                 (snd (shortest_decimal m e)))).
Proof.
  pose proof (shortest_decimal_positive m e) as Hpos.
  unfold Number_toString.
  destruct (shortest_decimal m e) as [d j]. cbn [fst snd] in *.
  pose proof (parse_layout s d (j + Z.of_nat (String.length (digits d))) Hpos)
    as Hp.
  replace (j + Z.of_nat (String.length (digits d))
           - Z.of_nat (String.length (digits d))) with j in Hp by lia.
  destruct s.
  - change ("-" +:+ ?t)%string with (String "-" t).
    apply JSON_parse_number; [now right | exact Hp].
  - change ("" +:+ ?t)%string with t.
    destruct (parse_unsigned_head _ _ _ Hp) as (c & r & E & Hc).
    rewrite E in *. apply JSON_parse_number; [now left |].
    unfold parse_number.
    destruct (digit_is_plain c Hc) as (_ & _ & _ & _ & _ & _ & _ & ->).
    exact Hp.
Qed.

(** *** Signs *)

Lemma round_ratio_sign neg num den :
  match round_ratio false num den with
  | S754_zero _ => round_ratio neg num den = S754_zero neg
  | S754_infinity _ => round_ratio neg num den = S754_infinity neg
  | S754_nan => round_ratio neg num den = S754_nan
  | S754_finite _ m e => round_ratio neg num den = S754_finite neg m e
  end.
Proof.
  unfold round_ratio.
  destruct (SFdiv_core_binary _ _ _ _ _ _) as [[q e] l].
  unfold binary_round_aux.
  destruct (shr_fexp prec emax q e l) as [r1 e1].
  destruct (shr_fexp prec emax _ e1 loc_Exact) as [r2 e2].
  destruct (shr_m r2); [reflexivity | | reflexivity].
  destruct (e2 <=? emax - prec); reflexivity.
Qed.

Lemma of_decimal_sign neg d j :
  match of_decimal false d j with
  | S754_zero _ => of_decimal neg d j = S754_zero neg
  | S754_infinity _ => of_decimal neg d j = S754_infinity neg
  | S754_nan => of_decimal neg d j = S754_nan
  | S754_finite _ m e => of_decimal neg d j = S754_finite neg m e
  end.
Proof.
  unfold of_decimal. destruct d as [| p]; [reflexivity |].
  destruct (0 <=? j); apply round_ratio_sign.
Qed.

Lemma same_true x y : same x y = true -> x = y.
Proof.
  destruct x as [s | s | | s m e], y as [t | t | | t n f]; cbn;
    try discriminate; try reflexivity.
  - intros H. apply eqb_prop in H. now subst.
  - intros H. apply eqb_prop in H. now subst.
  - intros H. apply andb_true_iff in H as [H He].
    apply andb_true_iff in H as [Hs Hm].
    apply eqb_prop in Hs. apply Pos.eqb_eq in Hm. apply Z.eqb_eq in He.
    now subst.
Qed.

(** A decimal without a minus sign is never below zero. *)
Lemma of_decimal_not_negative d j : flt (of_decimal false d j) pos_zero = false.
Proof.
  pose proof (of_decimal_sign false d j) as H.
  destruct (of_decimal false d j) as [s | s | | s m e];
    try (injection H as ->); reflexivity.
Qed.

(** ** Round trips *)

Lemma number_round_trip x :
  valid x = true -> is_finite x = true ->
  JSON_parse (VStr (number_text x)) = Ret (VNum (read_back x)).
Proof.
  intros Hv Hf. unfold number_text. rewrite Hf.
  destruct x as [s | s | | s m e]; try discriminate Hf.
  - reflexivity.
  - rewrite JSON_parse_Number_toString. cbn [read_back].
    pose proof (shortest_decimal_reads_back m e
                  (exact_decimal_reads_back m e Hv)) as Hr.
    apply same_true in Hr.
    pose proof (of_decimal_sign s (fst (shortest_decimal m e))
                  (snd (shortest_decimal m e))) as Hs.
    rewrite Hr in Hs. rewrite Hs. reflexivity.
Qed.

Lemma feq_read_back x : is_finite x = true -> feq (read_back x) x = true.
Proof.
  destruct x as [s | s | | s m e]; try discriminate; intros _;
    [reflexivity |].
  unfold feq, SFeqb, SFcompare, read_back.
  destruct s; rewrite Z.compare_refl, Pos.compare_cont_refl; reflexivity.
Qed.

Lemma parse_quoted_char c t :
  parse_chars (quote_char c +:+ t)
  = match parse_chars t with
    | Some (u, r) => Some (String c u, r)
    | None => None
    end.
Proof. destruct c as [[] [] [] [] [] [] [] []]; reflexivity. Qed.

Lemma parse_quoted_chars s rest :
  parse_chars (quote_chars s +:+ String quote_mark rest) = Some (s, rest).
Proof.
  induction s as [| c s IH]; [reflexivity |].
  cbn [quote_chars]. rewrite app_assoc, parse_quoted_char, IH. reflexivity.
Qed.

(** A string reads back from its JSON text. *)
Lemma string_round_trip s :
  JSON_parse (VStr (QuoteJSONString s)) = Ret (VStr s).
Proof.
  unfold JSON_parse, QuoteJSONString. cbn [ToString obind].
  set (fuel := String.length _).
  change (parse_value (S fuel) (String quote_mark ?t))
    with (match parse_chars t with
          | Some (u, r1) => Some (VStr u, r1)
          | None => None
          end).
  rewrite parse_quoted_chars. reflexivity.
Qed.

(** ** Values inside arrays and objects *)

Lemma closes_stops rest : closes rest -> stops rest.
Proof.
  destruct rest as [| c r]; [trivial |]. intros [-> | [-> | ->]]; reflexivity.
Qed.

Lemma span_digits_suffix t rest :
  stops rest ->
  span_digits (t +:+ rest) = (fst (span_digits t), snd (span_digits t) +:+ rest).
Proof.
  intros Hr. induction t as [| c t IH].
  - destruct rest as [| c r]; [reflexivity |]. cbn in *. now rewrite Hr.
  - cbn [String.append span_digits]. destruct (is_digit c); [| reflexivity].
    rewrite IH. now destruct (span_digits t).
Qed.

Lemma parse_int_suffix t rest i s2 :
  stops rest -> parse_int t = Some (i, s2) ->
  parse_int (t +:+ rest) = Some (i, s2 +:+ rest).
Proof.
  intros Hr. unfold parse_int. destruct t as [| c r]; [discriminate |].
  cbn [String.append]. destruct (Ascii.eqb c "0").
  - intros H. now injection H as <- <-.
  - destruct (is_digit c); [| discriminate]. intros H.
    change (String c (r +:+ rest)) with (String c r +:+ rest).
    rewrite span_digits_suffix by exact Hr.
    assert (H' : span_digits (String c r) = (i, s2)) by congruence.
    rewrite H'. reflexivity.
Qed.

Lemma parse_frac_eq c r :
  parse_frac (String c r)
  = if Ascii.eqb c "."
    then match span_digits r with
         | (EmptyString, _) => None
         | (d, r1) => Some (d, r1)
         end
    else Some (EmptyString, String c r).
Proof. destruct c as [[] [] [] [] [] [] [] []]; reflexivity. Qed.

Lemma parse_frac_suffix s2 rest f s3 :
  closes rest -> parse_frac s2 = Some (f, s3) ->
  parse_frac (s2 +:+ rest) = Some (f, s3 +:+ rest).
Proof.
  intros Hr. destruct s2 as [| c r].
  - intros H. injection H as <- <-. cbn [String.append].
    destruct rest as [| c r]; [reflexivity |]. rewrite parse_frac_eq.
    destruct Hr as [-> | [-> | ->]]; reflexivity.
  - cbn [String.append]. rewrite !parse_frac_eq.
    destruct (Ascii.eqb c ".").
    + rewrite span_digits_suffix by now apply closes_stops.
      destruct (span_digits r) as [[| d ds] r1]; [discriminate |].
      intros H. injection H as <- <-. reflexivity.
    + intros H. injection H as <- <-. reflexivity.
Qed.

Lemma exponent_part_eq c r :
  exponent_part (String c r)
  = if Ascii.eqb c "e" || Ascii.eqb c "E" then
      let '(neg, r1) :=
        match r with
        | String c1 r1 =>
            if Ascii.eqb c1 "-" then (true, r1)
            else if Ascii.eqb c1 "+" then (false, r1)
            else (false, r)
        | EmptyString => (false, r)
        end in
      match span_digits r1 with
      | (EmptyString, _) => None
      | (d, r2) => Some (cond_Zopp neg (Z.of_N (digits_value d 0)), r2)
      end
    else Some (0, String c r).
Proof.
  unfold exponent_part. destruct r as [| c1 r1]; [reflexivity |].
  destruct c1 as [[] [] [] [] [] [] [] []]; reflexivity.
Qed.

Lemma exponent_part_suffix s3 rest x :
  closes rest -> exponent_part s3 = Some (x, EmptyString) ->
  exponent_part (s3 +:+ rest) = Some (x, rest).
Proof.
  intros Hr. destruct s3 as [| c r].
  - intros H. injection H as <-. cbn [String.append].
    destruct rest as [| c r]; [reflexivity |]. rewrite exponent_part_eq.
    destruct Hr as [-> | [-> | ->]]; reflexivity.
  - cbn [String.append]. rewrite !exponent_part_eq.
    destruct (Ascii.eqb c "e" || Ascii.eqb c "E"); [| discriminate].
    assert (Hspan : forall neg r1,
               match span_digits r1 with
               | (EmptyString, _) => None
               | (d, r2) => Some (cond_Zopp neg (Z.of_N (digits_value d 0)), r2)
               end = Some (x, EmptyString) ->
               match span_digits (r1 +:+ rest) with
               | (EmptyString, _) => None
               | (d, r2) => Some (cond_Zopp neg (Z.of_N (digits_value d 0)), r2)
               end = Some (x, rest)).
    { intros neg r1. rewrite span_digits_suffix by now apply closes_stops.
      destruct (span_digits r1) as [[| d ds] r2]; [discriminate |].
      cbn [fst snd]. intros H. injection H as <- ->. reflexivity. }
    destruct r as [| c1 r1].
    + cbn [span_digits]. discriminate.
    + cbn [String.append].
      destruct (Ascii.eqb c1 "-"); [apply Hspan |].
      destruct (Ascii.eqb c1 "+"); [apply Hspan |].
      apply (Hspan false (String c1 r1)).
Qed.

Lemma parse_unsigned_suffix neg t rest x :
  closes rest -> parse_unsigned neg t = Some (x, EmptyString) ->
  parse_unsigned neg (t +:+ rest) = Some (x, rest).
Proof.
  intros Hr. unfold parse_unsigned.
  destruct (parse_int t) as [[i s2] |] eqn:Ei; [| discriminate].
  rewrite (parse_int_suffix t rest i s2 (closes_stops _ Hr) Ei).
  destruct (parse_frac s2) as [[f s3] |] eqn:Ef; [| discriminate].
  rewrite (parse_frac_suffix s2 rest f s3 Hr Ef).
  destruct (exponent_part s3) as [[y s4] |] eqn:Ee; [| discriminate].
  intros H. injection H as <- ->.
  now rewrite (exponent_part_suffix s3 rest y Hr Ee).
Qed.

(** The text of a finite Number is read as that Number, whatever closes
    it. *)
Lemma number_text_parses x rest :
  valid x = true -> is_finite x = true -> closes rest ->
  exists c r,
    number_text x = String c r /\
    (is_digit c = true \/ c = "-"%char) /\
    parse_number (String c r +:+ rest) = Some (read_back x, rest).
Proof.
  intros Hv Hf Hr. unfold number_text. rewrite Hf.
  destruct x as [s | s | | s m e]; try discriminate Hf.
  - exists "0"%char, EmptyString. split; [reflexivity |]. split; [now left |].
    change (parse_number ("0" +:+ rest))
      with (parse_unsigned false ("0" +:+ rest)).
    now apply parse_unsigned_suffix.
  - pose proof (shortest_decimal_reads_back m e
                  (exact_decimal_reads_back m e Hv)) as Hback.
    apply same_true in Hback.
    pose proof (of_decimal_sign s (fst (shortest_decimal m e))
                  (snd (shortest_decimal m e))) as Hs.
    rewrite Hback in Hs. cbn [read_back].
    pose proof (shortest_decimal_positive m e) as Hpos.
    unfold Number_toString.
    destruct (shortest_decimal m e) as [d j]. cbn [fst snd] in *.
    pose proof (parse_layout s d (j + Z.of_nat (String.length (digits d))) Hpos)
      as Hp.
    replace (j + Z.of_nat (String.length (digits d))
             - Z.of_nat (String.length (digits d))) with j in Hp by lia.
    rewrite Hs in Hp.
    destruct s.
    + change ("-" +:+ ?t)%string with (String "-" t).
      exists "-"%char, (layout (digits d) (j + Z.of_nat (String.length (digits d)))).
      split; [reflexivity |]. split; [now right |].
      cbn [String.append parse_number Ascii.eqb Bool.eqb].
      now apply parse_unsigned_suffix.
    + change ("" +:+ ?t)%string with t.
      destruct (parse_unsigned_head _ _ _ Hp) as (c & r & E & Hc).
      rewrite E in *. exists c, r. split; [reflexivity |]. split; [now left |].
      cbn [String.append]. unfold parse_number.
      destruct (digit_is_plain c Hc) as (_ & _ & _ & _ & _ & _ & _ & ->).
      change (String c (r +:+ rest)) with (String c r +:+ rest).
      now apply parse_unsigned_suffix.
Qed.

Lemma value_induction (P : value -> Prop) :
  P VUndefined -> P VNull -> (forall b, P (VBool b)) -> (forall x, P (VNum x)) ->
  (forall s, P (VStr s)) ->
  (forall items, Forall P items -> P (VArr items)) ->
  (forall props, Forall (fun kv => P (snd kv)) props -> P (VObj props)) ->
  forall v, P v.
Proof.
  intros Hu Hn Hb Hx Hs Ha Ho.
  fix IH 1.
  intros [| | b | x | s | items | props];
    [exact Hu | exact Hn | apply Hb | apply Hx | apply Hs | |].
  - apply Ha. induction items as [| w l IHl]; constructor; [apply IH | exact IHl].
  - apply Ho. induction props as [| kv l IHl]; constructor; [apply IH | exact IHl].
Qed.

(** *** The shape of the texts *)

Lemma serialize_some v : v <> VUndefined -> serialize v = Some (json_text v).
Proof. unfold json_text. destruct v; try reflexivity. contradiction. Qed.

Lemma carried_defined v : carried v -> v <> VUndefined.
Proof. intros H. inversion H; discriminate. Qed.

Lemma digit_opens c : is_digit c = true \/ c = "-"%char ->
  is_json_space c = false /\ Ascii.eqb c "]" = false /\ Ascii.eqb c "}" = false.
Proof.
  intros [H | ->]; [| repeat split; reflexivity].
  destruct c as [[] [] [] [] [] [] [] []]; cbv in H; try discriminate H;
    repeat split; reflexivity.
Qed.

Lemma json_text_opens v : carried v -> opens (json_text v).
Proof.
  intros H. inversion H as [| b | x Hv Hf | s | items Hi | props Hn He Hp];
    subst; try (repeat split; reflexivity).
  - destruct b; repeat split; reflexivity.
  - destruct (number_text_parses x EmptyString Hv Hf I) as (c & r & E & Hc & _).
    change (json_text (VNum x)) with (number_text x). rewrite E.
    now apply digit_opens.
Qed.

Lemma opens_skip t rest : opens t -> skip_ws (t +:+ rest) = t +:+ rest.
Proof.
  destruct t as [| c r]; [contradiction |]. intros (H & _).
  cbn [String.append skip_ws]. now rewrite H.
Qed.

Lemma opens_length t : opens t -> (1 <= String.length t)%nat.
Proof. destruct t; [contradiction |]. cbn. lia. Qed.

Lemma closes_skip rest : closes rest -> skip_ws rest = rest.
Proof.
  destruct rest as [| c r]; [reflexivity |].
  intros [-> | [-> | ->]]; reflexivity.
Qed.

(** *** One step of the parser *)

Lemma parse_value_word fuel (word : string) v rest :
  (word = "true"%string /\ v = VBool true) \/
  (word = "false"%string /\ v = VBool false) \/
  (word = "null"%string /\ v = VNull) ->
  parse_value (S fuel) (word +:+ rest) = Some (v, rest).
Proof.
  intros [[-> ->] | [[-> ->] | [-> ->]]]; cbn; unfold parse_word; cbn;
    now destruct rest.
Qed.

Lemma parse_value_string fuel s rest :
  parse_value (S fuel) (QuoteJSONString s +:+ rest) = Some (VStr s, rest).
Proof.
  unfold QuoteJSONString. cbn [String.append]. rewrite app_assoc.
  cbn [String.append].
  change (parse_value (S fuel) (String quote_mark ?t))
    with (match parse_chars t with
          | Some (u, r1) => Some (VStr u, r1)
          | None => None
          end).
  now rewrite parse_quoted_chars.
Qed.

Lemma parse_value_array fuel r :
  parse_value (S fuel) (String "[" r)
  = match skip_ws r with
    | String c r1 =>
        if Ascii.eqb c "]" then Some (VArr [], r1)
        else parse_elements fuel (String c r1) []
    | EmptyString => parse_elements fuel EmptyString []
    end.
Proof.
  cbn -[skip_ws parse_elements parse_members].
  change (skip_ws (String "[" r)) with (String "[" r).
  cbn -[skip_ws parse_elements parse_members].
  destruct (skip_ws r) as [| c r1]; [reflexivity |].
  destruct c as [[] [] [] [] [] [] [] []]; reflexivity.
Qed.

Lemma parse_value_object fuel r :
  parse_value (S fuel) (String "{" r)
  = match skip_ws r with
    | String c r1 =>
        if Ascii.eqb c "}" then Some (VObj [], r1)
        else parse_members fuel (String c r1) []
    | EmptyString => parse_members fuel EmptyString []
    end.
Proof.
  cbn -[skip_ws parse_elements parse_members].
  change (skip_ws (String "{" r)) with (String "{" r).
  cbn -[skip_ws parse_elements parse_members].
  destruct (skip_ws r) as [| c r1]; [reflexivity |].
  destruct c as [[] [] [] [] [] [] [] []]; reflexivity.
Qed.

Lemma parse_elements_step fuel s acc v r c r1 :
  parse_value fuel s = Some (v, r) -> skip_ws r = String c r1 ->
  parse_elements (S fuel) s acc
  = if Ascii.eqb c "," then parse_elements fuel r1 (v :: acc)
    else if Ascii.eqb c "]" then Some (VArr (rev (v :: acc)), r1)
    else None.
Proof.
  intros Hv Hs. cbn -[skip_ws parse_value rev]. 
  change (parse_value fuel s) with (parse_value fuel s). rewrite Hv, Hs.
  destruct c as [[] [] [] [] [] [] [] []]; reflexivity.
Qed.

Lemma parse_members_step fuel r acc k r2 v r3 c r4 :
  parse_chars r = Some (k, String ":" r2) ->
  parse_value fuel r2 = Some (v, r3) -> skip_ws r3 = String c r4 ->
  parse_members (S fuel) (String quote_mark r) acc
  = if Ascii.eqb c "," then parse_members fuel r4 (define_prop k v acc)
    else if Ascii.eqb c "}" then Some (VObj (define_prop k v acc), r4)
    else None.
Proof.
  intros Hk Hv Hs. cbn -[skip_ws parse_value parse_chars define_prop].
  change (skip_ws (String quote_mark r)) with (String quote_mark r). cbv iota.
  cbn [Ascii.eqb Bool.eqb quote_mark]. rewrite Hk.
  change (skip_ws (String ":" r2)) with (String ":" r2). cbv iota.
  rewrite Hv, Hs.
  destruct c as [[] [] [] [] [] [] [] []]; reflexivity.
Qed.

Lemma define_prop_fresh (k : string) v (acc : list (string * value)) :
  k ∉ map fst acc -> define_prop k v acc = acc ++ [(k, v)].
Proof.
  induction acc as [| [k0 v0] acc IH]; intros Hk; [reflexivity |].
  cbn [map fst] in Hk. apply not_elem_of_cons in Hk as [Hne Hk].
  cbn [define_prop app]. destruct (String.eqb_spec k0 k); [congruence |].
  now rewrite IH.
Qed.

(** *** The order of the properties *)

Lemma insert_index_map {A B} (g : string * A -> string * B) i kv
    (l : list (N * (string * A))) :
  insert_index i (g kv) (map (fun ikv => (fst ikv, g (snd ikv))) l)
  = map (fun ikv => (fst ikv, g (snd ikv))) (insert_index i kv l).
Proof.
  induction l as [| [j kw] l IH]; [reflexivity |].
  cbn [map insert_index fst snd]. destruct (i <? j)%N; [reflexivity |].
  cbn [map fst snd]. now rewrite IH.
Qed.

Lemma enumerate_map {A B} (f : A -> B) (props : list (string * A)) :
  enumerate (map (fun kv => (fst kv, f (snd kv))) props)
  = map (fun kv => (fst kv, f (snd kv))) (enumerate props).
Proof.
  set (g := fun kv : string * A => (fst kv, f (snd kv))).
  unfold enumerate. rewrite map_app. f_equal.
  - assert (H : forall acc,
               fold_left
                 (fun acc kv =>
                    match array_index (fst kv) with
                    | Some i => insert_index i kv acc
                    | None => acc
                    end) (map g props)
                 (map (fun ikv => (fst ikv, g (snd ikv))) acc)
               = map (fun ikv => (fst ikv, g (snd ikv)))
                   (fold_left
                      (fun acc kv =>
                         match array_index (fst kv) with
                         | Some i => insert_index i kv acc
                         | None => acc
                         end) props acc)).
    { induction props as [| kv props IH]; intros acc; [reflexivity |].
      cbn [map fold_left]. change (fst (g kv)) with (fst kv).
      destruct (array_index (fst kv)) as [i |]; [| apply IH].
      rewrite insert_index_map. apply IH. }
    specialize (H []). cbn [map] in H. fold g in H. rewrite H.
    rewrite !map_map. reflexivity.
  - induction props as [| kv props IH]; [reflexivity |].
    cbn [map List.filter]. change (fst (g kv)) with (fst kv).
    destruct (array_index (fst kv)); [exact IH |]. cbn [map]. now rewrite IH.
Qed.

Lemma json_text_array items :
  json_text (VArr items) = "[" +:+ join "," (map json_text items) +:+ "]".
Proof. reflexivity. Qed.

Lemma json_text_object props :
  enumerate props = props -> Forall (fun kv => snd kv <> VUndefined) props ->
  json_text (VObj props) = "{" +:+ join "," (map member_text props) +:+ "}".
Proof.
  intros He Hd. unfold json_text. cbn [serialize].
  rewrite (enumerate_map serialize props), He.
  assert (E : flat_map
                (fun kt : string * option string =>
                   match snd kt with
                   | Some t => [QuoteJSONString (fst kt) +:+ ":" +:+ t]
                   | None => []
                   end)
                (map (fun kv => (fst kv, serialize (snd kv))) props)
              = map member_text props).
  { clear He. induction Hd as [| kv props Hkv Hd IH]; [reflexivity |].
    cbn [map flat_map fst snd]. rewrite (serialize_some _ Hkv). cbn [app].
    f_equal. apply IH. }
  rewrite E. reflexivity.
Qed.

(** *** Reading a value back *)

Lemma parse_elements_texts (items : list value) :
  Forall carried items -> Forall reads_closed items -> items <> [] ->
  forall acc fuel rest,
    (String.length (join "," (map json_text items)) < fuel)%nat ->
    parse_elements fuel (join "," (map json_text items) +:+ String "]" rest) acc
    = Some (VArr (rev acc ++ map settle items), rest).
Proof.
  intros Hc Hr. induction items as [| v items IH]; [contradiction |].
  intros _ acc fuel rest Hfuel.
  apply Forall_cons in Hc as [Hv Hc]. apply Forall_cons in Hr as [Hrv Hr].
  pose proof (opens_length _ (json_text_opens v Hv)) as Hlen.
  destruct fuel as [| fuel]; [lia |].
  destruct items as [| v2 items].
  - cbn [map join] in *.
    rewrite (parse_elements_step fuel _ acc (settle v) (String "]" rest) "]" rest).
    + cbn [Ascii.eqb Bool.eqb rev map]. reflexivity.
    + apply Hrv; [lia | now right; left].
    + reflexivity.
  - assert (Ej : join "," (map json_text (v :: v2 :: items))
                 = json_text v +:+ "," +:+ join "," (map json_text (v2 :: items)))
      by reflexivity.
    rewrite Ej in *. rewrite length_app in Hfuel. cbn [String.length] in Hfuel.
    rewrite !app_assoc. cbn [String.append].
    rewrite (parse_elements_step fuel _ acc (settle v)
               (String "," (join "," (map json_text (v2 :: items))
                            +:+ String "]" rest)) ","
               (join "," (map json_text (v2 :: items)) +:+ String "]" rest)).
    + cbn [Ascii.eqb Bool.eqb]. rewrite IH; [| exact Hc | exact Hr | discriminate | ].
      * cbn [rev map]. now rewrite <- List.app_assoc.
      * rewrite length_app in Hfuel. cbn [String.length] in Hfuel. lia.
    + apply Hrv; [lia | now left].
    + reflexivity.
Qed.

Lemma parse_members_texts (props : list (string * value)) :
  Forall (fun kv => carried (snd kv)) props ->
  Forall (fun kv => reads_closed (snd kv)) props -> props <> [] ->
  forall acc fuel rest,
    (String.length (join "," (map member_text props)) < fuel)%nat ->
    NoDup (map fst acc ++ map fst props) ->
    parse_members fuel (join "," (map member_text props) +:+ String "}" rest) acc
    = Some (VObj (acc ++ map (fun kv => (fst kv, settle (snd kv))) props), rest).
Proof.
  intros Hc Hr. induction props as [| [k v] props IH]; [contradiction |].
  intros _ acc fuel rest Hfuel Hnd.
  apply Forall_cons in Hc as [Hv Hc]. apply Forall_cons in Hr as [Hrv Hr].
  cbn [fst snd] in Hv, Hrv.
  pose proof (opens_length _ (json_text_opens v Hv)) as Hlen.
  destruct fuel as [| fuel]; [lia |].
  assert (Hfresh : k ∉ map fst acc).
  { cbn [map fst] in Hnd. apply NoDup_app in Hnd as (_ & Hd & _).
    intros Hin. apply (Hd k Hin). apply list_elem_of_here. }
  assert (Hnd' : NoDup (map fst (acc ++ [(k, settle v)]) ++ map fst props)).
  { rewrite map_app. cbn [map fst]. rewrite <- List.app_assoc. exact Hnd. }
  assert (Hchars : forall tail,
             parse_chars (quote_chars k +:+ String quote_mark (String ":" tail))
             = Some (k, String ":" tail))
    by (intros; apply parse_quoted_chars).
  assert (Em : forall tail,
             member_text (k, v) +:+ tail
             = String quote_mark
                 (quote_chars k +:+
                  String quote_mark (String ":" (json_text v +:+ tail)))).
  { intros tail. unfold member_text, QuoteJSONString. cbn [fst snd String.append].
    rewrite !app_assoc. cbn [String.append]. reflexivity. }
  assert (Hq : (2 <= String.length (QuoteJSONString k))%nat).
  { unfold QuoteJSONString. cbn [String.length]. rewrite length_app.
    cbn [String.length]. lia. }
  destruct props as [| kv2 props].
  - cbn [map join] in *. rewrite Em.
    rewrite (parse_members_step fuel _ acc k _ (settle v) (String "}" rest) "}"
               rest (Hchars _)).
    + cbn [Ascii.eqb Bool.eqb]. now rewrite (define_prop_fresh k _ acc Hfresh).
    + apply Hrv; [| now right; right].
      unfold member_text in Hfuel. rewrite !length_app in Hfuel.
      cbn [fst snd String.length] in Hfuel. lia.
    + reflexivity.
  - assert (Ej : join "," (map member_text ((k, v) :: kv2 :: props))
                 = member_text (k, v) +:+ ","
                   +:+ join "," (map member_text (kv2 :: props)))
      by reflexivity.
    rewrite Ej in *. rewrite length_app in Hfuel. cbn [String.length] in Hfuel.
    rewrite !app_assoc. rewrite Em.
    rewrite (parse_members_step fuel _ acc k _ (settle v)
               (String "," (join "," (map member_text (kv2 :: props))
                            +:+ String "}" rest)) ","
               (join "," (map member_text (kv2 :: props)) +:+ String "}" rest)
               (Hchars _)).
    + cbn [Ascii.eqb Bool.eqb]. rewrite (define_prop_fresh k _ acc Hfresh).
      rewrite IH; [| exact Hc | exact Hr | discriminate | | exact Hnd'].
      * cbn [map fst snd]. now rewrite <- List.app_assoc.
      * rewrite length_app in Hfuel. cbn [String.length] in Hfuel.
        unfold member_text in Hfuel at 1. rewrite !length_app in Hfuel.
        cbn [fst snd String.length] in Hfuel. lia.
    + apply Hrv; [| now left].
      unfold member_text in Hfuel at 1. rewrite !length_app in Hfuel.
      cbn [fst snd String.length] in Hfuel. lia.
    + reflexivity.
Qed.

(** The text [JSON.stringify] writes for a carried value is read back as
    that value. *)
Lemma parse_json_text (v : value) : carried v -> reads_closed v.
Proof.
  induction v as [| | b | x | s | items IH | props IH] using value_induction;
    intros Hc fuel rest Hfuel Hrest.
  - inversion Hc.
  - destruct fuel; [cbn in Hfuel; lia |].
    apply (parse_value_word fuel "null"). now right; right.
  - destruct fuel; [destruct b; cbn in Hfuel; lia |].
    destruct b.
    + apply (parse_value_word fuel "true"). now left.
    + apply (parse_value_word fuel "false"). now right; left.
  - inversion Hc as [| | x' Hv Hf | | |]; subst.
    destruct (number_text_parses x rest Hv Hf Hrest) as (c & r & E & Hd & Hp).
    change (json_text (VNum x)) with (number_text x) in *. rewrite E in *.
    destruct fuel; [cbn in Hfuel; lia |].
    cbn [String.append] in *. now apply parse_value_number.
  - destruct fuel; [cbn in Hfuel; lia |]. apply parse_value_string.
  - inversion Hc as [| | | | items' Hi |]; subst.
    rewrite json_text_array in *. cbn [String.append String.length] in *.
    rewrite length_app in Hfuel. cbn [String.length] in Hfuel.
    destruct fuel as [| fuel]; [lia |]. rewrite parse_value_array.
    destruct items as [| v items]; [reflexivity |].
    assert (Hopen : opens (join "," (map json_text (v :: items)))).
    { apply Forall_cons in Hi as [Hv _].
      pose proof (json_text_opens v Hv) as Ho.
      destruct items; cbn [map join]; [exact Ho |].
      destruct (json_text v); [contradiction | exact Ho]. }
    rewrite app_assoc. cbn [String.append].
    rewrite (opens_skip _ _ Hopen).
    destruct (join "," (map json_text (v :: items))) as [| c t] eqn:Ej;
      [contradiction |].
    destruct Hopen as (_ & Hc1 & _). cbn [String.append]. rewrite Hc1.
    change (String c (t +:+ String "]" rest)) with (String c t +:+ String "]" rest).
    rewrite <- Ej. cbn [settle]. rewrite <- (app_nil_l (map settle (v :: items))).
    change (@nil value) with (rev (@nil value)) at 2.
    apply parse_elements_texts; [exact Hi | | discriminate | rewrite Ej in *; cbn in *; lia].
    clear - IH Hi. induction IH as [| w l Hw IH IHl]; constructor.
    + apply Forall_cons in Hi as [Hcw _]. now apply Hw.
    + apply Forall_cons in Hi as [_ Hi]. now apply IHl.
  - inversion Hc as [| | | | | props' Hn He Hp]; subst.
    assert (Hd : Forall (fun kv => snd kv <> VUndefined) props).
    { eapply Forall_impl; [exact Hp |]. intros kv. apply carried_defined. }
    rewrite (json_text_object props He Hd) in *.
    cbn [String.append String.length] in *.
    rewrite length_app in Hfuel. cbn [String.length] in Hfuel.
    destruct fuel as [| fuel]; [lia |]. rewrite parse_value_object.
    destruct props as [| kv props]; [reflexivity |].
    assert (Hopen : opens (join "," (map member_text (kv :: props)))).
    { destruct props; cbn [map join]; repeat split; reflexivity. }
    rewrite app_assoc. cbn [String.append].
    rewrite (opens_skip _ _ Hopen).
    destruct (join "," (map member_text (kv :: props))) as [| c t] eqn:Ej;
      [contradiction |].
    destruct Hopen as (_ & _ & Hc1). cbn [String.append]. rewrite Hc1.
    change (String c (t +:+ String "}" rest)) with (String c t +:+ String "}" rest).
    rewrite <- Ej. cbn [settle].
    rewrite <- (app_nil_l (map (fun kv => (fst kv, settle (snd kv))) (kv :: props))).
    apply parse_members_texts;
      [exact Hp | | discriminate | rewrite Ej in *; cbn in *; lia | exact Hn].
    clear - IH Hp. induction IH as [| w l Hw IH IHl]; constructor.
    + apply Forall_cons in Hp as [Hcw _]. now apply Hw.
    + apply Forall_cons in Hp as [_ Hp]. now apply IHl.
Qed.

(** [JSON.parse(JSON.stringify(v))] for a carried value. *)
Lemma value_round_trip (v : value) :
  carried v -> JSON_parse (VStr (json_text v)) = Ret (settle v).
Proof.
  intros Hc. unfold JSON_parse. cbn [ToString obind].
  pose proof (parse_json_text v Hc (S (String.length (json_text v))) EmptyString
                ltac:(lia) I) as H.
  rewrite app_nil_r in H. rewrite H. reflexivity.
Qed.

(** * Runs of the methods *)

(** ** Reading *)

(** What [get] does, step by step. *)
Lemma get_run (k : string) w :
  get (VStr k) w =
    match storage_call w with
    | (Ret _, w1) =>
        match JSON_parse (match storage w1 !! k with
                          | Some text => VStr text
                          | None => VNull
                          end) with
        | Ret data => (Ret (if is_null data then zero else data), w1)
        | Throw e =>
            (Ret zero,
             snd (console_error ("Error getting key '" +:+ k +:+ "':") e w1))
        end
    | (Throw e, w1) =>
        (Ret zero,
         snd (console_error ("Error getting key '" +:+ k +:+ "':") e w1))
    end.
Proof.
  unfold get, try_catch, localStorage_getItem, bind, lift, template; simpl.
  destruct (storage_call w) as [[[] | e] w1]; simpl; [| reflexivity].
  destruct (JSON_parse _) as [data | e]; simpl; [| reflexivity].
  destruct (is_null data); reflexivity.
Qed.

Lemma storage_call_quiet w : faults w = [] -> storage_call w = (Ret tt, w).
Proof. intros H. unfold storage_call. rewrite H. reflexivity. Qed.

Lemma get_absent (k : string) w :
  storage w !! k = None -> fst (get (VStr k) w) = Ret zero.
Proof.
  intros H. rewrite get_run. pose proof (stable_storage_call w) as Hs.
  destruct (storage_call w) as [[[] | e] w1]; simpl in *; [| reflexivity].
  rewrite Hs, H. reflexivity.
Qed.

Lemma get_run_quiet (k : string) w :
  faults w = [] ->
  get (VStr k) w =
    match JSON_parse (match storage w !! k with
                      | Some text => VStr text
                      | None => VNull
                      end) with
    | Ret data => (Ret (if is_null data then zero else data), w)
    | Throw e =>
        (Ret zero,
         snd (console_error ("Error getting key '" +:+ k +:+ "':") e w))
    end.
Proof. intros Hf. rewrite get_run, (storage_call_quiet _ Hf). reflexivity. Qed.

Lemma get_number_run (k : string) text x w :
  faults w = [] -> storage w !! k = Some text ->
  JSON_parse (VStr text) = Ret (VNum x) ->
  get (VStr k) w = (Ret (VNum x), w).
Proof.
  intros Hf Hk Hp. rewrite (get_run_quiet _ _ Hf), Hk, Hp. reflexivity.
Qed.

Lemma get_text_run (k : string) text v w :
  faults w = [] -> storage w !! k = Some text ->
  JSON_parse (VStr text) = Ret v -> is_null v = false ->
  get (VStr k) w = (Ret v, w).
Proof.
  intros Hf Hk Hp Hn. rewrite (get_run_quiet _ _ Hf), Hk, Hp, Hn. reflexivity.
Qed.

Lemma get_quiet (k : string) w :
  faults w = [] ->
  exists v w1,
    get (VStr k) w = (Ret v, w1) /\ faults w1 = [] /\ storage w1 = storage w.
Proof.
  intros Hf. rewrite (get_run_quiet _ _ Hf).
  destruct (JSON_parse _) as [data | e]; eexists _, _;
    (split; [reflexivity | split; [exact Hf | reflexivity]]).
Qed.

(** ** Writing *)

Lemma set_number_run (k : string) x w :
  faults w = [] ->
  set (VStr k) (VNum x) w
  = (Ret tt, with_storage (<[k := number_text x]> (storage w)) w).
Proof.
  intros Hf.
  unfold set, try_catch, bind, range_operand, localStorage_setItem, bind, lift;
    simpl.
  rewrite (storage_call_quiet _ Hf). reflexivity.
Qed.

Lemma set_plain_run (k : string) v text w :
  faults w = [] -> typeof_object v = false ->
  ToString (JSON_stringify v) = Ret text ->
  set (VStr k) v w = (Ret tt, with_storage (<[k := text]> (storage w)) w).
Proof.
  intros Hf Ht Hs.
  unfold set, try_catch, bind at 1, range_operand. rewrite Ht.
  unfold ret, localStorage_setItem, bind, lift. cbn [ToString]. rewrite Hs.
  rewrite (storage_call_quiet _ Hf). reflexivity.
Qed.

Lemma res_run (w : world) :
  hd false (faults w) = false -> storage (snd (res w)) = ∅.
Proof.
  intros Hf. unfold res, try_catch, localStorage_clear, bind, storage_call.
  destruct (faults w) as [| [] rest]; try discriminate; reflexivity.
Qed.

(** ** Arithmetic *)

Lemma bind_run {A B} (m : M A) (k : A -> M B) w a w' :
  m w = (Ret a, w') -> bind m k w = k a w'.
Proof. intros E. unfold bind. rewrite E. reflexivity. Qed.

Lemma add_number_run (k : string) text x a w :
  faults w = [] -> storage w !! k = Some text ->
  JSON_parse (VStr text) = Ret (VNum x) ->
  add (VStr k) (VNum a) w = set (VStr k) (VNum (fadd x a)) w.
Proof.
  intros Hf Hk Hp. unfold add, try_catch, bind, range_operand; simpl.
  unfold ret. rewrite (get_number_run _ _ _ _ Hf Hk Hp). simpl.
  rewrite (set_number_run _ _ _ Hf). reflexivity.
Qed.

(** [sub] and [div] share their shape: the operator, then [Math.max(0, _)],
    then [set]. *)
Lemma clamp_run (op : number -> number -> number) handler (k : string) a w
    cur x :
  faults w = [] -> fst (get (VStr k) w) = Ret cur -> ToNumber cur = Ret x ->
  exists w1,
    try_catch
      (amount' <- range_operand (VNum a) ;;
       current <- get (VStr k) ;;
       r <- lift (arith op current amount') ;;
       clamped <- lift (Math_max [zero; r]) ;;
       set (VStr k) clamped)
      handler w
    = (Ret tt,
       with_storage
         (<[k := number_text (Float64.max [pos_zero; op x a])]> (storage w1))
         w1) /\
    faults w1 = [] /\ storage w1 = storage w.
Proof.
  intros Hf Hg Hx. destruct (get_quiet k w Hf) as (v & w1 & Eg & Hf1 & Hs1).
  rewrite Eg in Hg. cbn [fst] in Hg. injection Hg as ->.
  exists w1. split; [| now split].
  unfold try_catch, bind at 1. cbn [range_operand typeof_object ret].
  unfold bind at 1. rewrite Eg.
  unfold bind at 1, lift at 1, arith. rewrite Hx. cbn [obind ToNumber ToPrimitive
    prim_to_number].
  unfold bind at 1, lift at 1, Math_max.
  cbn [map sequence obind ToNumber ToPrimitive prim_to_number zero].
  rewrite (set_number_run _ _ _ Hf1). reflexivity.
Qed.

Lemma get_after_clamp (k : string) r w :
  faults w = [] ->
  storage w !! k = Some (number_text (Float64.max [pos_zero; r])) ->
  exists y,
    fst (get (VStr k) w) = Ret (VNum y) /\ flt y pos_zero = false /\
    (valid (Float64.max [pos_zero; r]) = true ->
     is_finite (Float64.max [pos_zero; r]) = true ->
     y = Float64.max [pos_zero; r]).
Proof.
  intros Hf Hk. rewrite (get_run_quiet _ _ Hf), Hk.
  destruct (max_zero_cases r) as [E | [E | [E | (m & e & E)]]]; rewrite E.
  - exists pos_zero. repeat split. discriminate.
  - exists pos_zero. repeat split.
  - exists pos_zero. repeat split. discriminate.
  - unfold number_text. cbn [is_finite]. rewrite JSON_parse_Number_toString.
    eexists. split; [reflexivity |]. split; [apply of_decimal_not_negative |].
    intros Hv _.
    pose proof (shortest_decimal_reads_back m e
                  (exact_decimal_reads_back m e Hv)) as Hr.
    now apply same_true in Hr.
Qed.

Lemma div_run (k : string) a w cur x :
  faults w = [] -> fst (get (VStr k) w) = Ret cur -> ToNumber cur = Ret x ->
  exists w1,
    div (VStr k) (VNum a) w
    = (Ret tt,
       with_storage
         (<[k := number_text (Float64.max [pos_zero; fdiv x a])]> (storage w1))
         w1) /\
    faults w1 = [] /\ storage w1 = storage w.
Proof.
  intros Hf Hg Hx. unfold div, js_div.
  exact (clamp_run fdiv _ k a w cur x Hf Hg Hx).
Qed.

Lemma randomize_formula (a b : number) (w : world) :
  randomize (VNum a) (VNum b) w
  = (Ret (VNum (fadd (floor (fmul (entropy w (draws w))
                                (fadd (fsub b a) (of_Z 1)))) a)),
     World (storage w) (faults w) (entropy w) (S (draws w)) (console w)).
Proof. reflexivity. Qed.

(** ** Batches *)

(** A range of numbers resolves to a number. *)
Lemma randomize_numbers lo hi w :
  exists x w', randomize (VNum lo) (VNum hi) w = (Ret (VNum x), w').
Proof. eexists _, _. reflexivity. Qed.

Lemma range_operand_amount a w :
  exists x w', range_operand (operand a) w = (Ret (VNum x), w').
Proof.
  destruct a as [x | lo hi]; [exists x, w; reflexivity |].
  apply randomize_numbers.
Qed.

Section Batch.
(** A method of the shape
    [try { <resolve the range> ; body } catch (error) { handler }]. *)
Variable op : value -> value -> M unit.
Variable body : value -> value -> M unit.
Variable handler : value -> error -> M unit.
Hypothesis op_shape :
  forall key v,
    op key v = try_catch (v' <- range_operand v ;; body key v') (handler key).
Hypothesis op_returns : forall (k : string) v, returns (op (VStr k) v).

Lemma batch_item_op (ka : string * amount) w :
  batch_item op (item ka) w = op (VStr (fst ka)) (operand (snd ka)) w.
Proof.
  destruct ka as [k a]. unfold batch_item, item, bind, lift; simpl.
  destruct (range_operand_amount a w) as (x & w' & E). rewrite E.
  rewrite !op_shape. unfold try_catch, bind. rewrite E. reflexivity.
Qed.

Lemma for_each_items (items : list (string * amount)) w :
  for_each (batch_item op) (map item items) w
  = for_each (fun ka => op (VStr (fst ka)) (operand (snd ka))) items w.
Proof.
  revert w. induction items as [| ka items IH]; intros w; [reflexivity |].
  simpl. unfold bind. rewrite batch_item_op.
  destruct (op _ _ w) as [[[] | e] w1]; [apply IH | reflexivity].
Qed.

Lemma for_each_returns (items : list (string * amount)) :
  returns (for_each (fun ka => op (VStr (fst ka)) (operand (snd ka))) items).
Proof.
  induction items as [| ka items IH]; simpl; auto with eco.
Qed.

Lemma batch_sequential msg (items : list (string * amount)) w :
  try_catch (forEach (VArr (map item items)) (batch_item op))
    (fun error => console_error msg error) w
  = for_each (fun ka => op (VStr (fst ka)) (operand (snd ka))) items w.
Proof.
  unfold try_catch, forEach. rewrite for_each_items.
  destruct (for_each_returns items w) as (a & w' & E). rewrite E.
  reflexivity.
Qed.
End Batch.

Lemma batchAdd_sequence (items : list (string * amount)) w :
  batchAdd (VArr (map item items)) w
  = for_each (fun ka => add (VStr (fst ka)) (operand (snd ka))) items w.
Proof.
  exact (batch_sequential add _ _ (fun _ _ => eq_refl) returns_add _ items w).
Qed.

Lemma gold_scenario w :
  faults w = [] ->
  fst ((set gold (VNum (of_Z 10)) ;;
        batchAdd (VArr (map item five_twice)) ;;
        get gold) w)
  = Ret (VNum (of_Z 20)).
Proof.
  intros Hf. unfold gold.
  pose (w1 := with_storage (<["gold" := number_text (of_Z 10)]> (storage w)) w).
  pose (w2 := with_storage (<["gold" := number_text (of_Z 15)]> (storage w1)) w1).
  pose (w3 := with_storage (<["gold" := number_text (of_Z 20)]> (storage w2)) w2).
  assert (Hf1 : faults w1 = []) by exact Hf.
  assert (Hf2 : faults w2 = []) by exact Hf.
  assert (Hf3 : faults w3 = []) by exact Hf.
  assert (Hadd1 : add (VStr "gold") (VNum (of_Z 5)) w1 = (Ret tt, w2)).
  { rewrite (add_number_run "gold" _ (of_Z 10) (of_Z 5) w1 Hf1
               (lookup_insert_eq _ _ _)) by (vm_compute; reflexivity).
    now rewrite (set_number_run _ _ _ Hf1). }
  assert (Hadd2 : add (VStr "gold") (VNum (of_Z 5)) w2 = (Ret tt, w3)).
  { rewrite (add_number_run "gold" _ (of_Z 15) (of_Z 5) w2 Hf2
               (lookup_insert_eq _ _ _)) by (vm_compute; reflexivity).
    now rewrite (set_number_run _ _ _ Hf2). }
  assert (Hbatch : batchAdd (VArr (map item five_twice)) w1 = (Ret tt, w3)).
  { rewrite batchAdd_sequence. unfold five_twice. cbn [for_each fst snd operand].
    rewrite (bind_run _ _ _ _ _ Hadd1), (bind_run _ _ _ _ _ Hadd2).
    reflexivity. }
  rewrite (bind_run _ _ _ _ _ (set_number_run _ _ _ Hf)).
  fold w1. rewrite (bind_run _ _ _ _ _ Hbatch).
  rewrite (get_number_run "gold" _ (of_Z 20) w3 Hf3 (lookup_insert_eq _ _ _))
    by (vm_compute; reflexivity).
  reflexivity.
Qed.

(** ** The shapes of the arithmetic methods *)

(** [get] answers from the store alone when the store accepts every call. *)
Lemma get_quiet_run (k : string) (cur : value) (w : world) :
  faults w = [] -> fst (get (VStr k) w) = Ret cur ->
  exists w1,
    get (VStr k) w = (Ret cur, w1) /\ faults w1 = [] /\ storage w1 = storage w.
Proof.
  intros Hf Hg. destruct (get_quiet k w Hf) as (v & w1 & E & Hf1 & Hs1).
  rewrite E in Hg. cbn [fst] in Hg. injection Hg as ->. now exists w1.
Qed.

(** [add] and [mul] share their shape: the operator, then [set]. *)
Lemma update_run (op : value -> value -> outcome value) handler (k : string)
    (amount amount' cur total : value) (w w0 w1 : world) :
  range_operand amount w = (Ret amount', w0) ->
  get (VStr k) w0 = (Ret cur, w1) -> op cur amount' = Ret total ->
  try_catch
    (amount' <- range_operand amount ;;
     current <- get (VStr k) ;;
     total <- lift (op current amount') ;;
     set (VStr k) total)
    handler w
  = set (VStr k) total w1.
Proof.
  intros Ha Hg Ho. unfold try_catch, bind at 1. rewrite Ha.
  unfold bind at 1. rewrite Hg. unfold bind at 1, lift.
  rewrite Ho. destruct (returns_set k total w1) as (u & w2 & E). rewrite E.
  reflexivity.
Qed.

(** [sub] and [div] also pass the result through [Math.max(0, _)]. *)
Lemma clamped_update_run (op : value -> value -> outcome value) handler
    (k : string) (amount amount' cur r clamped : value) (w w0 w1 : world) :
  range_operand amount w = (Ret amount', w0) ->
  get (VStr k) w0 = (Ret cur, w1) -> op cur amount' = Ret r ->
  Math_max [zero; r] = Ret clamped ->
  try_catch
    (amount' <- range_operand amount ;;
     current <- get (VStr k) ;;
     r <- lift (op current amount') ;;
     clamped <- lift (Math_max [zero; r]) ;;
     set (VStr k) clamped)
    handler w
  = set (VStr k) clamped w1.
Proof.
  intros Ha Hg Ho Hm. unfold try_catch, bind at 1. rewrite Ha.
  unfold bind at 1. rewrite Hg. unfold bind at 1, lift.
  rewrite Ho. unfold bind at 1. rewrite Hm.
  destruct (returns_set k clamped w1) as (u & w2 & E). rewrite E.
  reflexivity.
Qed.

Lemma set_number_accepted (k : string) (x : number) (w : world) :
  hd false (faults w) = false ->
  exists w1,
    set (VStr k) (VNum x) w
    = (Ret tt, with_storage (<[k := number_text x]> (storage w)) w1) /\
    console w1 = console w.
Proof.
  intros Hf. unfold set, try_catch, bind at 1. cbn [range_operand typeof_object ret].
  unfold localStorage_setItem, bind, lift, storage_call.
  cbn [ToString JSON_stringify].
  assert (Et : ToString (JSON_stringify (VNum x)) = Ret (number_text x)).
  { unfold number_text. destruct x as [[] | [] | | [] m e]; reflexivity. }
  rewrite Et.
  destruct (faults w) as [| [] rest] eqn:E; try discriminate.
  - exists w. split; reflexivity.
  - eexists. split; reflexivity.
Qed.

(** ** Writing a value that is no range *)

Lemma range_operand_plain (v : value) (w : world) :
  v <> VNull -> has_bounds v = false -> range_operand v w = (Ret v, w).
Proof.
  intros Hn Hb. unfold range_operand.
  destruct v as [| | b | x | s | items | props]; try reflexivity;
    [contradiction |].
  unfold has_bounds, defined_prop in Hb. cbn [typeof_object andb] in *.
  unfold bind, lift. cbn [get_prop] in *.
  destruct (lookup_prop "min" props) as [lo |]; [| reflexivity].
  destruct (negb (is_undefined lo)); [| reflexivity].
  destruct (lookup_prop "max" props) as [hi |]; [| reflexivity].
  destruct (negb (is_undefined hi)); [discriminate | reflexivity].
Qed.

Lemma set_stored (k : string) (v : value) (w : world) :
  faults w = [] -> v <> VNull -> v <> VUndefined -> has_bounds v = false ->
  set (VStr k) v w
  = (Ret tt, with_storage (<[k := json_text v]> (storage w)) w).
Proof.
  intros Hf Hn Hu Hb. unfold set, try_catch, bind at 1.
  rewrite (range_operand_plain v w Hn Hb).
  unfold localStorage_setItem, bind, lift. cbn [ToString].
  unfold JSON_stringify. rewrite (serialize_some v Hu). cbn [ToString].
  rewrite (storage_call_quiet w Hf). reflexivity.
Qed.

Lemma settle_not_null v : v <> VNull -> is_null (settle v) = false.
Proof. now destruct v. Qed.

(** ** Operands resolved *)

Lemma for_each_ext {A} (f g : A -> M unit) (l : list A) (w : world) :
  (forall x w', f x w' = g x w') -> for_each f l w = for_each g l w.
Proof.
  intros H. revert w. induction l as [| x l IH]; intros w; [reflexivity |].
  cbn [for_each]. unfold bind. rewrite H.
  destruct (g x w) as [[u | e] w1]; [apply IH | reflexivity].
Qed.

Section Resolve.
Variable op : value -> value -> M unit.
Variable body : value -> value -> M unit.
Variable handler : value -> error -> M unit.
Hypothesis op_shape :
  forall key v,
    op key v = try_catch (v' <- range_operand v ;; body key v') (handler key).
Hypothesis op_returns : forall (k : string) v, returns (op (VStr k) v).

(** A scalar call with a range is the call with the number drawn for it. *)
Lemma op_resolved key (a : amount) (w : world) :
  op key (operand a) w = op key (VNum (resolved a w)) (drawn a w).
Proof. rewrite !op_shape. unfold try_catch, bind. now destruct a. Qed.

Lemma batch_resolving msg (items : list (string * amount)) (w : world) :
  try_catch (forEach (VArr (map item items)) (batch_item op))
    (fun error => console_error msg error) w
  = for_each (resolving op) items w.
Proof.
  rewrite (batch_sequential op body handler op_shape op_returns msg items w).
  apply for_each_ext. intros ka w'. apply op_resolved.
Qed.
End Resolve.

(** ** Refused calls *)

Lemma get_refused (k : string) (w : world) :
  hd false (faults w) = true ->
  get (VStr k) w
  = (Ret zero, reported ("Error getting key '" +:+ k +:+ "':") DOMException w).
Proof.
  intros Hf. rewrite get_run. unfold storage_call.
  destruct (faults w) as [| [] rest] eqn:E; try discriminate.
  unfold reported. rewrite E. reflexivity.
Qed.

Lemma set_refused (k : string) (x : number) (w : world) :
  hd false (faults w) = true ->
  set (VStr k) (VNum x) w
  = (Ret tt, reported ("Error setting key '" +:+ k +:+ "':") DOMException w).
Proof.
  intros Hf. unfold set, try_catch, bind at 1.
  cbn [range_operand typeof_object ret].
  unfold localStorage_setItem, bind at 1 2 3, lift, storage_call.
  cbn [ToString].
  assert (Et : ToString (JSON_stringify (VNum x)) = Ret (number_text x)).
  { unfold number_text. destruct x as [[] | [] | | [] m e]; reflexivity. }
  rewrite Et. destruct (faults w) as [| [] rest] eqn:E; try discriminate.
  unfold reported. rewrite E. reflexivity.
Qed.

Lemma del_refused (k : string) (w : world) :
  hd false (faults w) = true ->
  del (VStr k) w
  = (Ret tt, reported ("Error deleting key '" +:+ k +:+ "':") DOMException w).
Proof.
  intros Hf. unfold del, try_catch, localStorage_removeItem, bind at 1 2, lift,
    storage_call. cbn [ToString].
  destruct (faults w) as [| [] rest] eqn:E; try discriminate.
  unfold reported. rewrite E. reflexivity.
Qed.

Lemma res_refused (w : world) :
  hd false (faults w) = true ->
  res w = (Ret tt, reported "Error resetting localStorage:" DOMException w).
Proof.
  intros Hf. unfold res, try_catch, localStorage_clear, bind, storage_call.
  destruct (faults w) as [| [] rest] eqn:E; try discriminate.
  unfold reported. rewrite E. reflexivity.
Qed.

(** A refused write leaves the store as it was, whatever was to be
    written. *)
Lemma set_refused_keeps (k : string) (v : value) (w : world) :
  hd false (faults w) = true -> storage (snd (set (VStr k) v w)) = storage w.
Proof.
  intros Hf. destruct (faults w) as [| [] rest] eqn:E; try discriminate.
  unfold set, try_catch, bind.
  pose proof (stable_range_operand v w) as Hr.
  destruct (range_operand v w) as [[v' | e] w1] eqn:Er; simpl in *;
    [| exact Hr].
  unfold localStorage_setItem, bind, lift; simpl.
  destruct (ToString (JSON_stringify v')) as [text | e]; simpl; [| exact Hr].
  pose proof (stable_storage_call w1) as Hs.
  assert (Hthrow : exists e w2, storage_call w1 = (Throw e, w2)).
  { pose proof (keeps_range_operand faults v calm_Math_random w) as Hfl.
    rewrite Er in Hfl. simpl in Hfl.
    unfold storage_call. rewrite Hfl, E. eauto. }
  destruct Hthrow as (e & w2 & Et). rewrite Et in *. simpl in *.
  now rewrite Hs.
Qed.

(** [get] makes one call to the store and leaves its content alone. *)
Lemma get_consumes (k : string) (w : world) :
  exists cur w1,
    get (VStr k) w = (Ret cur, w1) /\ faults w1 = tl (faults w) /\
    storage w1 = storage w.
Proof.
  rewrite get_run. unfold storage_call.
  destruct (faults w) as [| [] rest] eqn:E; cbn [tl].
  - destruct (JSON_parse _); eexists _, _; (split; [reflexivity |]);
      split; (exact E || reflexivity).
  - eexists _, _. split; [reflexivity |]. split; reflexivity.
  - cbn [storage]. destruct (JSON_parse _); eexists _, _;
      (split; [reflexivity |]); split; reflexivity.
Qed.

(** When the store refuses the write of [add], [sub], [mul] or [div], the
    store is left as it was, whatever the read gave. *)
Lemma update_refused_keeps (rest : value -> outcome value) (handler : error -> M unit)
    (k : string) (w : world) :
  hd false (tl (faults w)) = true ->
  (forall e, stable (handler e)) ->
  storage (snd (try_catch
                  (current <- get (VStr k) ;;
                   total <- lift (rest current) ;;
                   set (VStr k) total)
                  handler w))
  = storage w.
Proof.
  intros Hf Hh. destruct (get_consumes k w) as (cur & w1 & Eg & Hf1 & Hs1).
  unfold try_catch, bind at 1. rewrite Eg. unfold bind at 1, lift.
  destruct (rest cur) as [total | e].
  - destruct (returns_set k total w1) as (u & w2 & Es).
    pose proof (set_refused_keeps k total w1 ltac:(now rewrite Hf1)) as Hk.
    rewrite Es in *. cbn [snd] in *. congruence.
  - rewrite Hh. exact Hs1.
Qed.

(** ** Batches on a store that refuses *)

Lemma refuses_split (a b : nat) (l : list bool) :
  firstn (a + b) l = repeat true (a + b) ->
  firstn a l = repeat true a /\ firstn b (skipn a l) = repeat true b.
Proof.
  revert l. induction a as [| a IH]; intros l H; [now split |].
  destruct l as [| x l]; [discriminate |].
  cbn [Nat.add firstn repeat skipn] in *. injection H as -> H.
  destruct (IH l H) as (H1 & H2). split; [now rewrite H1 | exact H2].
Qed.

Lemma refuses_head (n : nat) (w : world) :
  refuses (S n) w -> hd false (faults w) = true.
Proof.
  unfold refuses. destruct (faults w) as [| x l]; [discriminate |].
  cbn [firstn repeat hd]. now intros [= -> _].
Qed.

Lemma refuses_next (n : nat) (w : world) :
  refuses (S (S n)) w -> hd false (tl (faults w)) = true.
Proof.
  unfold refuses. destruct (faults w) as [| x [| y l]]; try discriminate.
  cbn [firstn repeat hd tl]. now intros [= _ -> _].
Qed.

Section Refused.
Context {A : Type}.
Variable call : A -> M unit.
Variable calls : nat.
Hypothesis call_refused :
  forall x w,
    refuses calls w ->
    exists w1,
      call x w = (Ret tt, w1) /\ storage w1 = storage w /\
      faults w1 = skipn calls (faults w) /\
      length (console w1) = (calls + length (console w))%nat.

(** Every call of the batch is refused: the store is left as it was, and
    each refused call is reported. *)
Lemma for_each_refused (items : list A) (w : world) :
  refuses (calls * length items) w ->
  exists w1,
    for_each call items w = (Ret tt, w1) /\ storage w1 = storage w /\
    length (console w1) = (calls * length items + length (console w))%nat.
Proof.
  revert w. induction items as [| x items IH]; intros w Hr.
  - exists w. cbn [for_each length]. rewrite Nat.mul_0_r. now split.
  - cbn [length] in Hr. rewrite Nat.mul_succ_r, Nat.add_comm in Hr.
    destruct (refuses_split _ _ _ Hr) as (H1 & H2).
    destruct (call_refused x w H1) as (w1 & E & Hs & Hf & Hc).
    assert (Hr1 : refuses (calls * length items) w1).
    { unfold refuses. now rewrite Hf. }
    destruct (IH w1 Hr1) as (w2 & E2 & Hs2 & Hc2).
    exists w2. cbn [for_each length]. unfold bind. rewrite E, E2.
    split; [reflexivity |]. split; [congruence |].
    rewrite Hc2, Hc, Nat.mul_succ_r. lia.
Qed.
End Refused.

Lemma set_refused_call (ka : string * amount) (w : world) :
  refuses 1 w ->
  exists w1,
    resolving set ka w = (Ret tt, w1) /\ storage w1 = storage w /\
    faults w1 = skipn 1 (faults w) /\
    length (console w1) = (1 + length (console w))%nat.
Proof.
  intros Hr. unfold resolving.
  assert (Hd : hd false (faults (drawn (snd ka) w)) = true).
  { destruct (snd ka); exact (refuses_head 0 w Hr). }
  rewrite (set_refused _ _ _ Hd). eexists. split; [reflexivity |].
  destruct (snd ka); repeat split; cbn; now destruct (faults w).
Qed.

Lemma del_refused_call (k : string) (w : world) :
  refuses 1 w ->
  exists w1,
    del (VStr k) w = (Ret tt, w1) /\ storage w1 = storage w /\
    faults w1 = skipn 1 (faults w) /\
    length (console w1) = (1 + length (console w))%nat.
Proof.
  intros Hr. rewrite (del_refused _ _ (refuses_head 0 w Hr)).
  eexists. split; [reflexivity |].
  repeat split; cbn; now destruct (faults w).
Qed.

(** [add], [sub], [mul] and [div] when both their calls are refused: the
    read is reported under the message of [get], the write under the
    message of [set]. *)
Lemma update_refused_call (op : value -> value -> M unit) (ka : string * amount)
    (w : world) :
  (forall (k : string) a w0,
      hd false (faults w0) = true ->
      exists total : number,
        op (VStr k) (VNum a) w0
        = set (VStr k) (VNum total) (snd (get (VStr k) w0))) ->
  refuses 2 w ->
  exists w1,
    resolving op ka w = (Ret tt, w1) /\ storage w1 = storage w /\
    faults w1 = skipn 2 (faults w) /\
    length (console w1) = (2 + length (console w))%nat.
Proof.
  intros Hop Hr. unfold resolving.
  set (w0 := drawn (snd ka) w).
  assert (Hw0 : storage w0 = storage w /\ faults w0 = faults w /\
                console w0 = console w).
  { unfold w0. now destruct (snd ka). }
  destruct Hw0 as (Hs0 & Hf0 & Hc0).
  assert (H1 : hd false (faults w0) = true).
  { rewrite Hf0. exact (refuses_head 1 w Hr). }
  destruct (Hop (fst ka) (resolved (snd ka) w) w0 H1) as (total & ->).
  rewrite (get_refused _ _ H1). cbn [snd].
  assert (H2 : hd false (faults (reported ("Error getting key '" +:+ fst ka +:+ "':")
                                   DOMException w0)) = true).
  { cbn [reported faults]. rewrite Hf0. exact (refuses_next 0 w Hr). }
  rewrite (set_refused _ _ _ H2). eexists. split; [reflexivity |].
  cbn [reported storage faults console length]. rewrite Hs0, Hf0, Hc0.
  repeat split. now destruct (faults w) as [| ? [| ? ?]].
Qed.

Lemma add_through_set (k : string) (a : number) (w : world) :
  hd false (faults w) = true ->
  exists total : number,
    add (VStr k) (VNum a) w = set (VStr k) (VNum total) (snd (get (VStr k) w)).
Proof.
  intros Hf. exists (fadd pos_zero a). unfold add.
  rewrite (get_refused k w Hf).
  exact (update_run js_add _ k (VNum a) (VNum a) zero _ w w _ eq_refl
           (get_refused k w Hf) eq_refl).
Qed.

Lemma sub_through_set (k : string) (a : number) (w : world) :
  hd false (faults w) = true ->
  exists total : number,
    sub (VStr k) (VNum a) w = set (VStr k) (VNum total) (snd (get (VStr k) w)).
Proof.
  intros Hf. exists (Float64.max [pos_zero; fsub pos_zero a]). unfold sub.
  rewrite (get_refused k w Hf).
  exact (clamped_update_run js_sub _ k (VNum a) (VNum a) zero _ _ w w _ eq_refl
           (get_refused k w Hf) eq_refl eq_refl).
Qed.

Lemma mul_through_set (k : string) (a : number) (w : world) :
  hd false (faults w) = true ->
  exists total : number,
    mul (VStr k) (VNum a) w = set (VStr k) (VNum total) (snd (get (VStr k) w)).
Proof.
  intros Hf. exists (fmul pos_zero a). unfold mul.
  rewrite (get_refused k w Hf).
  exact (update_run js_mul _ k (VNum a) (VNum a) zero _ w w _ eq_refl
           (get_refused k w Hf) eq_refl).
Qed.

Lemma div_through_set (k : string) (a : number) (w : world) :
  hd false (faults w) = true ->
  exists total : number,
    div (VStr k) (VNum a) w = set (VStr k) (VNum total) (snd (get (VStr k) w)).
Proof.
  intros Hf. exists (Float64.max [pos_zero; fdiv pos_zero a]). unfold div.
  rewrite (get_refused k w Hf).
  exact (clamped_update_run js_div _ k (VNum a) (VNum a) zero _ _ w w _ eq_refl
           (get_refused k w Hf) eq_refl eq_refl).
Qed.

Lemma batch_writes_refused (items : list (string * amount)) (w : world) :
  (refuses (length items) w ->
   refused_batch (length items) (batchSet (VArr (map item items))) w) /\
   (refuses (2 * length items) w ->
   refused_batch (2 * length items) (batchAdd (VArr (map item items))) w /\
   refused_batch (2 * length items) (batchSub (VArr (map item items))) w /\
   refused_batch (2 * length items) (batchMul (VArr (map item items))) w /\
   refused_batch (2 * length items) (batchDiv (VArr (map item items))) w).
Proof.
  assert (Hgen : forall op n msg body handler,
             (forall key v,
                 op key v
                 = try_catch (v' <- range_operand v ;; body key v') (handler key)) ->
             (forall (k : string) v, returns (op (VStr k) v)) ->
             (forall ka w0,
                 refuses n w0 ->
                 exists w1,
                   resolving op ka w0 = (Ret tt, w1) /\ storage w1 = storage w0 /\
   faults w1 = skipn n (faults w0) /\
   length (console w1) = (n + length (console w0))%nat) ->
             refuses (n * length items) w ->
             refused_batch (n * length items)
               (try_catch (forEach (VArr (map item items)) (batch_item op))
                  (fun error => console_error msg error)) w).
  { intros op n msg body handler Hshape Hret Hcall Hr. unfold refused_batch.
    rewrite (batch_resolving op body handler Hshape Hret msg items w).
    destruct (for_each_refused (resolving op) n Hcall items w Hr)
      as (w1 & -> & Hs & Hc).
    now repeat split. }
  split.
  - intros Hr. rewrite <- (Nat.mul_1_l (length items)) in Hr |- * at 1.
    exact (Hgen set 1%nat _ _ _ (fun _ _ => eq_refl) returns_set
             set_refused_call Hr).
  - intros Hr. split; [| split; [| split]].
    + exact (Hgen add 2%nat _ _ _ (fun _ _ => eq_refl) returns_add
               (fun ka w0 => update_refused_call add ka w0 add_through_set) Hr).
    + exact (Hgen sub 2%nat _ _ _ (fun _ _ => eq_refl) returns_sub
               (fun ka w0 => update_refused_call sub ka w0 sub_through_set) Hr).
    + exact (Hgen mul 2%nat _ _ _ (fun _ _ => eq_refl) returns_mul
               (fun ka w0 => update_refused_call mul ka w0 mul_through_set) Hr).
    + exact (Hgen div 2%nat _ _ _ (fun _ _ => eq_refl) returns_div
               (fun ka w0 => update_refused_call div ka w0 div_through_set) Hr).
Qed.

Lemma for_each_map {A B} (f : A -> B) (call : B -> M unit) (l : list A)
    (w : world) :
  for_each call (map f l) w = for_each (fun x => call (f x)) l w.
Proof.
  revert w. induction l as [| x l IH]; intros w; [reflexivity |].
  cbn [map for_each]. unfold bind.
  destruct (call (f x) w) as [[u | e] w1]; [apply IH | reflexivity].
Qed.

Lemma batchDel_refused (ks : list string) (w : world) :
  refuses (length ks) w ->
  refused_batch (length ks) (batchDel (VArr (map VStr ks))) w.
Proof.
  intros Hr. unfold refused_batch, batchDel, try_catch, forEach.
  rewrite for_each_map.
  assert (Hr' : refuses (1 * length ks) w) by now rewrite Nat.mul_1_l.
  destruct (for_each_refused (fun k => del (VStr k)) 1%nat del_refused_call
              ks w Hr') as (w1 & E & Hs & Hc).
  rewrite E. rewrite Nat.mul_1_l in Hc. now repeat split.
Qed.

Lemma clamped_update_refused_keeps (rest : value -> outcome value)
    (handler : error -> M unit) (k : string) (w : world) :
  hd false (tl (faults w)) = true ->
  (forall e, stable (handler e)) ->
  storage (snd (try_catch
                  (current <- get (VStr k) ;;
                   r <- lift (rest current) ;;
                   clamped <- lift (Math_max [zero; r]) ;;
                   set (VStr k) clamped)
                  handler w))
  = storage w.
Proof.
  intros Hf Hh. destruct (get_consumes k w) as (cur & w1 & Eg & Hf1 & Hs1).
  unfold try_catch, bind at 1. rewrite Eg. unfold bind at 1, lift.
  destruct (rest cur) as [r | e]; [| rewrite Hh; exact Hs1].
  unfold bind at 1. destruct (Math_max [zero; r]) as [clamped | e].
  - destruct (returns_set k clamped w1) as (u & w2 & Es).
    pose proof (set_refused_keeps k clamped w1 ltac:(now rewrite Hf1)) as Hk.
    rewrite Es in *. cbn [snd] in *. congruence.
  - rewrite Hh. exact Hs1.
Qed.

Lemma stable_handler before (k : string) (e : error) :
  stable (msg <- template before (VStr k) "':" ;; console_error msg e).
Proof.
  apply keeps_bind; [apply keeps_template | intros msg].
  apply stable_console_error.
Qed.

(** * The specification, claim by claim *)

(** ** Round trip of numbers *)

(** C1.  When the store accepts the calls, [get] after [set] of a finite
    number returns a number equal to it: the same number, except that [-0]
    comes back as [0]. *)
Theorem set_then_get (k : string) (v : number) (w : world) :
  faults w = [] -> valid v = true -> is_finite v = true ->
  exists v',
    fst (get (VStr k) (snd (set (VStr k) (VNum v) w))) = Ret (VNum v') /\
    feq v' v = true /\
    (v <> neg_zero -> v' = v).
Proof.
  intros Hf Hv Hfin. exists (read_back v).
  rewrite (set_number_run _ _ _ Hf). cbn [snd].
  rewrite (get_number_run k (number_text v) (read_back v));
    [| exact Hf | apply lookup_insert_eq | now apply number_round_trip].
  split; [reflexivity |]. split; [now apply feq_read_back |].
  intros Hz. destruct v as [[] | | |]; try reflexivity. now destruct Hz.
Qed.

Lemma set_then_get_witness :
  exists v',
    fst (get (VStr "gold") (snd (set (VStr "gold") (VNum (of_decimal false 25 (-1)))
                                  two_entries)))
    = Ret (VNum v') /\
    feq v' (of_decimal false 25 (-1)) = true /\
    (of_decimal false 25 (-1) <> neg_zero -> v' = of_decimal false 25 (-1)).
Proof.
  apply (set_then_get "gold" (of_decimal false 25 (-1)) two_entries);
    reflexivity.
Defined.

(** ** Reading defaults *)

(** C2.  [get] always returns: the number [0] when the key is absent, when
    the stored text is not JSON (the failure is then reported on the
    console), and when the text decodes to [null]; it never throws. *)
Theorem get_defaults_to_zero (k : string) (w : world) :
  (exists v w', get (VStr k) w = (Ret v, w')) /\
  (storage w !! k = None -> fst (get (VStr k) w) = Ret zero) /\
  (forall text e,
      storage w !! k = Some text -> JSON_parse (VStr text) = Throw e ->
      fst (get (VStr k) w) = Ret zero /\
      exists e',
        console (snd (get (VStr k) w))
        = ("Error getting key '" +:+ k +:+ "':", e') :: console w) /\
  (forall text,
      storage w !! k = Some text -> JSON_parse (VStr text) = Ret VNull ->
      fst (get (VStr k) w) = Ret zero).
Proof.
  split; [apply returns_get |]. split; [apply get_absent |].
  assert (Hc : console (snd (storage_call w)) = console w).
  { unfold storage_call. destruct (faults w) as [| [] rest]; reflexivity. }
  pose proof (stable_storage_call w) as Hs.
  split.
  - intros text e Hk Hp. rewrite get_run.
    destruct (storage_call w) as [[[] | e0] w1]; simpl in *.
    + rewrite Hs, Hk, Hp. simpl. split; [reflexivity |].
      exists e. now rewrite Hc.
    + split; [reflexivity |]. exists e0. now rewrite Hc.
  - intros text Hk Hp. rewrite get_run.
    destruct (storage_call w) as [[[] | e0] w1]; simpl in *; [| reflexivity].
    rewrite Hs, Hk, Hp. reflexivity.
Qed.

(** The entry [theme] holds [dark], which is not JSON text. *)
Lemma get_defaults_to_zero_witness :
  fst (get (VStr "theme") two_entries) = Ret zero /\
  fst (get (VStr "silver") two_entries) = Ret zero.
Proof.
  destruct (get_defaults_to_zero "theme" two_entries) as (_ & _ & H & _).
  destruct (H "dark"%string SyntaxError eq_refl eq_refl) as [E _].
  split; [exact E |].
  destruct (get_defaults_to_zero "silver" two_entries) as (_ & H0 & _).
  apply H0. reflexivity.
Defined.

(** ** Clamping *)

(** C3.  When the store accepts the calls and the current value [cur] of
    the key converts to the number [x], [sub] with the number [a] writes the
    text of [max(0, x - a)]; the key then reads as a number that is not
    below zero, which is [max(0, x - a)] itself when that is finite.  After
    [set(k, 5)], [sub(k, 10)] leaves [0]. *)
Theorem sub_clamps_at_zero (k : string) (a : number) (w : world)
    (cur : value) (x : number) :
  faults w = [] -> fst (get (VStr k) w) = Ret cur -> ToNumber cur = Ret x ->
  let clamped := Float64.max [pos_zero; fsub x a] in
  let w' := snd (sub (VStr k) (VNum a) w) in
  storage w' !! k = Some (number_text clamped) /\
  (exists y,
      fst (get (VStr k) w') = Ret (VNum y) /\ flt y pos_zero = false /\
      (valid clamped = true -> is_finite clamped = true -> y = clamped)) /\
  fst ((set (VStr k) (VNum (of_Z 5)) ;;
        sub (VStr k) (VNum (of_Z 10)) ;;
        get (VStr k)) w) = Ret zero.
Proof.
  intros Hf Hg Hx clamped w'.
  destruct (clamp_run fsub
              (fun error =>
                 msg <- template "Error subtracting from key '" (VStr k) "':" ;;
                 console_error msg error)
              k a w cur x Hf Hg Hx) as (w1 & Erun & Hf1 & Hs1).
  assert (Ew : w' = with_storage (<[k := number_text clamped]> (storage w1)) w1).
  { unfold w', sub, js_sub. now rewrite Erun. }
  assert (Hk : storage w' !! k = Some (number_text clamped)).
  { rewrite Ew. apply lookup_insert_eq. }
  split; [exact Hk |]. split.
  - apply get_after_clamp; [now rewrite Ew | exact Hk].
  - rewrite (bind_run _ _ _ _ _ (set_number_run _ _ _ Hf)).
    set (w5 := with_storage _ w).
    assert (Hf5 : faults w5 = []) by exact Hf.
    assert (Hg5 : fst (get (VStr k) w5) = Ret (VNum (of_Z 5))).
    { rewrite (get_number_run k _ (of_Z 5) w5 Hf5 (lookup_insert_eq _ _ _));
        [reflexivity | vm_compute; reflexivity]. }
    destruct (clamp_run fsub
                (fun error =>
                   msg <- template "Error subtracting from key '" (VStr k) "':" ;;
                   console_error msg error)
                k (of_Z 10) w5 _ (of_Z 5) Hf5 Hg5 eq_refl)
      as (w6 & Erun6 & Hf6 & Hs6).
    unfold sub, js_sub. rewrite (bind_run _ _ _ _ _ Erun6).
    rewrite (get_number_run k (number_text pos_zero) pos_zero);
      [reflexivity | exact Hf6 | apply lookup_insert_eq | reflexivity].
Qed.

Lemma sub_clamps_at_zero_witness :
  storage (snd (sub (VStr "gold") (VNum (of_Z 25)) two_entries)) !! "gold"
  = Some "0"%string.
Proof.
  destruct (sub_clamps_at_zero "gold" (of_Z 25) two_entries (VNum (of_Z 10))
              (of_Z 10) eq_refl eq_refl eq_refl) as (H & _).
  rewrite H. reflexivity.
Defined.

(** ** Division by zero *)

(** C4, as the code has it.  A quotient by zero is [NaN] or an infinity, and
    [Math.max(0, _)] leaves [Infinity] and [NaN] as they are; but they have
    no JSON text: [set] writes [null] for them, and the key then reads as
    [0]. *)
Theorem div_by_zero_reads_zero (k : string) (z : bool) (w : world)
    (cur : value) (x : number) :
  faults w = [] -> fst (get (VStr k) w) = Ret cur -> ToNumber cur = Ret x ->
  let quotient := fdiv x (S754_zero z) in
  let w' := snd (div (VStr k) (VNum (S754_zero z)) w) in
  is_finite quotient = false /\
  Float64.max [pos_zero; Infinity] = Infinity /\
  Float64.max [pos_zero; NaN] = NaN /\
  (quotient = NaN \/ quotient = Infinity ->
   storage w' !! k = Some "null"%string) /\
  fst (get (VStr k) w') = Ret zero.
Proof.
  intros Hf Hg Hx quotient w'.
  destruct (div_run k (S754_zero z) w cur x Hf Hg Hx) as (w1 & Erun & Hf1 & Hs1).
  assert (Ew : w' = with_storage
                      (<[k := number_text (Float64.max [pos_zero; quotient])]>
                         (storage w1)) w1).
  { unfold w'. now rewrite Erun. }
  assert (Hk : storage w' !! k
               = Some (number_text (Float64.max [pos_zero; quotient]))).
  { rewrite Ew. apply lookup_insert_eq. }
  assert (Hq : quotient = NaN \/ quotient = Infinity \/ quotient = neg_Infinity).
  { unfold quotient. destruct x as [[] | [] | | [] m e], z; cbn; auto. }
  split; [destruct Hq as [-> | [-> | ->]]; reflexivity |].
  split; [reflexivity |]. split; [reflexivity |]. split.
  - intros [E | E]; rewrite Hk, E; reflexivity.
  - rewrite (get_run_quiet k w') by now rewrite Ew.
    rewrite Hk. destruct Hq as [-> | [-> | ->]]; reflexivity.
Qed.

Lemma div_by_zero_reads_zero_witness :
  storage (snd (div (VStr "gold") (VNum pos_zero) two_entries)) !! "gold"
  = Some "null"%string /\
  fst (get (VStr "gold") (snd (div (VStr "gold") (VNum pos_zero) two_entries)))
  = Ret zero.
Proof.
  destruct (div_by_zero_reads_zero "gold" false two_entries (VNum (of_Z 10))
              (of_Z 10) eq_refl eq_refl eq_refl) as (_ & _ & _ & H1 & H2).
  split; [apply H1; right; reflexivity | exact H2].
Defined.

(** C4 as the specification words it fails on [10 / 0] and on [0 / 0]: the
    key does not read as [Infinity] or [NaN] afterwards. *)
Lemma div_by_zero_not_passed_through :
  fst (get (VStr "gold") (snd (div (VStr "gold") (VNum pos_zero) two_entries)))
  <> Ret (VNum Infinity) /\
  fst (get (VStr "silver") (snd (div (VStr "silver") (VNum pos_zero) two_entries)))
  <> Ret (VNum NaN) /\
  storage (snd (div (VStr "silver") (VNum pos_zero) two_entries)) !! "silver"
  = Some "null"%string.
Proof. repeat split; vm_compute; discriminate. Qed.

(** ** Exceptions *)

(** C5, as the code has it.  With a string for key no method lets an
    exception escape, and the batch methods let none escape whatever they
    are given.  A call the store refuses is reported on the console under
    the message of the method: [get] then answers [0], and [set], [del] and
    [res] change nothing.  A text that cannot be decoded is reported and
    reads as [0].  [add], [sub], [mul] and [div] are no such no-op when
    only their read is refused: the read counts as [0], and the result for
    a balance of [0] is written over the entry; they change nothing when
    their write is refused.  A batch that is given no array reports one
    [TypeError] and changes nothing, and [batchGet] then answers the empty
    object.  A batch whose every call to the store is refused leaves the
    store as it was and reports each refused call. *)
Theorem no_exception_escapes (k : string) (v items : value) (x a : number)
    (w : world) :
  ((exists r w', get (VStr k) w = (Ret r, w')) /\
   (exists r w', set (VStr k) v w = (Ret r, w')) /\
   (exists r w', add (VStr k) v w = (Ret r, w')) /\
   (exists r w', sub (VStr k) v w = (Ret r, w')) /\
   (exists r w', mul (VStr k) v w = (Ret r, w')) /\
   (exists r w', div (VStr k) v w = (Ret r, w')) /\
   (exists r w', del (VStr k) w = (Ret r, w')) /\
   (exists r w', res w = (Ret r, w')) /\
   (exists r w', batchSet items w = (Ret r, w')) /\
   (exists r w', batchAdd items w = (Ret r, w')) /\
   (exists r w', batchSub items w = (Ret r, w')) /\
   (exists r w', batchMul items w = (Ret r, w')) /\
   (exists r w', batchDiv items w = (Ret r, w')) /\
   (exists r w', batchDel items w = (Ret r, w')) /\
   (exists r w', batchGet items w = (Ret r, w'))) /\
  (hd false (faults w) = true ->
   get (VStr k) w
   = (Ret zero, reported ("Error getting key '" +:+ k +:+ "':") DOMException w) /\
   set (VStr k) (VNum x) w
   = (Ret tt, reported ("Error setting key '" +:+ k +:+ "':") DOMException w) /\
   del (VStr k) w
   = (Ret tt, reported ("Error deleting key '" +:+ k +:+ "':") DOMException w) /\
   res w = (Ret tt, reported "Error resetting localStorage:" DOMException w) /\
   storage (snd (set (VStr k) v w)) = storage w) /\
  (forall text e,
      hd false (faults w) = false -> storage w !! k = Some text ->
      JSON_parse (VStr text) = Throw e ->
      fst (get (VStr k) w) = Ret zero /\
      console (snd (get (VStr k) w))
      = ("Error getting key '" +:+ k +:+ "':", e) :: console w /\
      storage (snd (get (VStr k) w)) = storage w) /\
  (forall rest,
      faults w = true :: rest -> hd false rest = false ->
      let read_reported :=
        ("Error getting key '" +:+ k +:+ "':", DOMException) :: console w in
      (storage (snd (add (VStr k) (VNum a) w)) !! k
       = Some (number_text (fadd pos_zero a)) /\
       console (snd (add (VStr k) (VNum a) w)) = read_reported) /\
      (storage (snd (sub (VStr k) (VNum a) w)) !! k
       = Some (number_text (Float64.max [pos_zero; fsub pos_zero a])) /\
       console (snd (sub (VStr k) (VNum a) w)) = read_reported) /\
      (storage (snd (mul (VStr k) (VNum a) w)) !! k
       = Some (number_text (fmul pos_zero a)) /\
       console (snd (mul (VStr k) (VNum a) w)) = read_reported) /\
      (storage (snd (div (VStr k) (VNum a) w)) !! k
       = Some (number_text (Float64.max [pos_zero; fdiv pos_zero a])) /\
       console (snd (div (VStr k) (VNum a) w)) = read_reported)) /\
  (hd false (tl (faults w)) = true ->
   storage (snd (add (VStr k) (VNum a) w)) = storage w /\
   storage (snd (sub (VStr k) (VNum a) w)) = storage w /\
   storage (snd (mul (VStr k) (VNum a) w)) = storage w /\
   storage (snd (div (VStr k) (VNum a) w)) = storage w) /\
  (no_array items ->
   batchGet items w
   = (Ret (VObj []), snd (console_error "Error batch getting:" TypeError w)) /\
   batchSet items w = console_error "Error batch setting:" TypeError w /\
   batchAdd items w = console_error "Error batch adding:" TypeError w /\
   batchSub items w = console_error "Error batch subtracting:" TypeError w /\
   batchMul items w = console_error "Error batch multiplying:" TypeError w /\
   batchDiv items w = console_error "Error batch dividing:" TypeError w /\
   batchDel items w = console_error "Error batch deleting:" TypeError w) /\
  (forall its : list (string * amount),
      (refuses (length its) w ->
       refused_batch (length its) (batchSet (VArr (map item its))) w) /\
      (refuses (2 * length its) w ->
       refused_batch (2 * length its) (batchAdd (VArr (map item its))) w /\
       refused_batch (2 * length its) (batchSub (VArr (map item its))) w /\
       refused_batch (2 * length its) (batchMul (VArr (map item its))) w /\
       refused_batch (2 * length its) (batchDiv (VArr (map item its))) w)) /\
  (forall ks : list string,
      refuses (length ks) w ->
      refused_batch (length ks) (batchDel (VArr (map VStr ks))) w).
Proof.
  split; [| split; [| split; [| split; [| split; [| split; [| split]]]]]].
  - repeat match goal with
           | |- (exists r w', _ = _) /\ _ => split
           end.
    + apply returns_get.
    + apply returns_set.
    + apply returns_add.
    + apply returns_sub.
    + apply returns_mul.
    + apply returns_div.
    + apply returns_del.
    + apply returns_res.
    + apply returns_batch.
    + apply returns_batch.
    + apply returns_batch.
    + apply returns_batch.
    + apply returns_batch.
    + apply returns_batch.
    + apply returns_batchGet.
  - intros Hf.
    split; [now apply get_refused |]. split; [now apply set_refused |].
    split; [now apply del_refused |]. split; [now apply res_refused |].
    now apply set_refused_keeps.
  - intros text e Hf Hk Hp. rewrite get_run. unfold storage_call.
    destruct (faults w) as [| [] rest]; try discriminate; cbn [storage];
      rewrite Hk, Hp; repeat split; reflexivity.
  - intros rest Hf Hrest read_reported.
    set (w1 := World (storage w) rest (entropy w) (draws w) read_reported).
    assert (Hg : get (VStr k) w = (Ret zero, w1)).
    { rewrite get_run. unfold storage_call. rewrite Hf. reflexivity. }
    assert (Hset : forall y,
               storage (snd (set (VStr k) (VNum y) w1)) !! k
               = Some (number_text y) /\
               console (snd (set (VStr k) (VNum y) w1)) = read_reported).
    { intros y. destruct (set_number_accepted k y w1 Hrest) as (w2 & E & Hc).
      rewrite E. cbn [snd with_storage storage console].
      split; [apply lookup_insert_eq | exact Hc]. }
    split; [| split; [| split]].
    + unfold add.
      rewrite (update_run js_add _ k (VNum a) (VNum a) zero
                 (VNum (fadd pos_zero a)) w w w1 eq_refl Hg eq_refl).
      apply Hset.
    + unfold sub.
      rewrite (clamped_update_run js_sub _ k (VNum a) (VNum a) zero
                 (VNum (fsub pos_zero a))
                 (VNum (Float64.max [pos_zero; fsub pos_zero a]))
                 w w w1 eq_refl Hg eq_refl eq_refl).
      apply Hset.
    + unfold mul.
      rewrite (update_run js_mul _ k (VNum a) (VNum a) zero
                 (VNum (fmul pos_zero a)) w w w1 eq_refl Hg eq_refl).
      apply Hset.
    + unfold div.
      rewrite (clamped_update_run js_div _ k (VNum a) (VNum a) zero
                 (VNum (fdiv pos_zero a))
                 (VNum (Float64.max [pos_zero; fdiv pos_zero a]))
                 w w w1 eq_refl Hg eq_refl eq_refl).
      apply Hset.
  - intros Hf. split; [| split; [| split]].
    + exact (update_refused_keeps (fun current => js_add current (VNum a)) _ k w
               Hf (stable_handler _ k)).
    + exact (clamped_update_refused_keeps
               (fun current => js_sub current (VNum a)) _ k w Hf
               (stable_handler _ k)).
    + exact (update_refused_keeps (fun current => js_mul current (VNum a)) _ k w
               Hf (stable_handler _ k)).
    + exact (clamped_update_refused_keeps
               (fun current => js_div current (VNum a)) _ k w Hf
               (stable_handler _ k)).
  - intros Hn. destruct items; try (repeat split; reflexivity).
    contradiction.
  - intros its. apply batch_writes_refused.
  - intros ks. apply batchDel_refused.
Qed.

Lemma no_exception_escapes_witness :
  fst (get (VStr "gold") refusing) = Ret zero /\
  console (snd (set (VStr "gold") (VNum (of_Z 7)) refusing))
  = [("Error setting key 'gold':"%string, DOMException)] /\
  storage (snd (set (VStr "gold") (VNum (of_Z 7)) refusing)) = storage refusing /\
  fst (get (VStr "theme") two_entries) = Ret zero /\
  storage (snd (add (VStr "gold") (VNum (of_Z 5)) refusing)) !! "gold"
  = Some "5"%string /\
  storage (snd (add (VStr "gold") (VNum (of_Z 5)) accepts_read_only)) !! "gold"
  = Some "10"%string /\
  fst (batchGet VUndefined two_entries) = Ret (VObj []) /\
  storage (snd (batchDel (VArr [VStr "gold"]) refusing)) = storage refusing.
Proof.
  destruct (no_exception_escapes "gold" (VNum (of_Z 7)) VUndefined (of_Z 7)
              (of_Z 5) refusing) as (_ & Hr & _ & Ha & _ & _ & _ & Hks).
  destruct (Hks ["gold"%string] eq_refl) as (_ & Hkeep & _).
  destruct (Hr eq_refl) as (Hg & Hs & _ & _ & Hk).
  destruct (Ha [] eq_refl eq_refl) as ((Hadd & _) & _).
  destruct (no_exception_escapes "theme" VNull VUndefined pos_zero pos_zero
              two_entries) as (_ & _ & Hd & _ & _ & Hb & _).
  destruct (Hd "dark"%string SyntaxError eq_refl eq_refl eq_refl) as (Hz & _).
  destruct (Hb I) as (Hbg & _).
  destruct (no_exception_escapes "gold" VNull VUndefined pos_zero (of_Z 5)
              accepts_read_only) as (_ & _ & _ & _ & Hw & _).
  destruct (Hw eq_refl) as (Hw1 & _).
  split; [now rewrite Hg |]. split; [now rewrite Hs |].
  split; [exact Hk |]. split; [exact Hz |].
  split; [now rewrite Hadd |]. split; [now rewrite Hw1 |].
  split; [now rewrite Hbg | exact Hkeep].
Defined.

(** C5 as the specification words it fails for [add] on a store that
    refuses the read and accepts the write: the failure does not make the
    write a no-op, the entry [10] is overwritten with [0 + 5]. *)
Lemma refused_read_is_no_no_op :
  hd false (faults refusing) = true /\
  storage refusing !! "gold" = Some "10"%string /\
  storage (snd (add (VStr "gold") (VNum (of_Z 5)) refusing)) !! "gold"
  = Some "5"%string /\
  storage (snd (add (VStr "gold") (VNum (of_Z 5)) refusing)) <> storage refusing.
Proof.
  repeat split; try reflexivity.
  intros H. apply (f_equal (fun s => s !! "gold"%string)) in H.
  vm_compute in H. discriminate.
Qed.

(** ** Batches in sequence *)

(** C6.  A batch over items [{ key, value }] whose values are numbers or
    ranges of numbers is the sequence of the scalar calls, one per item and
    in the order of the items.  Each range is resolved when its item is
    reached: the scalar call gets [floor(r * (max - min + 1)) + min] for the
    draw [r] the random source gives at that time, and the next range gets
    the next draw.  So two items for one key add up, and two equal ranges
    give two different numbers. *)
Theorem batch_is_sequence_of_scalars (items : list (string * amount))
    (w : world) :
  (batchSet (VArr (map item items)) w
   = for_each (fun ka => set (VStr (fst ka)) (operand (snd ka))) items w /\
   batchAdd (VArr (map item items)) w
   = for_each (fun ka => add (VStr (fst ka)) (operand (snd ka))) items w /\
   batchSub (VArr (map item items)) w
   = for_each (fun ka => sub (VStr (fst ka)) (operand (snd ka))) items w /\
   batchMul (VArr (map item items)) w
   = for_each (fun ka => mul (VStr (fst ka)) (operand (snd ka))) items w /\
   batchDiv (VArr (map item items)) w
   = for_each (fun ka => div (VStr (fst ka)) (operand (snd ka))) items w) /\
  (batchSet (VArr (map item items)) w = for_each (resolving set) items w /\
   batchAdd (VArr (map item items)) w = for_each (resolving add) items w /\
   batchSub (VArr (map item items)) w = for_each (resolving sub) items w /\
   batchMul (VArr (map item items)) w = for_each (resolving mul) items w /\
   batchDiv (VArr (map item items)) w = for_each (resolving div) items w) /\
  (faults w = [] ->
   fst ((set gold (VNum (of_Z 10)) ;;
         batchAdd (VArr (map item five_twice)) ;;
         get gold) w)
   = Ret (VNum (of_Z 20))) /\
  fst ((set gold (VNum (of_Z 10)) ;;
        batchAdd (VArr (map item six_twice)) ;;
        get gold) two_draws)
  = Ret (VNum (of_Z 15)) /\
  fst ((batchSet (VArr (map item three_and_one)) ;; get (VStr "a")) half_world)
  = Ret (VNum (of_Z 3)) /\
  fst ((batchSet (VArr (map item three_and_one)) ;; get (VStr "b")) half_world)
  = Ret (VNum (of_Z 1)).
Proof.
  split; [| split; [| split; [| split; [| split]]]].
  - repeat split.
    + unfold batchSet.
      exact (batch_sequential set
               (fun key v' => localStorage_setItem key (JSON_stringify v')) _
               (fun _ _ => eq_refl) returns_set _ items w).
    + apply batchAdd_sequence.
    + unfold batchSub.
      exact (batch_sequential sub _ _ (fun _ _ => eq_refl) returns_sub _ items w).
    + unfold batchMul.
      exact (batch_sequential mul _ _ (fun _ _ => eq_refl) returns_mul _ items w).
    + unfold batchDiv.
      exact (batch_sequential div _ _ (fun _ _ => eq_refl) returns_div _ items w).
  - repeat split.
    + unfold batchSet.
      exact (batch_resolving set
               (fun key v' => localStorage_setItem key (JSON_stringify v')) _
               (fun _ _ => eq_refl) returns_set _ items w).
    + unfold batchAdd.
      exact (batch_resolving add _ _ (fun _ _ => eq_refl) returns_add _ items w).
    + unfold batchSub.
      exact (batch_resolving sub _ _ (fun _ _ => eq_refl) returns_sub _ items w).
    + unfold batchMul.
      exact (batch_resolving mul _ _ (fun _ _ => eq_refl) returns_mul _ items w).
    + unfold batchDiv.
      exact (batch_resolving div _ _ (fun _ _ => eq_refl) returns_div _ items w).
  - apply gold_scenario.
  - vm_compute. reflexivity.
  - vm_compute. reflexivity.
  - vm_compute. reflexivity.
Qed.

Lemma batch_is_sequence_of_scalars_witness :
  fst ((set gold (VNum (of_Z 10)) ;;
        batchAdd (VArr (map item five_twice)) ;;
        get gold) two_entries)
  = Ret (VNum (of_Z 20)) /\
  storage (snd (batchSet (VArr (map item six_twice)) two_draws)) !! "gold"
  = Some "4"%string.
Proof.
  destruct (batch_is_sequence_of_scalars six_twice two_draws)
    as (_ & (Hset & _) & _).
  destruct (batch_is_sequence_of_scalars [] two_entries)
    as (_ & _ & H & _).
  split; [apply H; reflexivity |]. rewrite Hset. reflexivity.
Defined.

(** ** Clearing *)

(** C7.  When the store accepts the call, [res] leaves it empty, whoever
    wrote the entries, and every key then reads as [0]. *)
Theorem res_clears_store (k : string) (w : world) :
  hd false (faults w) = false ->
  storage (snd (res w)) = ∅ /\
  fst (get (VStr k) (snd (res w))) = Ret zero.
Proof.
  intros Hf. pose proof (res_run w Hf) as E.
  split; [exact E |]. apply get_absent. rewrite E. apply lookup_empty.
Qed.

Lemma res_clears_store_witness :
  storage (snd (res two_entries)) = ∅ /\
  fst (get (VStr "gold") (snd (res two_entries))) = Ret zero.
Proof. apply (res_clears_store "gold" two_entries). reflexivity. Defined.

(** ** Random ranges *)

(** Where the arithmetic is exact the docstring of [randomize] holds.
    [randomize(min, max)] is [floor(random() * (max - min + 1)) + min] in
    binary64 arithmetic and touches nothing but the random source.  For a
    draw in [[0, 1)] and integers [min <= max] below [2^53] in magnitude,
    with fewer than [2^53] values from [min] to [max], the result is an
    integer of that range; so it is [min] when [min = max]. *)
Theorem randomize_in_range (lo hi : Z) (w : world) :
  valid (entropy w (draws w)) = true ->
  flt (entropy w (draws w)) pos_zero = false ->
  flt (entropy w (draws w)) (of_Z 1) = true ->
  - 2 ^ 53 < lo -> lo <= hi -> hi < 2 ^ 53 -> hi - lo + 1 < 2 ^ 53 ->
  (forall a b : number,
      fst (randomize (VNum a) (VNum b) w)
      = Ret (VNum (fadd (floor (fmul (entropy w (draws w))
                                  (fadd (fsub b a) (of_Z 1)))) a))) /\
  (exists k,
      lo <= k <= hi /\
      fst (randomize (VNum (of_Z lo)) (VNum (of_Z hi)) w) = Ret (VNum (of_Z k))) /\
  (lo = hi ->
   fst (randomize (VNum (of_Z lo)) (VNum (of_Z hi)) w) = Ret (VNum (of_Z lo))) /\
  storage (snd (randomize (VNum (of_Z lo)) (VNum (of_Z hi)) w)) = storage w.
Proof.
  intros Hv H0 H1 Hlo Hle Hhi Hcount.
  change (2 ^ 53) with (2 ^ prec) in *.
  assert (Hrange : exists k,
             lo <= k <= hi /\
             fst (randomize (VNum (of_Z lo)) (VNum (of_Z hi)) w)
             = Ret (VNum (of_Z k))).
  { rewrite randomize_formula. cbn [fst].
    rewrite fsub_of_Z by lia. rewrite fadd_of_Z by lia.
    destruct (floor_scaled (entropy w (draws w)) (hi - lo + 1) Hv H0 H1
                ltac:(lia)) as (k & Hk & [E | [E ->]]); rewrite E.
    - exists (k + lo). split; [lia |]. rewrite fadd_of_Z by lia. reflexivity.
    - exists lo. split; [lia |]. unfold neg_zero.
      rewrite fadd_zero_of_Z by lia. reflexivity. }
  split; [intros a b; now rewrite randomize_formula |].
  split; [exact Hrange |]. split; [| apply stable_randomize].
  intros ->. destruct Hrange as (k & Hk & E).
  replace k with hi in E by lia. exact E.
Qed.

Lemma randomize_in_range_witness :
  exists k,
    1 <= k <= 6 /\
    fst (randomize (VNum (of_Z 1)) (VNum (of_Z 6)) half_world)
    = Ret (VNum (of_Z k)).
Proof.
  destruct (randomize_in_range 1 6 half_world) as (_ & H & _);
    [reflexivity | reflexivity | reflexivity | lia | lia | lia | lia |].
  exact H.
Defined.

(** C8.  The code does not do what the claim, and the docstring of
    [randomize] ("a random number between min and max (inclusive)"), say
    for integers as large as [2^1023]: with the draw [0.5] the width of the
    range overflows, and the result is [Infinity], above [max]. *)
Lemma randomize_overflows :
  flt (entropy half_world 0) pos_zero = false /\
  flt (entropy half_world 0) (of_Z 1) = true /\
  valid (of_Z (- 2 ^ 1023)) = true /\ valid (of_Z (2 ^ 1023)) = true /\
  fle (of_Z (- 2 ^ 1023)) (of_Z (2 ^ 1023)) = true /\
  fst (randomize (VNum (of_Z (- 2 ^ 1023))) (VNum (of_Z (2 ^ 1023))) half_world)
  = Ret (VNum Infinity) /\
  fle Infinity (of_Z (2 ^ 1023)) = false.
Proof. repeat split; vm_compute; reflexivity. Qed.

(** ** Frame *)

(** C9.  [set], [add], [sub], [mul], [div] and [del] on the key [k] leave
    the entry of any other key as it was; [get], [batchGet] and [randomize]
    leave the whole store as it was; [res] empties it. *)
Theorem other_keys_untouched (k k' : string) (v keys lo hi : value)
    (w : world) :
  k' <> k ->
  storage (snd (set (VStr k) v w)) !! k' = storage w !! k' /\
  storage (snd (add (VStr k) v w)) !! k' = storage w !! k' /\
  storage (snd (sub (VStr k) v w)) !! k' = storage w !! k' /\
  storage (snd (mul (VStr k) v w)) !! k' = storage w !! k' /\
  storage (snd (div (VStr k) v w)) !! k' = storage w !! k' /\
  storage (snd (del (VStr k) w)) !! k' = storage w !! k' /\
  storage (snd (get (VStr k) w)) = storage w /\
  storage (snd (batchGet keys w)) = storage w /\
  storage (snd (randomize lo hi w)) = storage w /\
  (hd false (faults w) = false -> storage (snd (res w)) = ∅).
Proof.
  intros Hk. repeat split.
  - now apply touches_set.
  - now apply touches_add.
  - now apply touches_sub.
  - now apply touches_mul.
  - now apply touches_div.
  - now apply touches_del.
  - apply stable_get.
  - apply stable_batchGet.
  - apply stable_randomize.
  - apply res_run.
Qed.

Lemma other_keys_untouched_witness :
  storage (snd (sub (VStr "gold") (VNum (of_Z 3)) two_entries)) !! "theme"
  = Some "dark"%string.
Proof.
  pose proof (other_keys_untouched "gold" "theme" (VNum (of_Z 3)) VNull VNull
                VNull two_entries) as H.
  destruct H as (_ & _ & H & _); [discriminate |].
  rewrite H. reflexivity.
Defined.

(** ** Values that are not numbers *)

(** C10, as the code has it.  [set] does not check that its argument is a
    number.  A value that is no range and that JSON carries (a string, a
    boolean, a finite number, or an array or an object of such values and
    [null]) is written as JSON text and read back unchanged, [-0] as [0].
    [null] is not: testing it for a range throws inside [set], which reports
    the error and writes nothing.  [undefined] is written as the text
    [undefined], and a number that is not finite as [null]: both read back
    as [0]. *)
Theorem set_does_not_validate (k : string) (w : world) :
  faults w = [] ->
  (forall v,
      carried v -> v <> VNull -> has_bounds v = false ->
      storage (snd (set (VStr k) v w)) !! k = Some (json_text v) /\
      fst (get (VStr k) (snd (set (VStr k) v w))) = Ret (settle v)) /\
  (forall s,
      storage (snd (set (VStr k) (VStr s) w)) !! k = Some (QuoteJSONString s) /\
      fst (get (VStr k) (snd (set (VStr k) (VStr s) w))) = Ret (VStr s)) /\
  (forall b,
      fst (get (VStr k) (snd (set (VStr k) (VBool b) w))) = Ret (VBool b)) /\
  (storage (snd (set (VStr k) VNull w)) = storage w /\
   console (snd (set (VStr k) VNull w))
   = ("Error setting key '" +:+ k +:+ "':", TypeError) :: console w) /\
  (storage (snd (set (VStr k) VUndefined w)) !! k = Some "undefined"%string /\
   fst (get (VStr k) (snd (set (VStr k) VUndefined w))) = Ret zero) /\
  (forall x,
      is_finite x = false ->
      storage (snd (set (VStr k) (VNum x) w)) !! k = Some "null"%string /\
      fst (get (VStr k) (snd (set (VStr k) (VNum x) w))) = Ret zero).
Proof.
  intros Hf. split; [| split; [| split; [| split; [| split]]]].
  - intros v Hc Hn Hb.
    rewrite (set_stored k v w Hf Hn (carried_defined v Hc) Hb). cbn [snd].
    split; [apply lookup_insert_eq |].
    now rewrite (get_text_run k (json_text v) (settle v)
                   (with_storage (<[k := json_text v]> (storage w)) w)
                   Hf (lookup_insert_eq _ _ _) (value_round_trip v Hc)
                   (settle_not_null v Hn)).
  - intros s.
    rewrite (set_plain_run k (VStr s) (QuoteJSONString s) w Hf eq_refl eq_refl).
    cbn [snd]. split; [apply lookup_insert_eq |].
    now rewrite (get_text_run k _ (VStr s)
                   (with_storage (<[k := QuoteJSONString s]> (storage w)) w)
                   Hf (lookup_insert_eq _ _ _) (string_round_trip s) eq_refl).
  - intros b.
    rewrite (set_plain_run k (VBool b) (if b then "true" else "false") w Hf
               eq_refl); [| now destruct b].
    cbn [snd].
    rewrite (get_text_run k _ (VBool b)
               (with_storage
                  (<[k := if b then "true" else "false"]> (storage w)) w)
               Hf (lookup_insert_eq _ _ _));
      [reflexivity | now destruct b | reflexivity].
  - split; reflexivity.
  - rewrite (set_plain_run k VUndefined "undefined" w Hf eq_refl eq_refl).
    cbn [snd]. split; [apply lookup_insert_eq |].
    rewrite get_run_quiet by exact Hf.
    unfold with_storage. cbn [storage]. rewrite lookup_insert_eq. reflexivity.
  - intros x Hx. rewrite (set_number_run _ _ _ Hf). cbn [snd].
    assert (Et : number_text x = "null"%string).
    { unfold number_text. now rewrite Hx. }
    rewrite Et. split; [apply lookup_insert_eq |].
    rewrite get_run_quiet by exact Hf.
    unfold with_storage. cbn [storage]. rewrite lookup_insert_eq. reflexivity.
Qed.

Lemma set_does_not_validate_witness :
  fst (get (VStr "theme") (snd (set (VStr "theme") (VStr "light") two_entries)))
  = Ret (VStr "light") /\
  fst (get (VStr "theme")
         (snd (set (VStr "theme")
                 (VArr [VNum (of_Z 1); VStr "a"; VBool true; VNull])
                 two_entries)))
  = Ret (VArr [VNum (of_Z 1); VStr "a"; VBool true; VNull]) /\
  fst (get (VStr "theme")
         (snd (set (VStr "theme") (VObj [("min"%string, VNum (of_Z 1))])
                 two_entries)))
  = Ret (VObj [("min"%string, VNum (of_Z 1))]).
Proof.
  destruct (set_does_not_validate "theme" two_entries eq_refl) as (Hv & Hs & _).
  split; [apply Hs |]. split.
  - destruct (Hv (VArr [VNum (of_Z 1); VStr "a"; VBool true; VNull]))
      as (_ & H); [| discriminate | reflexivity | exact H].
    repeat constructor.
  - destruct (Hv (VObj [("min"%string, VNum (of_Z 1))]))
      as (_ & H); [| discriminate | reflexivity | exact H].
    constructor; [apply NoDup_singleton | reflexivity | repeat constructor].
Defined.

(** C10 as the specification words it fails on [undefined] and on [null],
    which are not objects with [min] and [max]: neither is read back.  Nor
    is an [undefined] or a number that is not finite inside an array or an
    object. *)
Lemma set_null_or_undefined_reads_zero :
  storage (snd (set (VStr "silver") VNull two_entries)) !! "silver" = None /\
  fst (get (VStr "silver") (snd (set (VStr "silver") VNull two_entries)))
  <> Ret VNull /\
  fst (get (VStr "silver") (snd (set (VStr "silver") VUndefined two_entries)))
  <> Ret VUndefined /\
  fst (get (VStr "silver") (snd (set (VStr "silver") VUndefined two_entries)))
  = Ret zero /\
  fst (get (VStr "silver")
         (snd (set (VStr "silver") (VArr [VUndefined]) two_entries)))
  = Ret (VArr [VNull]) /\
  fst (get (VStr "silver")
         (snd (set (VStr "silver") (VArr [VNum NaN]) two_entries)))
  = Ret (VArr [VNull]) /\
  fst (get (VStr "silver")
         (snd (set (VStr "silver") (VObj [("a"%string, VUndefined)])
                 two_entries)))
  = Ret (VObj []).
Proof. repeat split; vm_compute; (discriminate || reflexivity). Qed.

(** * Further properties of the methods *)

(** ** Deleting *)

Lemma del_run (k : string) (w : world) :
  hd false (faults w) = false ->
  exists w1,
    del (VStr k) w = (Ret tt, with_storage (delete k (storage w)) w1) /\
    console w1 = console w /\ faults w1 = tl (faults w).
Proof.
  intros Hf. unfold del, try_catch, localStorage_removeItem, bind, lift,
    storage_call. cbn [ToString].
  destruct (faults w) as [| [] rest] eqn:E; try discriminate.
  - exists w. repeat split. now rewrite E.
  - eexists. split; [reflexivity |]. split; reflexivity.
Qed.

(** X1.  When the store accepts the call, [del] removes the entry of its
    key and reports nothing; the key then reads as [0], and a key that had
    no entry leaves the store as it was. *)
Theorem del_removes_entry (k : string) (w : world) :
  hd false (faults w) = false ->
  storage (snd (del (VStr k) w)) = delete k (storage w) /\
  console (snd (del (VStr k) w)) = console w /\
  fst (get (VStr k) (snd (del (VStr k) w))) = Ret zero /\
  (storage w !! k = None -> storage (snd (del (VStr k) w)) = storage w).
Proof.
  intros Hf. destruct (del_run k w Hf) as (w1 & E & Hc & _). rewrite E.
  cbn [snd with_storage storage console].
  split; [reflexivity |]. split; [exact Hc |]. split.
  - apply get_absent. cbn [storage]. apply lookup_delete_eq.
  - intros Hk. now apply delete_id.
Qed.

Lemma del_removes_entry_witness :
  storage (snd (del (VStr "gold") two_entries)) !! "gold" = None /\
  storage (snd (del (VStr "gold") two_entries)) !! "theme" = Some "dark"%string /\
  fst (get (VStr "gold") (snd (del (VStr "gold") two_entries))) = Ret zero.
Proof.
  destruct (del_removes_entry "gold" two_entries eq_refl) as (H & _ & Hg & _).
  rewrite H. split; [reflexivity |]. split; [reflexivity | exact Hg].
Defined.

(** ** Adding and multiplying *)

Lemma add_run (k : string) (a x : number) (w : world) :
  faults w = [] -> fst (get (VStr k) w) = Ret (VNum x) ->
  exists w1,
    add (VStr k) (VNum a) w
    = (Ret tt, with_storage (<[k := number_text (fadd x a)]> (storage w1)) w1) /\
    faults w1 = [] /\ storage w1 = storage w.
Proof.
  intros Hf Hg.
  destruct (get_quiet_run k _ w Hf Hg) as (w1 & E & Hf1 & Hs1).
  exists w1. split; [| now split]. unfold add.
  rewrite (update_run js_add _ k (VNum a) (VNum a) (VNum x)
             (VNum (fadd x a)) w w w1 eq_refl E eq_refl).
  now rewrite (set_number_run k _ w1 Hf1).
Qed.

Lemma mul_run (k : string) (a : number) (w : world) (cur : value)
    (x : number) :
  faults w = [] -> fst (get (VStr k) w) = Ret cur -> ToNumber cur = Ret x ->
  exists w1,
    mul (VStr k) (VNum a) w
    = (Ret tt, with_storage (<[k := number_text (fmul x a)]> (storage w1)) w1) /\
    faults w1 = [] /\ storage w1 = storage w.
Proof.
  intros Hf Hg Hx.
  destruct (get_quiet_run k _ w Hf Hg) as (w1 & E & Hf1 & Hs1).
  exists w1. split; [| now split]. unfold mul.
  rewrite (update_run js_mul _ k (VNum a) (VNum a) cur (VNum (fmul x a))
             w w w1 eq_refl E).
  - now rewrite (set_number_run k _ w1 Hf1).
  - unfold js_mul, arith. rewrite Hx. reflexivity.
Qed.

(** X2.  When the store accepts the calls and the key reads as the number
    [x] ([0] when it has no entry), [add] with the number [a] writes the
    text of [x + a], without clamping; the key then reads as [x + a] when
    that is finite. *)
Theorem add_accumulates (k : string) (a x : number) (w : world) :
  faults w = [] -> fst (get (VStr k) w) = Ret (VNum x) ->
  let w' := snd (add (VStr k) (VNum a) w) in
  storage w' !! k = Some (number_text (fadd x a)) /\
  (valid (fadd x a) = true -> is_finite (fadd x a) = true ->
   fst (get (VStr k) w') = Ret (VNum (read_back (fadd x a)))) /\
  (forall k' : string, k' <> k -> storage w' !! k' = storage w !! k').
Proof.
  intros Hf Hg w'.
  destruct (add_run k a x w Hf Hg) as (w1 & E & Hf1 & Hs1).
  assert (Ew : w' = with_storage (<[k := number_text (fadd x a)]> (storage w1))
                      w1).
  { unfold w'. now rewrite E. }
  rewrite Ew. cbn [with_storage storage].
  split; [apply lookup_insert_eq |]. split.
  - intros Hv Hfin.
    rewrite (get_number_run k (number_text (fadd x a)) (read_back (fadd x a)));
      [reflexivity | exact Hf1 | apply lookup_insert_eq |].
    now apply number_round_trip.
  - intros k' Hk. rewrite lookup_insert_ne by congruence. now rewrite Hs1.
Qed.

Lemma add_accumulates_witness :
  storage (snd (add (VStr "gold") (VNum (of_Z 5)) two_entries)) !! "gold"
  = Some "15"%string /\
  storage (snd (add (VStr "silver") (VNum (of_Z (-5))) two_entries)) !! "silver"
  = Some "-5"%string.
Proof.
  destruct (add_accumulates "gold" (of_Z 5) (of_Z 10) two_entries eq_refl
              eq_refl) as (H & _).
  destruct (add_accumulates "silver" (of_Z (-5)) pos_zero two_entries eq_refl
              eq_refl) as (H' & _).
  rewrite H, H'. split; reflexivity.
Defined.

(** X3.  [add] does not check what the key holds: when it reads as a
    string, [+] concatenates, and the key then reads as that string
    followed by the text of the number. *)
Theorem add_to_text_concatenates (k s : string) (a : number) (w : world) :
  faults w = [] -> fst (get (VStr k) w) = Ret (VStr s) ->
  let w' := snd (add (VStr k) (VNum a) w) in
  storage w' !! k = Some (QuoteJSONString (s +:+ Number_toString a)) /\
  fst (get (VStr k) w') = Ret (VStr (s +:+ Number_toString a)).
Proof.
  intros Hf Hg w'.
  destruct (get_quiet_run k _ w Hf Hg) as (w1 & E & Hf1 & Hs1).
  set (t := s +:+ Number_toString a).
  assert (Ew : w' = with_storage (<[k := QuoteJSONString t]> (storage w1)) w1).
  { unfold w', add.
    rewrite (update_run js_add _ k (VNum a) (VNum a) (VStr s) (VStr t) w w w1
               eq_refl E eq_refl).
    now rewrite (set_plain_run k (VStr t) (QuoteJSONString t) w1 Hf1 eq_refl
                   eq_refl). }
  rewrite Ew. cbn [with_storage storage].
  split; [apply lookup_insert_eq |].
  rewrite (get_text_run k (QuoteJSONString t) (VStr t));
    [reflexivity | exact Hf1 | apply lookup_insert_eq
    | apply string_round_trip | reflexivity].
Qed.

Lemma add_to_text_concatenates_witness :
  fst (get (VStr "gold") (snd (add (VStr "gold") (VNum (of_Z 5)) quoted_ten)))
  = Ret (VStr "105").
Proof.
  destruct (add_to_text_concatenates "gold" "10" (of_Z 5) quoted_ten eq_refl
              eq_refl) as (_ & H).
  rewrite H. reflexivity.
Defined.

(** X4.  When the store accepts the calls and the current value of the key
    converts to the number [x], [mul] with the number [a] writes the text of
    [x * a], without clamping; the key then reads as [x * a] when that is
    finite.  A key without entry reads as [0] afterwards, whatever [a] is. *)
Theorem mul_scales (k : string) (a : number) (w : world) (cur : value)
    (x : number) :
  faults w = [] -> fst (get (VStr k) w) = Ret cur -> ToNumber cur = Ret x ->
  let w' := snd (mul (VStr k) (VNum a) w) in
  storage w' !! k = Some (number_text (fmul x a)) /\
  (valid (fmul x a) = true -> is_finite (fmul x a) = true ->
   fst (get (VStr k) w') = Ret (VNum (read_back (fmul x a)))) /\
  (storage w !! k = None -> fst (get (VStr k) w') = Ret zero).
Proof.
  intros Hf Hg Hx w'.
  destruct (mul_run k a w cur x Hf Hg Hx) as (w1 & E & Hf1 & Hs1).
  assert (Ew : w' = with_storage (<[k := number_text (fmul x a)]> (storage w1))
                      w1).
  { unfold w'. now rewrite E. }
  assert (Hk : storage w' !! k = Some (number_text (fmul x a))).
  { rewrite Ew. apply lookup_insert_eq. }
  assert (Hf' : faults w' = []) by now rewrite Ew.
  split; [exact Hk |]. split.
  - intros Hv Hfin.
    rewrite (get_number_run k (number_text (fmul x a)) (read_back (fmul x a)));
      [reflexivity | exact Hf' | exact Hk |].
    now apply number_round_trip.
  - intros Hno. pose proof (get_absent k w Hno) as H0. rewrite Hg in H0.
    injection H0 as ->. cbn in Hx. injection Hx as <-.
    rewrite (get_run_quiet k w' Hf'), Hk.
    destruct a as [[] | [] | | [] m e]; reflexivity.
Qed.

Lemma mul_scales_witness :
  storage (snd (mul (VStr "gold") (VNum (of_Z (-3))) two_entries)) !! "gold"
  = Some "-30"%string.
Proof.
  destruct (mul_scales "gold" (of_Z (-3)) two_entries (VNum (of_Z 10))
              (of_Z 10) eq_refl eq_refl eq_refl) as (H & _).
  rewrite H. reflexivity.
Defined.

Lemma null_reads_zero (k : string) (w : world) :
  faults w = [] -> storage w !! k = Some "null"%string ->
  fst (get (VStr k) w) = Ret zero.
Proof. intros Hf Hk. rewrite (get_run_quiet k w Hf), Hk. reflexivity. Qed.

(** X5.  A sum or product that is not finite (an overflow, or an amount
    that is [NaN] or an infinity) has no JSON text: [add] and [mul] then
    write [null], and the key reads as [0] afterwards. *)
Theorem overflow_reads_zero (k : string) (a x : number) (w : world) :
  faults w = [] -> fst (get (VStr k) w) = Ret (VNum x) ->
  (is_finite (fadd x a) = false ->
   storage (snd (add (VStr k) (VNum a) w)) !! k = Some "null"%string /\
   fst (get (VStr k) (snd (add (VStr k) (VNum a) w))) = Ret zero) /\
  (is_finite (fmul x a) = false ->
   storage (snd (mul (VStr k) (VNum a) w)) !! k = Some "null"%string /\
   fst (get (VStr k) (snd (mul (VStr k) (VNum a) w))) = Ret zero).
Proof.
  intros Hf Hg. split; intros Hinf.
  - destruct (add_run k a x w Hf Hg) as (w1 & E & Hf1 & Hs1). rewrite E.
    cbn [snd]. unfold number_text. rewrite Hinf.
    assert (Hk : storage (with_storage (<[k := "null"%string]> (storage w1)) w1)
                   !! k = Some "null"%string) by apply lookup_insert_eq.
    split; [exact Hk |]. now apply null_reads_zero.
  - destruct (mul_run k a w (VNum x) x Hf Hg eq_refl) as (w1 & E & Hf1 & Hs1).
    rewrite E. cbn [snd]. unfold number_text. rewrite Hinf.
    assert (Hk : storage (with_storage (<[k := "null"%string]> (storage w1)) w1)
                   !! k = Some "null"%string) by apply lookup_insert_eq.
    split; [exact Hk |]. now apply null_reads_zero.
Qed.

Lemma overflow_reads_zero_witness :
  fst (get (VStr "gold") (snd (mul (VStr "gold") (VNum max_value) two_entries)))
  = Ret zero /\
  fst (get (VStr "gold") (snd (add (VStr "gold") (VNum NaN) two_entries)))
  = Ret zero.
Proof.
  destruct (overflow_reads_zero "gold" max_value (of_Z 10) two_entries eq_refl
              eq_refl) as (_ & Hm).
  destruct (overflow_reads_zero "gold" NaN (of_Z 10) two_entries eq_refl
              eq_refl) as (Ha & _).
  split; [now apply Hm | now apply Ha].
Defined.

(** ** Dividing *)

(** X6.  When the store accepts the calls and the current value of the key
    converts to the number [x], [div] with the number [a] writes the text of
    [max(0, x / a)]; the key then reads as a number that is not below zero,
    which is [max(0, x / a)] itself when that is finite. *)
Theorem div_clamps_at_zero (k : string) (a : number) (w : world)
    (cur : value) (x : number) :
  faults w = [] -> fst (get (VStr k) w) = Ret cur -> ToNumber cur = Ret x ->
  let clamped := Float64.max [pos_zero; fdiv x a] in
  let w' := snd (div (VStr k) (VNum a) w) in
  storage w' !! k = Some (number_text clamped) /\
  exists y,
    fst (get (VStr k) w') = Ret (VNum y) /\ flt y pos_zero = false /\
    (valid clamped = true -> is_finite clamped = true -> y = clamped).
Proof.
  intros Hf Hg Hx clamped w'.
  destruct (div_run k a w cur x Hf Hg Hx) as (w1 & Erun & Hf1 & Hs1).
  assert (Ew : w' = with_storage (<[k := number_text clamped]> (storage w1)) w1).
  { unfold w'. now rewrite Erun. }
  assert (Hk : storage w' !! k = Some (number_text clamped)).
  { rewrite Ew. apply lookup_insert_eq. }
  split; [exact Hk |].
  apply (get_after_clamp k (fdiv x a) w'); [now rewrite Ew | exact Hk].
Qed.

Lemma div_clamps_at_zero_witness :
  storage (snd (div (VStr "gold") (VNum (of_Z 4)) two_entries)) !! "gold"
  = Some "2.5"%string /\
  storage (snd (div (VStr "gold") (VNum (of_Z (-4))) two_entries)) !! "gold"
  = Some "0"%string.
Proof.
  destruct (div_clamps_at_zero "gold" (of_Z 4) two_entries (VNum (of_Z 10))
              (of_Z 10) eq_refl eq_refl eq_refl) as (H & _).
  destruct (div_clamps_at_zero "gold" (of_Z (-4)) two_entries (VNum (of_Z 10))
              (of_Z 10) eq_refl eq_refl eq_refl) as (H' & _).
  rewrite H, H'. split; reflexivity.
Defined.

(** ** Batches of keys *)

Lemma for_each_del (ks : list string) (w : world) :
  faults w = [] ->
  for_each del (map VStr ks) w
  = (Ret tt, with_storage (foldl (fun s k => delete k s) (storage w) ks) w).
Proof.
  revert w. induction ks as [| k ks IH]; intros w Hf.
  - cbn. unfold ret, with_storage. now destruct w.
  - cbn [map for_each foldl]. unfold bind.
    assert (E' : del (VStr k) w
                 = (Ret tt, with_storage (delete k (storage w)) w)).
    { unfold del, try_catch, localStorage_removeItem, bind, lift.
      cbn [ToString]. now rewrite (storage_call_quiet w Hf). }
    rewrite E'. rewrite IH by exact Hf. reflexivity.
Qed.

Lemma foldl_delete_lookup (ks : list string) (s : gmap string string)
    (k : string) :
  foldl (fun s k => delete k s) s ks !! k
  = if bool_decide (k ∈ ks) then None else s !! k.
Proof.
  revert s. induction ks as [| k0 ks IH]; intros s.
  - reflexivity.
  - cbn [foldl]. rewrite IH.
    destruct (decide (k = k0)) as [-> | Hne].
    + rewrite lookup_delete_eq.
      rewrite (bool_decide_eq_true_2 (k0 ∈ k0 :: ks)) by apply list_elem_of_here.
      now destruct (bool_decide (k0 ∈ ks)).
    + rewrite lookup_delete_ne by congruence.
      destruct (decide (k ∈ ks)) as [Hin | Hout].
      * rewrite !bool_decide_eq_true_2; [reflexivity | | exact Hin].
        now apply list_elem_of_further.
      * rewrite !bool_decide_eq_false_2; [reflexivity | | exact Hout].
        intros [-> | H]%elem_of_cons; [now apply Hne | now apply Hout].
Qed.

(** X7.  When the store accepts the calls, [batchDel] removes the entry of
    every key it is given, leaves every other entry as it was and reports
    nothing. *)
Theorem batchDel_removes (ks : list string) (w : world) :
  faults w = [] ->
  let w' := snd (batchDel (VArr (map VStr ks)) w) in
  (forall k, k ∈ ks -> storage w' !! k = None) /\
  (forall k, k ∉ ks -> storage w' !! k = storage w !! k) /\
  console w' = console w.
Proof.
  intros Hf w'.
  assert (Ew : w' = with_storage (foldl (fun s k => delete k s) (storage w) ks)
                      w).
  { unfold w', batchDel, try_catch, forEach.
    now rewrite (for_each_del ks w Hf). }
  rewrite Ew. cbn [with_storage storage console].
  split; [| split; [| reflexivity]]; intros k Hk; rewrite foldl_delete_lookup.
  - now rewrite bool_decide_eq_true_2.
  - now rewrite bool_decide_eq_false_2.
Qed.

Lemma batchDel_removes_witness :
  storage (snd (batchDel (VArr [VStr "gold"; VStr "silver"]) two_entries))
    !! "gold" = None /\
  storage (snd (batchDel (VArr [VStr "gold"; VStr "silver"]) two_entries))
    !! "theme" = Some "dark"%string.
Proof.
  destruct (batchDel_removes ["gold"; "silver"]%string two_entries eq_refl)
    as (H1 & H2 & _).
  split.
  - apply H1. apply list_elem_of_here.
  - rewrite H2; [reflexivity |]. 
    intros H. apply elem_of_cons in H as [H | H]; [discriminate |].
    apply elem_of_cons in H as [H | H]; [discriminate |].
    now apply not_elem_of_nil in H.
Defined.

Lemma lookup_define_eq (k : string) v props :
  lookup_prop k (define_prop k v props) = Some v.
Proof.
  induction props as [| [k0 v0] rest IH]; cbn.
  - now rewrite String.eqb_refl.
  - destruct (String.eqb k0 k) eqn:E; cbn; rewrite E; [reflexivity | exact IH].
Qed.

Lemma lookup_define_ne (k k' : string) v props :
  k' <> k -> lookup_prop k' (define_prop k v props) = lookup_prop k' props.
Proof.
  intros Hne. induction props as [| [k0 v0] rest IH]; cbn.
  - destruct (String.eqb_spec k k'); [congruence | reflexivity].
  - destruct (String.eqb_spec k0 k) as [-> | H0]; cbn.
    + destruct (String.eqb_spec k k'); [congruence | reflexivity].
    + now rewrite IH.
Qed.

Lemma get_same_store (k : string) (w w1 : world) :
  faults w = [] -> faults w1 = [] -> storage w1 = storage w ->
  fst (get (VStr k) w1) = fst (get (VStr k) w).
Proof.
  intros Hf Hf1 Hs. rewrite (get_run_quiet k w Hf), (get_run_quiet k w1 Hf1), Hs.
  destruct (JSON_parse _); reflexivity.
Qed.

Lemma fold_each_get (ks : list string) (acc : list (string * value))
    (w w1 : world) :
  faults w = [] -> faults w1 = [] -> storage w1 = storage w ->
  exists props w2,
    fold_each (fun result key => v <- get key ;; assign_prop result key v)
      (map VStr ks) acc w1 = (Ret props, w2) /\
    (forall k v,
        k ∈ ks -> k <> "__proto__"%string -> fst (get (VStr k) w) = Ret v ->
        lookup_prop k props = Some v) /\
    (forall k, k ∉ ks -> lookup_prop k props = lookup_prop k acc).
Proof.
  intros Hf. revert acc w1.
  induction ks as [| k0 ks IH]; intros acc w1 Hf1 Hs1.
  - exists acc, w1. split; [reflexivity |]. split; [| reflexivity].
    intros k v Hk. now apply elem_of_nil in Hk.
  - cbn [map fold_each]. unfold bind at 1 2.
    destruct (get_quiet k0 w1 Hf1) as (v0 & w2 & E & Hf2 & Hs2). rewrite E.
    unfold assign_prop, bind, lift, ret. cbn [ToString].
    set (acc' := if String.eqb k0 "__proto__" then acc
                 else define_prop k0 v0 acc).
    destruct (IH acc' w2 Hf2 ltac:(congruence)) as (props & w3 & E3 & Hin & Hout).
    exists props, w3. split; [exact E3 |]. split.
    + intros k v Hk Hp Hg.
      destruct (decide (k ∈ ks)) as [Hks | Hks]; [now apply Hin |].
      apply elem_of_cons in Hk as [-> | Hk]; [| contradiction].
      rewrite (Hout _ Hks). unfold acc'.
      destruct (String.eqb_spec k0 "__proto__"); [contradiction |].
      rewrite lookup_define_eq. f_equal.
      pose proof (get_same_store k0 w w1 Hf Hf1 Hs1) as Hsame.
      rewrite E, Hg in Hsame. cbn [fst] in Hsame. congruence.
    + intros k Hk. apply not_elem_of_cons in Hk as [Hne Hks].
      rewrite (Hout _ Hks). unfold acc'.
      destruct (String.eqb k0 "__proto__"); [reflexivity |].
      now apply lookup_define_ne.
Qed.

(** X8.  When the store accepts the calls, [batchGet] returns an object
    that holds, for every key it is given (other than [__proto__], which
    names no property of its own), what [get] returns for that key, and
    nothing for any other key; for no keys it returns the empty object. *)
Theorem batchGet_collects (ks : list string) (w : world) :
  faults w = [] ->
  exists props,
    fst (batchGet (VArr (map VStr ks)) w) = Ret (VObj props) /\
    (forall k v,
        k ∈ ks -> k <> "__proto__"%string -> fst (get (VStr k) w) = Ret v ->
        lookup_prop k props = Some v) /\
    (forall k, k ∉ ks -> lookup_prop k props = None) /\
    (ks = [] -> props = []).
Proof.
  intros Hf.
  destruct (fold_each_get ks [] w w Hf Hf eq_refl) as (props & w2 & E & Hin & Hout).
  exists props. unfold batchGet, try_catch, bind at 1, reduce. rewrite E.
  split; [reflexivity |]. split; [exact Hin |]. split; [exact Hout |].
  intros ->. cbn in E. unfold ret in E. congruence.
Qed.

Lemma batchGet_collects_witness :
  exists props,
    fst (batchGet (VArr [VStr "gold"; VStr "silver"]) two_entries)
    = Ret (VObj props) /\
    lookup_prop "gold" props = Some (VNum (of_Z 10)) /\
    lookup_prop "silver" props = Some zero /\
    lookup_prop "theme" props = None.
Proof.
  destruct (batchGet_collects ["gold"; "silver"]%string two_entries eq_refl)
    as (props & E & Hin & Hout & _).
  exists props. split; [exact E |]. split; [| split].
  - apply Hin; [apply list_elem_of_here | discriminate | reflexivity].
  - apply Hin; [| discriminate | reflexivity].
    apply list_elem_of_further, list_elem_of_here.
  - apply Hout. intros H.
    apply elem_of_cons in H as [H | H]; [discriminate |].
    apply elem_of_cons in H as [H | H]; [discriminate |].
    now apply elem_of_nil in H.
Defined.

(** ** Batches of numbers *)

Lemma for_each_set_numbers (items : list (string * number)) (w : world) :
  faults w = [] ->
  for_each (fun ka => set (VStr (fst ka)) (operand (snd ka)))
    (map fixed_item items) w
  = (Ret tt, with_storage (foldl write_number (storage w) items) w).
Proof.
  revert w. induction items as [| [k x] items IH]; intros w Hf.
  - cbn. unfold ret, with_storage. now destruct w.
  - cbn [map for_each foldl fixed_item fst snd operand]. unfold bind.
    rewrite (set_number_run k x w Hf). rewrite IH by exact Hf. reflexivity.
Qed.

Lemma foldl_write_other (items : list (string * number))
    (s : gmap string string) (k : string) :
  k ∉ map fst items -> foldl write_number s items !! k = s !! k.
Proof.
  revert s. induction items as [| [k0 x0] items IH]; intros s Hk.
  - reflexivity.
  - cbn [map fst] in Hk. apply not_elem_of_cons in Hk as [Hne Hk].
    cbn [foldl]. rewrite IH by exact Hk. unfold write_number. cbn [fst snd].
    apply lookup_insert_ne. congruence.
Qed.

(** X9.  When the store accepts the calls, [batchSet] over items whose
    values are numbers writes the text of each number under its key, in the
    order of the items, and reports nothing: a key listed more than once
    keeps the last of its values, and a key that is not listed keeps its
    entry. *)
Theorem batchSet_writes (items : list (string * number)) (w : world) :
  faults w = [] ->
  let w' := snd (batchSet (VArr (map item (map fixed_item items))) w) in
  storage w' = foldl write_number (storage w) items /\
  (forall before k x after,
      items = before ++ (k, x) :: after -> k ∉ map fst after ->
      storage w' !! k = Some (number_text x)) /\
  (forall k, k ∉ map fst items -> storage w' !! k = storage w !! k) /\
  console w' = console w.
Proof.
  intros Hf w'.
  assert (Ew : w' = with_storage (foldl write_number (storage w) items) w).
  { unfold w', batchSet.
    rewrite (batch_sequential set
               (fun key v' => localStorage_setItem key (JSON_stringify v')) _
               (fun _ _ => eq_refl) returns_set _ (map fixed_item items) w).
    now rewrite (for_each_set_numbers items w Hf). }
  rewrite Ew. cbn [with_storage storage console].
  split; [reflexivity |]. split; [| split; [| reflexivity]].
  - intros before k x after -> Hk. rewrite foldl_app. cbn [foldl].
    rewrite foldl_write_other by exact Hk. apply lookup_insert_eq.
  - intros k Hk. now apply foldl_write_other.
Qed.

Lemma batchSet_writes_witness :
  storage (snd (batchSet
                  (VArr (map item (map fixed_item
                                     [("gold"%string, of_Z 1);
                                      ("silver"%string, of_Z 2);
                                      ("gold"%string, of_Z 3)])))
                  two_entries)) !! "gold"
  = Some "3"%string.
Proof.
  destruct (batchSet_writes
              [("gold"%string, of_Z 1); ("silver"%string, of_Z 2);
               ("gold"%string, of_Z 3)] two_entries eq_refl) as (_ & H & _).
  rewrite (H [("gold"%string, of_Z 1); ("silver"%string, of_Z 2)]
             "gold"%string (of_Z 3) [] eq_refl); [reflexivity |].
  apply not_elem_of_nil.
Defined.

(** ** Batches that cannot be carried out *)

(** X10.  A batch method that is given [undefined], [null], a boolean, a
    number, a string or an object of data properties reports one
    [TypeError] under its own message and does nothing else: none of these
    values has a method [forEach]. *)
Theorem batch_of_no_array_is_reported (items : value) (w : world) :
  no_array items ->
  batchSet items w = console_error "Error batch setting:" TypeError w /\
  batchAdd items w = console_error "Error batch adding:" TypeError w /\
  batchSub items w = console_error "Error batch subtracting:" TypeError w /\
  batchMul items w = console_error "Error batch multiplying:" TypeError w /\
  batchDiv items w = console_error "Error batch dividing:" TypeError w /\
  batchDel items w = console_error "Error batch deleting:" TypeError w.
Proof.
  intros Hn. destruct items; try (repeat split; reflexivity).
  contradiction.
Qed.

Lemma batch_of_no_array_is_reported_witness :
  storage (snd (batchAdd VUndefined two_entries)) = storage two_entries /\
  console (snd (batchAdd VUndefined two_entries))
  = [("Error batch adding:"%string, TypeError)].
Proof.
  destruct (batch_of_no_array_is_reported VUndefined two_entries)
    as (_ & H & _); [exact I |].
  rewrite H. split; reflexivity.
Defined.

Section Abort.
Variable op : value -> value -> M unit.
Variable body : value -> value -> M unit.
Variable handler : value -> error -> M unit.
Hypothesis op_shape :
  forall key v,
    op key v = try_catch (v' <- range_operand v ;; body key v') (handler key).
Hypothesis op_returns : forall (k : string) v, returns (op (VStr k) v).

Lemma for_each_stops (done : list (string * amount)) (bad : value)
    (rest : list value) (e : error) (w : world) :
  get_prop bad "key" = Throw e ->
  for_each (batch_item op) (map item done ++ bad :: rest) w
  = (for_each (fun ka => op (VStr (fst ka)) (operand (snd ka))) done ;;
     throw e) w.
Proof.
  intros Hbad. revert w. induction done as [| ka done IH]; intros w.
  - cbn [map app for_each]. unfold bind at 1. unfold batch_item at 1.
    unfold bind at 1, lift. rewrite Hbad. reflexivity.
  - cbn [map app for_each].
    destruct (op_returns (fst ka) (operand (snd ka)) w) as ([] & w1 & E).
    rewrite (bind_run _ _ w tt w1)
      by now rewrite (batch_item_op op body handler op_shape ka w).
    rewrite IH. unfold bind. rewrite E. reflexivity.
Qed.

Lemma batch_stops msg (done : list (string * amount)) (bad : value)
    (rest : list value) (e : error) (w : world) :
  get_prop bad "key" = Throw e ->
  try_catch (forEach (VArr (map item done ++ bad :: rest)) (batch_item op))
    (fun error => console_error msg error) w
  = (for_each (fun ka => op (VStr (fst ka)) (operand (snd ka))) done ;;
     console_error msg e) w.
Proof.
  intros Hbad. unfold try_catch, forEach.
  rewrite (for_each_stops done bad rest e w Hbad). unfold bind, throw.
  destruct (for_each_returns op op_returns done w) as ([] & w1 & E).
  rewrite E. reflexivity.
Qed.
End Abort.

(** X11.  A batch stops at the first item that is [null] or [undefined]:
    the items before it have been carried out and stay so, the failure is
    reported once under the message of the batch, and the items after it
    are never looked at. *)
Theorem batch_stops_at_missing_item (done : list (string * amount))
    (bad : value) (rest : list value) (w : world) :
  bad = VNull \/ bad = VUndefined ->
  let items := VArr (map item done ++ bad :: rest) in
  batchSet items w
  = (for_each (fun ka => set (VStr (fst ka)) (operand (snd ka))) done ;;
     console_error "Error batch setting:" TypeError) w /\
  batchAdd items w
  = (for_each (fun ka => add (VStr (fst ka)) (operand (snd ka))) done ;;
     console_error "Error batch adding:" TypeError) w /\
  batchSub items w
  = (for_each (fun ka => sub (VStr (fst ka)) (operand (snd ka))) done ;;
     console_error "Error batch subtracting:" TypeError) w /\
  batchMul items w
  = (for_each (fun ka => mul (VStr (fst ka)) (operand (snd ka))) done ;;
     console_error "Error batch multiplying:" TypeError) w /\
  batchDiv items w
  = (for_each (fun ka => div (VStr (fst ka)) (operand (snd ka))) done ;;
     console_error "Error batch dividing:" TypeError) w.
Proof.
  intros Hbad items.
  assert (Hk : get_prop bad "key" = Throw TypeError)
    by (destruct Hbad as [-> | ->]; reflexivity).
  repeat split.
  - exact (batch_stops set
             (fun key v' => localStorage_setItem key (JSON_stringify v')) _
             (fun _ _ => eq_refl) returns_set _ done bad rest _ w Hk).
  - exact (batch_stops add _ _ (fun _ _ => eq_refl) returns_add _ done bad
             rest _ w Hk).
  - exact (batch_stops sub _ _ (fun _ _ => eq_refl) returns_sub _ done bad
             rest _ w Hk).
  - exact (batch_stops mul _ _ (fun _ _ => eq_refl) returns_mul _ done bad
             rest _ w Hk).
  - exact (batch_stops div _ _ (fun _ _ => eq_refl) returns_div _ done bad
             rest _ w Hk).
Qed.

Lemma batch_stops_at_missing_item_witness :
  let w' :=
    snd (batchSet
           (VArr [item ("gold"%string, Fixed (of_Z 1)); VNull;
                  item ("theme"%string, Fixed (of_Z 2))])
           two_entries) in
  storage w' !! "gold" = Some "1"%string /\
  storage w' !! "theme" = Some "dark"%string /\
  console w' = [("Error batch setting:"%string, TypeError)].
Proof.
  destruct (batch_stops_at_missing_item [("gold"%string, Fixed (of_Z 1))] VNull
              [item ("theme"%string, Fixed (of_Z 2))] two_entries
              (or_introl eq_refl)) as (H & _).
  cbv zeta in H. cbn [map app] in H. cbv zeta. rewrite H.
  repeat split; reflexivity.
Defined.

(** ** When the store refuses a call *)

(** X12.  [set] of a number, [del] and [res] report on the console exactly
    when the store refuses their call: one entry, under the message of the
    method with the key in it, and the store is then left as it was.  [get]
    reports a refused call in the same way and answers [0]. *)
Theorem store_faults_are_reported (k : string) (x : number) (w : world) :
  let refused := hd false (faults w) in
  let report (message : string) :=
    if refused then (message, DOMException) :: console w else console w in
  console (snd (set (VStr k) (VNum x) w))
  = report ("Error setting key '" +:+ k +:+ "':") /\
  console (snd (del (VStr k) w))
  = report ("Error deleting key '" +:+ k +:+ "':") /\
  console (snd (res w)) = report "Error resetting localStorage:" /\
  (refused = true ->
   get (VStr k) w
   = (Ret zero,
      World (storage w) (tl (faults w)) (entropy w) (draws w)
        (("Error getting key '" +:+ k +:+ "':", DOMException) :: console w)) /\
   storage (snd (set (VStr k) (VNum x) w)) = storage w /\
   storage (snd (del (VStr k) w)) = storage w /\
   storage (snd (res w)) = storage w).
Proof.
  intros refused report. unfold report, refused.
  assert (Et : ToString (JSON_stringify (VNum x)) = Ret (number_text x)).
  { unfold number_text. destruct x as [[] | [] | | [] m e]; reflexivity. }
  destruct (faults w) as [| [] rest] eqn:E; cbn [hd tl].
  - repeat split; try discriminate.
    + unfold set, try_catch, bind at 1. cbn [range_operand typeof_object ret].
      unfold localStorage_setItem, bind, lift, storage_call.
      cbn [ToString]. rewrite Et, E. reflexivity.
    + unfold del, try_catch, localStorage_removeItem, bind, lift, storage_call.
      cbn [ToString]. rewrite E. reflexivity.
    + unfold res, try_catch, localStorage_clear, bind, storage_call.
      rewrite E. reflexivity.
  - assert (Hset : set (VStr k) (VNum x) w
                   = (Ret tt,
                      World (storage w) rest (entropy w) (draws w)
                        (("Error setting key '" +:+ k +:+ "':", DOMException)
                           :: console w))).
    { unfold set, try_catch, bind at 1. cbn [range_operand typeof_object ret].
      unfold localStorage_setItem, bind at 1 2 3, lift, storage_call.
      cbn [ToString]. rewrite Et, E. reflexivity. }
    assert (Hdel : del (VStr k) w
                   = (Ret tt,
                      World (storage w) rest (entropy w) (draws w)
                        (("Error deleting key '" +:+ k +:+ "':", DOMException)
                           :: console w))).
    { unfold del, try_catch, localStorage_removeItem, bind at 1 2, lift,
        storage_call. cbn [ToString]. rewrite E. reflexivity. }
    assert (Hres : res w
                   = (Ret tt,
                      World (storage w) rest (entropy w) (draws w)
                        (("Error resetting localStorage:"%string, DOMException)
                           :: console w))).
    { unfold res, try_catch, localStorage_clear, bind, storage_call.
      rewrite E. reflexivity. }
    rewrite Hset, Hdel, Hres. cbn [snd console storage].
    repeat split.
    rewrite get_run. unfold storage_call. rewrite E. reflexivity.
  - repeat split; try discriminate.
    + unfold set, try_catch, bind at 1. cbn [range_operand typeof_object ret].
      unfold localStorage_setItem, bind, lift, storage_call.
      cbn [ToString]. rewrite Et, E. reflexivity.
    + unfold del, try_catch, localStorage_removeItem, bind, lift, storage_call.
      cbn [ToString]. rewrite E. reflexivity.
    + unfold res, try_catch, localStorage_clear, bind, storage_call.
      rewrite E. reflexivity.
Qed.

Lemma store_faults_are_reported_witness :
  console (snd (set (VStr "gold") (VNum (of_Z 7)) refusing))
  = [("Error setting key 'gold':"%string, DOMException)] /\
  storage (snd (set (VStr "gold") (VNum (of_Z 7)) refusing)) !! "gold"
  = Some "10"%string /\
  console (snd (set (VStr "gold") (VNum (of_Z 7)) two_entries)) = [].
Proof.
  destruct (store_faults_are_reported "gold" (of_Z 7) refusing)
    as (Hc & _ & _ & H).
  destruct (H eq_refl) as (_ & Hs & _).
  destruct (store_faults_are_reported "gold" (of_Z 7) two_entries)
    as (Hc' & _).
  rewrite Hc, Hs, Hc'. repeat split; reflexivity.
Defined.

(** X13.  When the store refuses the read of [add], [sub], [mul] or [div]
    and accepts the write that follows, the read counts as [0]: the failure
    is reported under the message of [get], and the entry is overwritten
    with the result for a balance of [0], whatever it held. *)
Theorem failed_read_counts_as_zero (k : string) (a : number)
    (rest : list bool) (w : world) :
  faults w = true :: rest -> hd false rest = false ->
  let reported :=
    ("Error getting key '" +:+ k +:+ "':", DOMException) :: console w in
  (storage (snd (add (VStr k) (VNum a) w)) !! k
   = Some (number_text (fadd pos_zero a)) /\
   console (snd (add (VStr k) (VNum a) w)) = reported) /\
  (storage (snd (mul (VStr k) (VNum a) w)) !! k
   = Some (number_text (fmul pos_zero a)) /\
   console (snd (mul (VStr k) (VNum a) w)) = reported) /\
  (storage (snd (sub (VStr k) (VNum a) w)) !! k
   = Some (number_text (Float64.max [pos_zero; fsub pos_zero a])) /\
   console (snd (sub (VStr k) (VNum a) w)) = reported) /\
  (storage (snd (div (VStr k) (VNum a) w)) !! k
   = Some (number_text (Float64.max [pos_zero; fdiv pos_zero a])) /\
   console (snd (div (VStr k) (VNum a) w)) = reported).
Proof.
  intros Hf Hrest reported.
  set (w1 := World (storage w) rest (entropy w) (draws w) reported).
  assert (Hg : get (VStr k) w = (Ret zero, w1)).
  { rewrite get_run. unfold storage_call. rewrite Hf. reflexivity. }
  assert (Hset : forall x,
             storage (snd (set (VStr k) (VNum x) w1)) !! k
             = Some (number_text x) /\
             console (snd (set (VStr k) (VNum x) w1)) = reported).
  { intros x. destruct (set_number_accepted k x w1 Hrest) as (w2 & E & Hc).
    rewrite E. cbn [snd with_storage storage console].
    split; [apply lookup_insert_eq | exact Hc]. }
  split; [| split; [| split]].
  - unfold add.
    rewrite (update_run js_add _ k (VNum a) (VNum a) zero
               (VNum (fadd pos_zero a)) w w w1 eq_refl Hg eq_refl).
    apply Hset.
  - unfold mul.
    rewrite (update_run js_mul _ k (VNum a) (VNum a) zero
               (VNum (fmul pos_zero a)) w w w1 eq_refl Hg eq_refl).
    apply Hset.
  - unfold sub.
    rewrite (clamped_update_run js_sub _ k (VNum a) (VNum a) zero
               (VNum (fsub pos_zero a))
               (VNum (Float64.max [pos_zero; fsub pos_zero a]))
               w w w1 eq_refl Hg eq_refl eq_refl).
    apply Hset.
  - unfold div.
    rewrite (clamped_update_run js_div _ k (VNum a) (VNum a) zero
               (VNum (fdiv pos_zero a))
               (VNum (Float64.max [pos_zero; fdiv pos_zero a]))
               w w w1 eq_refl Hg eq_refl eq_refl).
    apply Hset.
Qed.

Lemma failed_read_counts_as_zero_witness :
  storage refusing !! "gold" = Some "10"%string /\
  storage (snd (add (VStr "gold") (VNum (of_Z 5)) refusing)) !! "gold"
  = Some "5"%string.
Proof.
  destruct (failed_read_counts_as_zero "gold" (of_Z 5) [] refusing eq_refl
              eq_refl) as ((H & _) & _).
  rewrite H. split; reflexivity.
Defined.

(** ** Keys that have no text *)

Lemma template_throws before key after (e : error) (w : world) :
  ToString key = Throw e -> template before key after w = (Throw e, w).
Proof. intros H. unfold template, bind, lift. now rewrite H. Qed.

(** X14.  When the key cannot be converted to a string, the conversion
    fails again while the handler builds its message: [get], [set], [add],
    [sub], [mul], [div] and [del] then throw to their caller and leave store
    and console as they were; [batchDel] catches the failure of its [del]
    and reports it. *)
Theorem key_without_text_escapes (key : value) (e : error) (x : number)
    (w : world) :
  ToString key = Throw e ->
  get key w = (Throw e, w) /\
  set key (VNum x) w = (Throw e, w) /\
  add key (VNum x) w = (Throw e, w) /\
  sub key (VNum x) w = (Throw e, w) /\
  mul key (VNum x) w = (Throw e, w) /\
  div key (VNum x) w = (Throw e, w) /\
  del key w = (Throw e, w) /\
  batchDel (VArr [key]) w = console_error "Error batch deleting:" e w.
Proof.
  intros Hk.
  assert (Hget : get key w = (Throw e, w)).
  { unfold get, try_catch, bind at 1. unfold localStorage_getItem, bind at 1, lift.
    rewrite Hk. unfold bind. now rewrite (template_throws _ _ _ e w Hk). }
  assert (Hdel : del key w = (Throw e, w)).
  { unfold del, try_catch, localStorage_removeItem, bind at 1, lift.
    rewrite Hk. unfold bind. now rewrite (template_throws _ _ _ e w Hk). }
  assert (Harith : forall (rest : value -> M unit) before,
             try_catch
               (amount' <- range_operand (VNum x) ;;
                current <- get key ;;
                rest current)
               (fun error =>
                  msg <- template before key "':" ;; console_error msg error) w
             = (Throw e, w)).
  { intros rest before. unfold try_catch, bind at 1.
    cbn [range_operand typeof_object ret]. unfold bind at 1. rewrite Hget.
    unfold bind. now rewrite (template_throws _ _ _ e w Hk). }
  split; [exact Hget |]. split.
  { unfold set, try_catch, bind at 1. cbn [range_operand typeof_object ret].
    unfold localStorage_setItem, bind at 1, lift. rewrite Hk.
    unfold bind. now rewrite (template_throws _ _ _ e w Hk). }
  split; [apply (Harith (fun current =>
                           total <- lift (js_add current (VNum x)) ;;
                           set key total)) |].
  split; [apply (Harith (fun current =>
                           r <- lift (js_sub current (VNum x)) ;;
                           clamped <- lift (Math_max [zero; r]) ;;
                           set key clamped)) |].
  split; [apply (Harith (fun current =>
                           total <- lift (js_mul current (VNum x)) ;;
                           set key total)) |].
  split; [apply (Harith (fun current =>
                           r <- lift (js_div current (VNum x)) ;;
                           clamped <- lift (Math_max [zero; r]) ;;
                           set key clamped)) |].
  split; [exact Hdel |].
  unfold batchDel, try_catch, forEach. cbn [for_each]. unfold bind.
  rewrite Hdel. reflexivity.
Qed.

Lemma key_without_text_escapes_witness :
  get mute_key two_entries = (Throw TypeError, two_entries) /\
  console (snd (batchDel (VArr [mute_key]) two_entries))
  = [("Error batch deleting:"%string, TypeError)].
Proof.
  destruct (key_without_text_escapes mute_key TypeError pos_zero two_entries
              eq_refl) as (Hg & _ & _ & _ & _ & _ & _ & Hb).
  split; [exact Hg |]. rewrite Hb. reflexivity.
Defined.

(** ** Ranges *)

(** X15.  [randomize] does not convert its bounds: when [min] is a string,
    the width of the range is computed from its numeric value, but the last
    [+ min] concatenates, and the result is the text of the whole number
    drawn followed by [min].  [set] with such a range stores that string. *)
Theorem randomize_keeps_text_bound (k s : string) (hi : number) (w : world) :
  faults w = [] ->
  let width := fadd (fsub hi (StringToNumber s)) (of_Z 1) in
  let whole := floor (fmul (entropy w (draws w)) width) in
  let range := VObj [("min"%string, VStr s); ("max"%string, VNum hi)] in
  fst (randomize (VStr s) (VNum hi) w)
  = Ret (VStr (Number_toString whole +:+ s)) /\
  fst ((set (VStr k) range ;; get (VStr k)) w)
  = Ret (VStr (Number_toString whole +:+ s)).
Proof.
  intros Hf width whole range. split; [reflexivity |].
  set (t := Number_toString whole +:+ s).
  set (w1 := World (storage w) (faults w) (entropy w) (S (draws w)) (console w)).
  assert (Hset : set (VStr k) range w
                 = (Ret tt,
                    with_storage (<[k := QuoteJSONString t]> (storage w1)) w1)).
  { unfold set, try_catch, bind at 1.
    assert (Er : range_operand range w = (Ret (VStr t), w1)) by reflexivity.
    rewrite Er. unfold localStorage_setItem, bind, lift. cbn [ToString].
    rewrite (storage_call_quiet w1 Hf). reflexivity. }
  rewrite (bind_run _ _ _ _ _ Hset).
  rewrite (get_text_run k (QuoteJSONString t) (VStr t));
    [reflexivity | exact Hf | apply lookup_insert_eq
    | apply string_round_trip | reflexivity].
Qed.

Lemma randomize_keeps_text_bound_witness :
  fst (randomize (VStr "1") (VNum (of_Z 3)) half_world) = Ret (VStr "11") /\
  fst ((set (VStr "gold")
          (VObj [("min"%string, VStr "1"); ("max"%string, VNum (of_Z 3))]) ;;
        get (VStr "gold")) half_world)
  = Ret (VStr "11").
Proof.
  destruct (randomize_keeps_text_bound "gold" "1" (of_Z 3) half_world eq_refl)
    as (H1 & H2).
  cbv zeta in H1, H2. rewrite H1, H2. split; reflexivity.
Defined.

(** ** Draws from the random source *)

Lemma steady_storage_call : keeps draws storage_call.
Proof.
  intros w. unfold storage_call. destruct (faults w) as [| [] rest]; reflexivity.
Qed.

Lemma steady_console_error msg e : keeps draws (console_error msg e).
Proof. intros w. reflexivity. Qed.

Lemma steady_getItem key : keeps draws (localStorage_getItem key).
Proof.
  unfold localStorage_getItem.
  apply keeps_bind; [apply keeps_lift | intros k].
  apply keeps_bind; [apply steady_storage_call | intros _].
  intros w. reflexivity.
Qed.

Lemma steady_setItem key v : keeps draws (localStorage_setItem key v).
Proof.
  unfold localStorage_setItem.
  apply keeps_bind; [apply keeps_lift | intros k].
  apply keeps_bind; [apply keeps_lift | intros text].
  apply keeps_bind; [apply steady_storage_call | intros _].
  intros w. reflexivity.
Qed.

Lemma steady_handler before key after e :
  keeps draws (msg <- template before key after ;; console_error msg e).
Proof.
  apply keeps_bind; [apply keeps_template | intros msg].
  apply steady_console_error.
Qed.

Lemma steady_get key : keeps draws (get key).
Proof.
  unfold get. apply keeps_try_catch.
  - apply keeps_bind; [apply steady_getItem | intros text].
    apply keeps_bind; [apply keeps_lift | intros data].
    destruct (is_null data); apply keeps_ret.
  - intros e. apply keeps_bind; [apply keeps_template | intros msg].
    apply keeps_bind; [apply steady_console_error | intros _]. apply keeps_ret.
Qed.

(** [set] draws nothing for a value that is no object. *)
Lemma steady_set key v : typeof_object v = false -> keeps draws (set key v).
Proof.
  intros Hv. unfold set. apply keeps_try_catch; [| intros e; apply steady_handler].
  apply keeps_bind; [| intros v'; apply steady_setItem].
  unfold range_operand. rewrite Hv. apply keeps_ret.
Qed.

Lemma js_add_plain a b t : js_add a b = Ret t -> typeof_object t = false.
Proof.
  unfold js_add. destruct (ToPrimitive a) as [pa | e]; [| discriminate].
  destruct (ToPrimitive b) as [pb | e]; [| discriminate]. cbn [obind].
  destruct pa, pb; cbn [obind];
    repeat match goal with
           | |- context [ToString ?v] => destruct (ToString v); cbn [obind]
           end;
    intros H; try discriminate; injection H as <-; reflexivity.
Qed.

Lemma arith_plain op a b t : arith op a b = Ret t -> typeof_object t = false.
Proof.
  unfold arith. destruct (ToNumber a); [| discriminate].
  destruct (ToNumber b); [| discriminate]. cbn [obind].
  intros H. injection H as <-. reflexivity.
Qed.

Lemma Math_max_plain args t : Math_max args = Ret t -> typeof_object t = false.
Proof.
  unfold Math_max. destruct (sequence (map ToNumber args)); [| discriminate].
  cbn [obind]. intros H. injection H as <-. reflexivity.
Qed.

Lemma steady_update (op : value -> value -> outcome value) key amount :
  (forall a b t, op a b = Ret t -> typeof_object t = false) ->
  keeps draws (current <- get key ;;
               total <- lift (op current amount) ;;
               set key total).
Proof.
  intros Hop. apply keeps_bind; [apply steady_get | intros current].
  intros w. unfold bind, lift.
  destruct (op current amount) as [total | e] eqn:E; [| reflexivity].
  apply steady_set. now apply (Hop current amount).
Qed.

Lemma steady_clamped_update (op : value -> value -> outcome value) key amount :
  keeps draws (current <- get key ;;
               r <- lift (op current amount) ;;
               clamped <- lift (Math_max [zero; r]) ;;
               set key clamped).
Proof.
  apply keeps_bind; [apply steady_get | intros current].
  apply keeps_bind; [apply keeps_lift | intros r].
  intros w. unfold bind, lift.
  destruct (Math_max [zero; r]) as [clamped | e] eqn:E; [| reflexivity].
  apply steady_set. now apply (Math_max_plain [zero; r]).
Qed.

Lemma range_operand_tally (a : amount) (w : world) :
  exists x w0,
    range_operand (operand a) w = (Ret (VNum x), w0) /\
    draws w0 = (draws_of a + draws w)%nat.
Proof.
  destruct a as [x | lo hi].
  - exists x, w. split; reflexivity.
  - eexists _, _. split; reflexivity.
Qed.

Section Tally.
Variable op : value -> value -> M unit.
Variable body : value -> value -> M unit.
Variable handler : value -> error -> M unit.
Hypothesis op_shape :
  forall key v,
    op key v = try_catch (v' <- range_operand v ;; body key v') (handler key).
Hypothesis op_returns : forall (k : string) v, returns (op (VStr k) v).
Hypothesis body_steady : forall key x, keeps draws (body key (VNum x)).
Hypothesis handler_steady : forall key e, keeps draws (handler key e).

Lemma op_tally key (a : amount) (w : world) :
  draws (snd (op key (operand a) w)) = (draws_of a + draws w)%nat.
Proof.
  rewrite op_shape. unfold try_catch, bind.
  destruct (range_operand_tally a w) as (x & w0 & E & Hd). rewrite E.
  pose proof (body_steady key x w0) as Hb.
  destruct (body key (VNum x) w0) as [[u | e] w1]; cbn [snd] in *.
  - congruence.
  - rewrite handler_steady. congruence.
Qed.

Lemma for_each_tally (items : list (string * amount)) (w : world) :
  draws (snd (for_each (fun ka => op (VStr (fst ka)) (operand (snd ka)))
                items w))
  = (ranges items + draws w)%nat.
Proof.
  revert w. induction items as [| ka items IH]; intros w.
  - reflexivity.
  - cbn [for_each]. unfold bind.
    pose proof (op_tally (VStr (fst ka)) (snd ka) w) as Ht.
    destruct (op_returns (fst ka) (operand (snd ka)) w) as ([] & w1 & E).
    rewrite E in *. cbn [snd] in Ht. rewrite IH, Ht.
    cbn [ranges]. lia.
Qed.

Lemma batch_tally msg (items : list (string * amount)) (w : world) :
  draws (snd (try_catch (forEach (VArr (map item items)) (batch_item op))
                (fun error => console_error msg error) w))
  = (ranges items + draws w)%nat.
Proof.
  rewrite (batch_sequential op body handler op_shape op_returns msg items w).
  apply for_each_tally.
Qed.
End Tally.

(** X16.  Every operand that is a range of numbers costs exactly one draw
    from the random source, at the time its method is called, and nothing
    else draws: a scalar method draws once for a range and never for a
    number, a batch draws once for each of its ranges, and [get] never
    draws.  This holds whether or not the store accepts the calls. *)
Theorem one_draw_per_range (k : string) (a : amount)
    (items : list (string * amount)) (w : world) :
  (draws (snd (set (VStr k) (operand a) w)) = (draws_of a + draws w)%nat /\
   draws (snd (add (VStr k) (operand a) w)) = (draws_of a + draws w)%nat /\
   draws (snd (sub (VStr k) (operand a) w)) = (draws_of a + draws w)%nat /\
   draws (snd (mul (VStr k) (operand a) w)) = (draws_of a + draws w)%nat /\
   draws (snd (div (VStr k) (operand a) w)) = (draws_of a + draws w)%nat) /\
  (draws (snd (batchSet (VArr (map item items)) w)) = (ranges items + draws w)%nat /\
   draws (snd (batchAdd (VArr (map item items)) w)) = (ranges items + draws w)%nat /\
   draws (snd (batchSub (VArr (map item items)) w)) = (ranges items + draws w)%nat /\
   draws (snd (batchMul (VArr (map item items)) w)) = (ranges items + draws w)%nat /\
   draws (snd (batchDiv (VArr (map item items)) w)) = (ranges items + draws w)%nat) /\
  draws (snd (get (VStr k) w)) = draws w.
Proof.
  assert (Hset : forall key x,
             keeps draws (localStorage_setItem key (JSON_stringify (VNum x))))
    by (intros; apply steady_setItem).
  assert (Hadd : forall key x,
             keeps draws (current <- get key ;;
                          total <- lift (js_add current (VNum x)) ;;
                          set key total))
    by (intros; apply steady_update; apply js_add_plain).
  assert (Hmul : forall key x,
             keeps draws (current <- get key ;;
                          total <- lift (js_mul current (VNum x)) ;;
                          set key total))
    by (intros; apply steady_update; apply arith_plain).
  assert (Hsub : forall key x,
             keeps draws (current <- get key ;;
                          r <- lift (js_sub current (VNum x)) ;;
                          clamped <- lift (Math_max [zero; r]) ;;
                          set key clamped))
    by (intros; apply steady_clamped_update).
  assert (Hdiv : forall key x,
             keeps draws (current <- get key ;;
                          r <- lift (js_div current (VNum x)) ;;
                          clamped <- lift (Math_max [zero; r]) ;;
                          set key clamped))
    by (intros; apply steady_clamped_update).
  assert (Hh : forall before key e,
             keeps draws (msg <- template before key "':" ;;
                          console_error msg e))
    by (intros; apply steady_handler).
  split; [| split; [| apply steady_get]].
  - repeat split.
    + exact (op_tally set _ _ (fun _ _ => eq_refl) Hset
               (fun key e => Hh _ key e) (VStr k) a w).
    + exact (op_tally add _ _ (fun _ _ => eq_refl) Hadd
               (fun key e => Hh _ key e) (VStr k) a w).
    + exact (op_tally sub _ _ (fun _ _ => eq_refl) Hsub
               (fun key e => Hh _ key e) (VStr k) a w).
    + exact (op_tally mul _ _ (fun _ _ => eq_refl) Hmul
               (fun key e => Hh _ key e) (VStr k) a w).
    + exact (op_tally div _ _ (fun _ _ => eq_refl) Hdiv
               (fun key e => Hh _ key e) (VStr k) a w).
  - repeat split.
    + exact (batch_tally set _ _ (fun _ _ => eq_refl) returns_set Hset
               (fun key e => Hh _ key e) _ items w).
    + exact (batch_tally add _ _ (fun _ _ => eq_refl) returns_add Hadd
               (fun key e => Hh _ key e) _ items w).
    + exact (batch_tally sub _ _ (fun _ _ => eq_refl) returns_sub Hsub
               (fun key e => Hh _ key e) _ items w).
    + exact (batch_tally mul _ _ (fun _ _ => eq_refl) returns_mul Hmul
               (fun key e => Hh _ key e) _ items w).
    + exact (batch_tally div _ _ (fun _ _ => eq_refl) returns_div Hdiv
               (fun key e => Hh _ key e) _ items w).
Qed.

(** ** Whole numbers *)

Lemma of_Z_plain (z : Z) :
  Z.abs z < 2 ^ prec ->
  valid (of_Z z) = true /\ is_finite (of_Z z) = true /\
  read_back (of_Z z) = of_Z z.
Proof.
  intros Hz. destruct (Z.eq_dec z 0) as [-> | Hne].
  - repeat split; reflexivity.
  - destruct (of_Z_finite z Hne Hz) as (m & e & E & Hb & _).
    rewrite E. repeat split. exact Hb.
Qed.

(** A whole number below [2^53] in magnitude reads back from its text. *)
Lemma integer_round_trip (z : Z) :
  Z.abs z < 2 ^ prec ->
  JSON_parse (VStr (number_text (of_Z z))) = Ret (VNum (of_Z z)).
Proof.
  intros Hz. destruct (of_Z_plain z Hz) as (Hv & Hfin & Hr).
  rewrite <- Hr at 2. now apply number_round_trip.
Qed.

Lemma max_zero_of_Z (z : Z) :
  Z.abs z < 2 ^ prec -> Float64.max [pos_zero; of_Z z] = of_Z (Z.max 0 z).
Proof.
  intros Hz. destruct (Z.eq_dec z 0) as [-> | Hne]; [reflexivity |].
  destruct (of_Z_finite z Hne Hz) as (m & e & E & _).
  rewrite E. destruct (Z.ltb_spec z 0) as [Hneg | Hpos].
  - rewrite Z.max_l by lia. reflexivity.
  - rewrite Z.max_r by lia. rewrite E.
    replace (z <? 0) with false by (symmetry; apply Z.ltb_ge; lia).
    reflexivity.
Qed.

Lemma holds_get (k : string) (z : Z) (w : world) :
  Z.abs z < 2 ^ prec -> holds k z w -> get (VStr k) w = (Ret (VNum (of_Z z)), w).
Proof.
  intros Hz [Hf Hk].
  apply (get_number_run k (number_text (of_Z z))); auto using integer_round_trip.
Qed.

Lemma holds_set (k : string) (z : Z) (w : world) :
  faults w = [] ->
  exists w1, set (VStr k) (VNum (of_Z z)) w = (Ret tt, w1) /\ holds k z w1 /\
             forall k' : string, k' <> k -> storage w1 !! k' = storage w !! k'.
Proof.
  intros Hf. rewrite (set_number_run k _ w Hf). eexists. split; [reflexivity |].
  split; [split; [exact Hf | apply lookup_insert_eq] |].
  intros k' Hk. cbn [with_storage storage]. apply lookup_insert_ne. congruence.
Qed.

Lemma add_integers (k : string) (x a : Z) (w : world) :
  Z.abs x < 2 ^ prec -> Z.abs a < 2 ^ prec -> Z.abs (x + a) < 2 ^ prec ->
  holds k x w ->
  exists w1, add (VStr k) (VNum (of_Z a)) w = (Ret tt, w1) /\ holds k (x + a) w1.
Proof.
  intros Hx Ha Hxa Hh. pose proof (holds_get k x w Hx Hh) as Hg.
  destruct Hh as [Hf Hk]. unfold add.
  rewrite (update_run js_add _ k (VNum (of_Z a)) (VNum (of_Z a)) (VNum (of_Z x))
             (VNum (of_Z (x + a))) w w w eq_refl Hg).
  - destruct (holds_set k (x + a) w Hf) as (w1 & E & H1 & _). now exists w1.
  - cbn. now rewrite fadd_of_Z.
Qed.

Lemma sub_integers (k : string) (x a : Z) (w : world) :
  Z.abs x < 2 ^ prec -> Z.abs a < 2 ^ prec -> Z.abs (x - a) < 2 ^ prec ->
  holds k x w ->
  exists w1,
    sub (VStr k) (VNum (of_Z a)) w = (Ret tt, w1) /\
    holds k (Z.max 0 (x - a)) w1.
Proof.
  intros Hx Ha Hxa Hh. pose proof (holds_get k x w Hx Hh) as Hg.
  destruct Hh as [Hf Hk]. unfold sub.
  rewrite (clamped_update_run js_sub _ k (VNum (of_Z a)) (VNum (of_Z a))
             (VNum (of_Z x)) (VNum (of_Z (x - a)))
             (VNum (of_Z (Z.max 0 (x - a)))) w w w eq_refl Hg).
  - destruct (holds_set k (Z.max 0 (x - a)) w Hf) as (w1 & E & H1 & _).
    now exists w1.
  - cbn. now rewrite fsub_of_Z.
  - change (Math_max [zero; VNum (of_Z (x - a))])
      with (Ret (VNum (Float64.max [pos_zero; of_Z (x - a)]))).
    now rewrite max_zero_of_Z.
Qed.

(** X17.  On whole numbers below [2^53] in magnitude the arithmetic is
    exact.  For a key that holds the whole number [x], [add] of [a] leaves
    [x + a] and [sub] of [a] leaves [max(0, x - a)]; so [add] followed by
    [sub] of the same amount restores a balance [x >= 0], while [sub]
    followed by [add] leaves the larger of [x] and [a]: what the clamp cut
    off is not given back. *)
Theorem whole_numbers_are_exact (k : string) (x a : Z) (w : world) :
  0 <= x < 2 ^ 53 -> Z.abs a < 2 ^ 53 ->
  Z.abs (x + a) < 2 ^ 53 -> Z.abs (x - a) < 2 ^ 53 ->
  faults w = [] -> storage w !! k = Some (number_text (of_Z x)) ->
  let amount := VNum (of_Z a) in
  fst ((add (VStr k) amount ;; get (VStr k)) w) = Ret (VNum (of_Z (x + a))) /\
  fst ((sub (VStr k) amount ;; get (VStr k)) w)
  = Ret (VNum (of_Z (Z.max 0 (x - a)))) /\
  fst ((add (VStr k) amount ;; sub (VStr k) amount ;; get (VStr k)) w)
  = Ret (VNum (of_Z x)) /\
  fst ((sub (VStr k) amount ;; add (VStr k) amount ;; get (VStr k)) w)
  = Ret (VNum (of_Z (Z.max x a))).
Proof.
  intros Hx Ha Hxa Hxs Hf Hk amount.
  change (2 ^ 53) with (2 ^ prec) in *.
  assert (Hh : holds k x w) by now split.
  destruct (add_integers k x a w ltac:(lia) Ha Hxa Hh) as (w1 & E1 & H1).
  destruct (sub_integers k x a w ltac:(lia) Ha Hxs Hh) as (w2 & E2 & H2).
  destruct (sub_integers k (x + a) a w1 Hxa Ha ltac:(lia) H1)
    as (w3 & E3 & H3).
  destruct (add_integers k (Z.max 0 (x - a)) a w2 ltac:(lia) Ha ltac:(lia) H2)
    as (w4 & E4 & H4).
  unfold amount. split; [| split; [| split]].
  - rewrite (bind_run _ _ _ _ _ E1).
    now rewrite (holds_get k (x + a) w1 Hxa H1).
  - rewrite (bind_run _ _ _ _ _ E2).
    now rewrite (holds_get k (Z.max 0 (x - a)) w2 ltac:(lia) H2).
  - rewrite (bind_run _ _ _ _ _ E1), (bind_run _ _ _ _ _ E3).
    rewrite (holds_get k (Z.max 0 (x + a - a)) w3 ltac:(lia) H3).
    cbn [fst]. do 3 f_equal. lia.
  - rewrite (bind_run _ _ _ _ _ E2), (bind_run _ _ _ _ _ E4).
    rewrite (holds_get k (Z.max 0 (x - a) + a) w4 ltac:(lia) H4).
    cbn [fst]. do 3 f_equal. lia.
Qed.

Lemma whole_numbers_are_exact_witness :
  fst ((sub (VStr "gold") (VNum (of_Z 25)) ;;
        add (VStr "gold") (VNum (of_Z 25)) ;;
        get (VStr "gold")) two_entries)
  = Ret (VNum (of_Z 25)).
Proof.
  destruct (whole_numbers_are_exact "gold" 10 25 two_entries) as (_ & _ & _ & H);
    [lia | lia | lia | lia | reflexivity | reflexivity |].
  exact H.
Defined.

(** ** Ranges of whole numbers *)

Lemma randomize_integers (lo hi : Z) (w : world) :
  valid (entropy w (draws w)) = true ->
  flt (entropy w (draws w)) pos_zero = false ->
  flt (entropy w (draws w)) (of_Z 1) = true ->
  - 2 ^ prec < lo -> lo <= hi -> hi < 2 ^ prec -> hi - lo + 1 < 2 ^ prec ->
  exists n,
    lo <= n <= hi /\
    randomize (VNum (of_Z lo)) (VNum (of_Z hi)) w
    = (Ret (VNum (of_Z n)), after_draw w).
Proof.
  intros Hv H0 H1 Hlo Hle Hhi Hcount.
  rewrite randomize_formula. fold (after_draw w).
  rewrite fsub_of_Z by lia. rewrite fadd_of_Z by lia.
  destruct (floor_scaled (entropy w (draws w)) (hi - lo + 1) Hv H0 H1
              ltac:(lia)) as (j & Hj & [E | [E ->]]); rewrite E.
  - exists (j + lo). split; [lia |]. now rewrite fadd_of_Z by lia.
  - exists lo. split; [lia |]. unfold neg_zero.
    now rewrite fadd_zero_of_Z by lia.
Qed.

Lemma set_resolved (k : string) (v v' : value) (w w0 : world) :
  range_operand v w = (Ret v', w0) -> typeof_object v' = false ->
  set (VStr k) v w = set (VStr k) v' w0.
Proof.
  intros Hr Hv. unfold set, try_catch. unfold bind at 1. rewrite Hr.
  unfold bind at 1. unfold range_operand. rewrite Hv. reflexivity.
Qed.

(** X18.  When the store accepts the calls and the random source draws
    from [[0, 1)], an operand [{ min, max }] of whole numbers [min <= max]
    (below [2^53] in magnitude, fewer than [2^53] in the range) stands for
    one whole number [n] of the range: [set] stores [n], and [add] on a key
    that holds the whole number [x] leaves [x + n]. *)
Theorem range_stands_for_a_whole_number (k : string) (lo hi : Z) (w : world) :
  faults w = [] ->
  valid (entropy w (draws w)) = true ->
  flt (entropy w (draws w)) pos_zero = false ->
  flt (entropy w (draws w)) (of_Z 1) = true ->
  - 2 ^ 53 < lo -> lo <= hi -> hi < 2 ^ 53 -> hi - lo + 1 < 2 ^ 53 ->
  let range := operand (Range (of_Z lo) (of_Z hi)) in
  exists n,
    lo <= n <= hi /\
    fst ((set (VStr k) range ;; get (VStr k)) w) = Ret (VNum (of_Z n)) /\
    (forall x,
        Z.abs x < 2 ^ 53 -> Z.abs (x + lo) < 2 ^ 53 -> Z.abs (x + hi) < 2 ^ 53 ->
        storage w !! k = Some (number_text (of_Z x)) ->
        fst ((add (VStr k) range ;; get (VStr k)) w)
        = Ret (VNum (of_Z (x + n)))).
Proof.
  intros Hf Hv H0 H1 Hlo Hle Hhi Hcount range.
  change (2 ^ 53) with (2 ^ prec) in *.
  destruct (randomize_integers lo hi w Hv H0 H1 Hlo Hle Hhi Hcount)
    as (n & Hn & Er).
  assert (Hr : range_operand range w = (Ret (VNum (of_Z n)), after_draw w))
    by exact Er.
  exists n. split; [exact Hn |]. split.
  - destruct (holds_set k n (after_draw w) Hf) as (w1 & E1 & H1' & _).
    rewrite (bind_run _ _ w tt w1)
      by now rewrite (set_resolved k range _ w _ Hr eq_refl).
    now rewrite (holds_get k n w1 ltac:(lia) H1').
  - intros x Hx Hxlo Hxhi Hk.
    assert (Hh : holds k x (after_draw w)) by now split.
    pose proof (holds_get k x (after_draw w) Hx Hh) as Hg.
    destruct (holds_set k (x + n) (after_draw w) Hf) as (w1 & E1 & H1' & _).
    assert (Eadd : add (VStr k) range w = (Ret tt, w1)).
    { unfold add.
      rewrite (update_run js_add _ k range (VNum (of_Z n)) (VNum (of_Z x))
                 (VNum (of_Z (x + n))) w (after_draw w) (after_draw w) Hr Hg);
        [exact E1 |].
      cbn. now rewrite fadd_of_Z by lia. }
    rewrite (bind_run _ _ w tt w1 Eadd).
    now rewrite (holds_get k (x + n) w1 ltac:(lia) H1').
Qed.

Lemma range_stands_for_a_whole_number_witness :
  exists n,
    1 <= n <= 6 /\
    fst ((set (VStr "gold") (operand (Range (of_Z 1) (of_Z 6))) ;;
          get (VStr "gold")) half_world)
    = Ret (VNum (of_Z n)).
Proof.
  destruct (range_stands_for_a_whole_number "gold" 1 6 half_world)
    as (n & Hn & H & _);
    [reflexivity | reflexivity | reflexivity | reflexivity
    | lia | lia | lia | lia |].
  exists n. split; [exact Hn | exact H].
Defined.

(** ** Bounds in the wrong order *)

Lemma binary_round_aux_opp s M E l :
  binary_round_aux prec emax (negb s) M E l
  = SFopp (binary_round_aux prec emax s M E l).
Proof.
  unfold binary_round_aux.
  destruct (shr_fexp prec emax M E l) as [mrs' e'].
  destruct (shr_fexp prec emax _ e' loc_Exact) as [mrs'' e''].
  destruct (shr_m mrs''); [reflexivity | | reflexivity].
  destruct (e'' <=? emax - prec); reflexivity.
Qed.

Lemma of_Z_opp (z : Z) : z <> 0 -> of_Z (- z) = SFopp (of_Z z).
Proof.
  intros Hz. unfold of_Z, binary_normalize.
  destruct z as [| p | p]; [contradiction | |].
  - change (- Z.pos p) with (Z.neg p). cbv iota. unfold binary_round.
    destruct (shl_align _ _ _) as [mz ez].
    apply (binary_round_aux_opp false).
  - change (- Z.neg p) with (Z.pos p). cbv iota. unfold binary_round.
    destruct (shl_align _ _ _) as [mz ez].
    rewrite (binary_round_aux_opp false).
    now destruct (binary_round_aux _ _ _ _ _ _) as [[] | [] | | [] m e].
Qed.

Lemma fmul_opp (x y : number) : fmul x (SFopp y) = SFopp (fmul x y).
Proof.
  unfold fmul, SFmul.
  destruct x as [sx | sx | | sx mx ex], y as [sy | sy | | sy my ey];
    cbn [SFopp]; rewrite <- ?negb_xorb_r; try reflexivity.
  apply binary_round_aux_opp.
Qed.

(** The product of a draw from the unit interval and a count stays below
    the count. *)
Lemma scaled_below (mr : positive) (er : Z) (N : Z) :
  bounded prec emax mr er = true -> -1074 <= er <= -53 ->
  Z.pos mr < 2 ^ prec -> 0 < N < 2 ^ prec ->
  fmul (S754_finite false mr er) (of_Z N) = pos_zero \/
  exists m e,
    fmul (S754_finite false mr er) (of_Z N) = S754_finite false m e /\
    bounded prec emax m e = true /\
    Z.pos m * 2 ^ Z.max 0 e < N * 2 ^ Z.max 0 (- e).
Proof.
  intros Hbr Her Hmr HN.
  destruct (of_Z_finite N ltac:(lia) ltac:(lia))
    as (mn & en & EN & Hbn & Hen & Hmn & Hdn).
  replace (N <? 0) with false in EN by (symmetry; apply Z.ltb_ge; lia).
  rewrite Z.abs_eq in Hmn by lia. rewrite EN.
  assert (Hprec : prec = 53) by reflexivity.
  assert (Hemax : emax = 1024) by reflexivity.
  pose proof (digits2_pos_bounds mn) as [Nlo Nhi]. rewrite Hdn in Nlo, Nhi.
  unfold fmul, SFmul. cbn [xorb].
  set (M := (mr * mn)%positive). set (E := er + en).
  pose proof (digits2_pos_bounds M) as [Mlo Mhi].
  set (dM := Z.pos (digits2_pos M)) in *.
  assert (HMval : Z.pos M = Z.pos mr * Z.pos mn) by (unfold M; lia).
  assert (P52 : 2 ^ (prec - 1) = 4503599627370496) by reflexivity.
  assert (P53 : 2 ^ prec = 9007199254740992) by reflexivity.
  assert (HdM : prec <= dM <= 2 * prec).
  { split.
    - unfold dM. apply digits2_large. rewrite HMval.
      apply Z.le_trans with (1 * Z.pos mn); [lia |].
      apply Z.mul_le_mono_nonneg_r; lia.
    - unfold dM. apply digits2_small.
      replace (2 * prec) with (prec + prec) by lia.
      rewrite Z.pow_add_r by lia. rewrite HMval.
      apply Z.mul_lt_mono_nonneg; lia. }
  assert (Hen52 : - en <= prec - 1).
  { assert (Hlt : 2 ^ (- en) < 2 ^ prec).
    { apply Z.le_lt_trans with (Z.pos mn); [| exact Nhi]. rewrite Hmn.
      apply Z.le_trans with (1 * 2 ^ (- en)); [lia |].
      apply Z.mul_le_mono_nonneg_r; [apply Z.pow_nonneg |]; lia. }
    apply Z.pow_lt_mono_r_iff in Hlt; lia. }
  pose proof (binary_round_aux_spec false M E) as Hspec.
  cbv zeta in Hspec. fold dM in Hspec.
  set (e1 := fexp prec emax (dM + E)) in *.
  assert (He1 : e1 = Z.max (dM + E - prec) (-1074)) by reflexivity.
  destruct Hspec as [Ez | (m & e & Ef & Hb & He & Hbound)]; [lia | lia | |].
  { left. exact Ez. }
  right. exists m, e. split; [exact Ef |]. split; [exact Hb |].
  set (T := 2 ^ (- er - prec)).
  assert (HT : 1 <= T).
  { unfold T. pose proof (Z.pow_pos_nonneg 2 (- er - prec) ltac:(lia)
                            ltac:(lia)). lia. }
  assert (Her2 : 2 ^ (- er) = 2 ^ prec * T).
  { unfold T. rewrite <- Z.pow_add_r by lia. f_equal. lia. }
  assert (Hulp : 2 ^ (e1 - E) < 2 * Z.pos mn).
  { destruct (Z.max_spec (dM + E - prec) (-1074)) as [[Hlt Hmx] | [Hge Hmx]].
    - assert (Hle : 2 ^ (e1 - E) <= 2 ^ (prec - 1)).
      { apply Z.pow_le_mono_r; unfold E; lia. }
      lia.
    - replace (e1 - E) with (dM - prec) by lia.
      assert (Hs : 2 ^ (dM - 1) = 2 ^ (dM - prec) * 2 ^ (prec - 1)).
      { rewrite <- Z.pow_add_r by lia. f_equal. lia. }
      apply (ulp_bound _ (2 ^ (prec - 1)) (Z.pos M) (Z.pos mr) (Z.pos mn));
        lia. }
  assert (Hbelow : Z.pos m * 2 ^ (e - E) < Z.pos mn * 2 ^ (- er)).
  { rewrite Her2.
    apply (below_bound _ (Z.pos M) (2 ^ (e1 - E)) (Z.pos mr)); lia. }
  assert (HNE : Z.pos mn * 2 ^ (- er) = N * 2 ^ (- E)).
  { unfold E. replace (- (er + en)) with (- en + - er) by lia.
    rewrite Z.pow_add_r by lia. rewrite Hmn. lia. }
  rewrite HNE in Hbelow.
  assert (HE : E < 0) by (unfold E; lia).
  destruct (Z.leb_spec 0 e) as [Hpos | Hneg].
  - rewrite Z.max_r, Z.max_l by lia. rewrite Z.pow_0_r, Z.mul_1_r.
    replace (e - E) with (e + - E) in Hbelow by lia.
    rewrite Z.pow_add_r, Z.mul_assoc in Hbelow by lia.
    apply Z.mul_lt_mono_pos_r in Hbelow; [exact Hbelow |].
    apply Z.pow_pos_nonneg; lia.
  - rewrite Z.max_l, Z.max_r by lia. rewrite Z.pow_0_r, Z.mul_1_r.
    replace (- E) with (- e + (e - E)) in Hbelow by lia.
    rewrite Z.pow_add_r, Z.mul_assoc in Hbelow by lia.
    apply Z.mul_lt_mono_pos_r in Hbelow; [exact Hbelow |].
    apply Z.pow_pos_nonneg; lia.
Qed.

(** The floor of such a product with the count negated. *)
Lemma floor_scaled_down (r : number) (N : Z) :
  valid r = true -> flt r pos_zero = false -> flt r (of_Z 1) = true ->
  0 < N < 2 ^ prec ->
  exists j,
    - N <= j <= 0 /\
    (floor (fmul r (of_Z (- N))) = of_Z j \/
     exists s, floor (fmul r (of_Z (- N))) = S754_zero s /\ j = 0).
Proof.
  intros Hv H0 H1 HN.
  rewrite of_Z_opp by lia. rewrite fmul_opp.
  destruct (unit_interval_cases r Hv H0 H1)
    as [(s & ->) | (mr & er & -> & Hbr & Her & Hmr)].
  { exists 0. split; [lia |]. right.
    destruct (of_Z_finite N ltac:(lia) ltac:(lia)) as (mn & en & EN & _).
    rewrite EN. eexists. split; reflexivity. }
  destruct (scaled_below mr er N Hbr Her Hmr HN)
    as [-> | (m & e & -> & Hb & Hlt)].
  { exists 0. split; [lia |]. right. eexists. split; reflexivity. }
  cbn [SFopp negb]. unfold floor.
  destruct (Z.leb_spec 0 e) as [Hpos | Hneg].
  - rewrite Z.max_r, Z.max_l in Hlt by lia. rewrite Z.pow_0_r, Z.mul_1_r in Hlt.
    assert (Hk : exists K : positive, Z.pos K = Z.pos m * 2 ^ e).
    { pose proof (Z.pow_pos_nonneg 2 e ltac:(lia) Hpos).
      destruct (Z.pos m * 2 ^ e) as [| K | K] eqn:EK; try lia. now exists K. }
    destruct Hk as (K & EK).
    exists (Z.neg K). split; [lia |]. left.
    unfold of_Z, binary_normalize. symmetry.
    apply binary_round_exact; [exact Hb |].
    rewrite Z.max_l, Z.max_r by lia. rewrite Z.sub_0_r. lia.
  - rewrite Z.max_l, Z.max_r in Hlt by lia. rewrite Z.pow_0_r, Z.mul_1_r in Hlt.
    cbn [cond_Zopp].
    assert (Hd : 0 < 2 ^ (- e)) by (apply Z.pow_pos_nonneg; lia).
    exists (- Z.pos m / 2 ^ (- e)). split; [| left; reflexivity]. split.
    + apply Z.div_le_lower_bound; [exact Hd |]. 
      clear - Hlt Hd. rewrite Z.mul_comm, Z.mul_opp_l. lia.
    + apply Z.lt_le_incl. apply Z.div_lt_upper_bound; [exact Hd |]. lia.
Qed.

(** X19.  [randomize] does not order its bounds.  For whole numbers with
    [max < min] (below [2^53] in magnitude, fewer than [2^53] apart) and a
    draw from [[0, 1)], the result is a whole number above [max] and at most
    [min]; it is [min] when [max = min - 1]. *)
Theorem randomize_reversed_bounds (lo hi : Z) (w : world) :
  valid (entropy w (draws w)) = true ->
  flt (entropy w (draws w)) pos_zero = false ->
  flt (entropy w (draws w)) (of_Z 1) = true ->
  - 2 ^ 53 < hi -> hi < lo -> lo < 2 ^ 53 -> lo - hi < 2 ^ 53 ->
  exists n,
    hi < n <= lo /\
    fst (randomize (VNum (of_Z lo)) (VNum (of_Z hi)) w) = Ret (VNum (of_Z n)).
Proof.
  intros Hv H0 H1 Hhi Hlt Hlo Hspan.
  change (2 ^ 53) with (2 ^ prec) in *.
  rewrite randomize_formula. cbn [fst].
  rewrite fsub_of_Z by lia. rewrite fadd_of_Z by lia.
  destruct (Z.eq_dec (hi - lo + 1) 0) as [Ez | Hnz].
  - rewrite Ez. exists lo. split; [lia |]. change (of_Z 0) with pos_zero.
    assert (Hz : exists s,
               floor (fmul (entropy w (draws w)) pos_zero) = S754_zero s).
    { destruct (unit_interval_cases _ Hv H0 H1)
        as [(s & ->) | (mr & er & -> & _)]; eexists; reflexivity. }
    destruct Hz as (s & ->). now rewrite fadd_zero_of_Z by lia.
  - replace (hi - lo + 1) with (- (lo - hi - 1)) by lia.
    destruct (floor_scaled_down _ (lo - hi - 1) Hv H0 H1 ltac:(lia))
      as (j & Hj & [E | (s & E & ->)]); rewrite E.
    + exists (j + lo). split; [lia |]. now rewrite fadd_of_Z by lia.
    + exists lo. split; [lia |]. now rewrite fadd_zero_of_Z by lia.
Qed.

Lemma randomize_reversed_bounds_witness :
  exists n,
    1 < n <= 6 /\
    fst (randomize (VNum (of_Z 6)) (VNum (of_Z 1)) half_world)
    = Ret (VNum (of_Z n)).
Proof.
  apply (randomize_reversed_bounds 6 1 half_world);
    [reflexivity | reflexivity | reflexivity | lia | lia | lia | lia].
Defined.

(** ** Products of whole numbers *)

Lemma fmul_of_Z (x a : Z) :
  x <> 0 -> a <> 0 ->
  Z.abs x < 2 ^ prec -> Z.abs a < 2 ^ prec -> Z.abs (x * a) < 2 ^ prec ->
  fmul (of_Z x) (of_Z a) = of_Z (x * a).
Proof.
  intros Hx0 Ha0 Hx Ha Hxa.
  destruct (of_Z_finite x Hx0 Hx) as (mx & ex & Ex & Hbx & Hex & Hmx & Hdx).
  destruct (of_Z_finite a Ha0 Ha) as (ma & ea & Ea & Hba & Hea & Hma & Hda).
  destruct (of_Z_finite (x * a) ltac:(lia) Hxa)
    as (m & e & Em & Hb & He & Hm & Hd).
  rewrite Ex, Ea, Em. unfold fmul, SFmul.
  assert (Hs : xorb (x <? 0) (a <? 0) = (x * a <? 0)).
  { destruct (Z.ltb_spec x 0), (Z.ltb_spec a 0), (Z.ltb_spec (x * a) 0);
      cbn; try reflexivity; nia. }
  rewrite Hs.
  pose proof (digits2_pos_bounds mx) as [Xlo _]. rewrite Hdx in Xlo.
  pose proof (digits2_pos_bounds ma) as [Alo _]. rewrite Hda in Alo.
  pose proof (digits2_pos_bounds m) as [_ Mhi]. rewrite Hd in Mhi.
  assert (P52 : 2 ^ (prec - 1) = 4503599627370496) by reflexivity.
  assert (P53 : 2 ^ prec = 9007199254740992) by reflexivity.
  set (P := Z.abs x * Z.abs a).
  assert (HP : Z.abs (x * a) = P) by (unfold P; apply Z.abs_mul).
  assert (HP0 : 0 < P) by (unfold P; nia).
  assert (Hprod : Z.pos mx * Z.pos ma = P * 2 ^ (- ex - ea)).
  { rewrite Hmx, Hma. replace (- ex - ea) with (- ex + - ea) by lia.
    rewrite Z.pow_add_r by lia. unfold P. ring. }
  assert (Hbig : 2 ^ prec <= Z.pos mx * Z.pos ma).
  { apply Z.le_trans with (2 ^ (prec - 1) * 2 ^ (prec - 1)).
    - rewrite P52, P53. lia.
    - apply Z.mul_le_mono_nonneg; lia. }
  assert (Hj : 0 <= e - (ex + ea)).
  { destruct (Z.le_gt_cases (ex + ea) e) as [H | H]; [lia | exfalso].
    assert (Hle : 2 ^ (- ex - ea) <= 2 ^ (- e)) by (apply Z.pow_le_mono_r; lia).
    assert (Hmul : P * 2 ^ (- ex - ea) <= P * 2 ^ (- e))
      by (apply Z.mul_le_mono_nonneg_l; lia).
    rewrite HP in Hm. lia. }
  replace (Z.pos (mx * ma)) with (Z.pos m * 2 ^ (e - (ex + ea))).
  - replace (ex + ea) with (e - (e - (ex + ea))) at 2 by lia.
    now apply binary_round_aux_exact.
  - rewrite Pos2Z.inj_mul, Hprod, Hm, HP.
    replace (- ex - ea) with (- e + (e - (ex + ea))) by lia.
    rewrite Z.pow_add_r by lia. ring.
Qed.

Lemma mul_integers (k : string) (x a : Z) (w : world) :
  Z.abs x < 2 ^ prec -> Z.abs a < 2 ^ prec -> Z.abs (x * a) < 2 ^ prec ->
  holds k x w ->
  exists w1, mul (VStr k) (VNum (of_Z a)) w = (Ret tt, w1) /\ holds k (x * a) w1.
Proof.
  intros Hx Ha Hxa Hh. pose proof (holds_get k x w Hx Hh) as Hg.
  destruct Hh as [Hf Hk].
  destruct (mul_run k (of_Z a) w (VNum (of_Z x)) (of_Z x) Hf) as (w1 & E & Hf1 & _);
    [now rewrite Hg | reflexivity |].
  rewrite E. eexists. split; [reflexivity |]. split; [exact Hf1 |].
  cbn [with_storage storage]. rewrite lookup_insert_eq. f_equal.
  destruct (Z.eq_dec x 0) as [-> | Hx0].
  { change (of_Z 0) with pos_zero. rewrite Z.mul_0_l.
    destruct (Z.eq_dec a 0) as [-> | Ha0]; [reflexivity |].
    destruct (of_Z_finite a Ha0 Ha) as (ma & ea & -> & _).
    now destruct (a <? 0). }
  destruct (Z.eq_dec a 0) as [-> | Ha0].
  { change (of_Z 0) with pos_zero. rewrite Z.mul_0_r.
    destruct (of_Z_finite x Hx0 Hx) as (mx & ex & -> & _).
    now destruct (x <? 0). }
  now rewrite fmul_of_Z.
Qed.

(** X20.  On whole numbers below [2^53] in magnitude [mul] is exact, sign
    included: a key that holds the whole number [x] reads as [x * a] after
    [mul] of [a], and a product [-0] reads as [0]. *)
Theorem whole_products_are_exact (k : string) (x a : Z) (w : world) :
  Z.abs x < 2 ^ 53 -> Z.abs a < 2 ^ 53 -> Z.abs (x * a) < 2 ^ 53 ->
  faults w = [] -> storage w !! k = Some (number_text (of_Z x)) ->
  fst ((mul (VStr k) (VNum (of_Z a)) ;; get (VStr k)) w)
  = Ret (VNum (of_Z (x * a))).
Proof.
  intros Hx Ha Hxa Hf Hk. change (2 ^ 53) with (2 ^ prec) in *.
  destruct (mul_integers k x a w Hx Ha Hxa ltac:(now split)) as (w1 & E & H1).
  rewrite (bind_run _ _ _ _ _ E). now rewrite (holds_get k (x * a) w1 Hxa H1).
Qed.

Lemma whole_products_are_exact_witness :
  fst ((mul (VStr "gold") (VNum (of_Z (-3))) ;; get (VStr "gold")) two_entries)
  = Ret (VNum (of_Z (-30))).
Proof.
  apply (whole_products_are_exact "gold" 10 (-3) two_entries);
    [lia | lia | lia | reflexivity | reflexivity].
Defined.
